(** * Github_Automation: the repository pipeline, its ledger and its deleter

    A shallow embedding of the orchestration code of the repository
    (repo_processor.py, repo_delete.py, archive_sender.py and
    github_repo_cloner.py) together with the properties the specification
    states about it.

    Python strings are modelled as [string], dictionaries as [gmap string _],
    [None]-able values as [option].  Everything the code obtains from its
    environment (sub-processes, the file system, the network, the process
    environment) is an explicit parameter: a record of operations acting on an
    abstract world.  Exceptions are explicit: a computation returns [Ret v] or
    [Raise e]. *)

From Stdlib Require Import String Ascii List ZArith Lia Bool.
From stdpp Require Import base option gmap strings list pretty.
Import ListNotations.


(** ** Python string methods used by the code *)

Module Py.

(** Truth value of a [str] and of an [Optional[str]]: the empty string and
    [None] are falsy. *)
Definition truthy (s : string) : bool :=
  match s with EmptyString => false | String _ _ => true end.

Definition truthy_opt (o : option string) : bool :=
  match o with Some s => truthy s | None => false end.

(** [a or b] on optional strings. *)
Definition or_else (a b : option string) : option string :=
  if truthy_opt a then a else b.

(** [p] is a prefix of [s]. *)
Fixpoint has_prefix (p s : string) : bool :=
  match p with
  | EmptyString => true
  | String a p' =>
      match s with
      | EmptyString => false
      | String b s' => Ascii.eqb a b && has_prefix p' s'
      end
  end.

(** [s.startswith(p)]. *)
Definition startswith (s p : string) : bool := has_prefix p s.

(** [s.endswith(suf)]: some suffix of [s] is [suf]. *)
Fixpoint endswith (s suf : string) : bool :=
  String.eqb s suf ||
  match s with
  | EmptyString => false
  | String _ r => endswith r suf
  end.

Fixpoint char_in (c : ascii) (chars : string) : bool :=
  match chars with
  | EmptyString => false
  | String d r => Ascii.eqb c d || char_in c r
  end.

(** [s.rstrip(chars)]: drop the longest suffix made of characters of [chars]. *)
Fixpoint rstrip (s chars : string) : string :=
  match s with
  | EmptyString => EmptyString
  | String c r =>
      match rstrip r chars with
      | EmptyString => if char_in c chars then EmptyString else String c EmptyString
      | r' => String c r'
      end
  end.

(** [s.lstrip(chars)] and [s.strip(chars)]. *)
Fixpoint lstrip (s chars : string) : string :=
  match s with
  | EmptyString => EmptyString
  | String c r => if char_in c chars then lstrip r chars else s
  end.

Definition strip (s chars : string) : string := rstrip (lstrip s chars) chars.

(** [s.split(sep)] for a one-character separator; the result is never empty. *)
Fixpoint split (s : string) (sep : ascii) : list string :=
  match s with
  | EmptyString => [EmptyString]
  | String c r =>
      if Ascii.eqb c sep then EmptyString :: split r sep
      else match split r sep with
           | h :: t => String c h :: t
           | [] => [String c EmptyString]
           end
  end.

(** [sep.join(parts)]. *)
Definition join (sep : string) (parts : list string) : string :=
  String.concat sep parts.

(** [parts[-1]] on a list that [split] produced (never empty). *)
Definition last_item (parts : list string) : string := List.last parts EmptyString.

(** [parts[:-1]]. *)
Definition but_last (parts : list string) : list string := List.removelast parts.

(** [s.replace(old, new)] for a non-empty [old]: scan from the left, replace
    each occurrence found and resume after it.  [skip] counts the characters
    of a matched occurrence that are still to be passed over. *)
Fixpoint replace_from (old new : string) (skip : nat) (s : string) : string :=
  match s with
  | EmptyString => EmptyString
  | String c r =>
      match skip with
      | S k => replace_from old new k r
      | O =>
          if has_prefix old s
          then new +:+ replace_from old new (String.length old - 1) r
          else String c (replace_from old new 0 r)
      end
  end.

Definition replace (s old new : string) : string := replace_from old new 0 s.

(** [s.isascii()]: every character has a code below 128.  A [str] is a
    text of characters with codes below 256 here; the codes from 128 on
    stand for the characters outside ASCII. *)
Fixpoint is_ascii (s : string) : bool :=
  match s with
  | EmptyString => true
  | String c r => (nat_of_ascii c <? 128)%nat && is_ascii r
  end.

End Py.

(** ** Computations that may raise

    [Exc A] is the outcome of a Python call: a value or a raised exception
    (carrying the name of its class).  Only [Exception] subclasses are
    modelled; [KeyboardInterrupt] and [SystemExit] are not. *)

Inductive Exc (A : Type) : Type :=
| Ret (a : A)
| Raise (e : string).
Arguments Ret {A} a.
Arguments Raise {A} e.

(** State-and-exception computations over a state [S]. *)
Definition SE (S A : Type) : Type := S -> S * Exc A.

Definition se_ret {S A} (a : A) : SE S A := fun s => (s, Ret a).

Definition se_bind {S A B} (m : SE S A) (k : A -> SE S B) : SE S B :=
  fun s => match m s with
           | (s', Ret a) => k a s'
           | (s', Raise e) => (s', Raise e)
           end.

(** [try: m except Exception as e: h e]. *)
Definition try_except {S A} (m : SE S A) (h : string -> SE S A) : SE S A :=
  fun s => match m s with
           | (s', Ret a) => (s', Ret a)
           | (s', Raise e) => h e s'
           end.

Definition se_raise {S A} (e : string) : SE S A := fun s => (s, Raise e).
Definition se_modify {S} (f : S -> S) : SE S unit := fun s => (f s, Ret tt).

(** The monad operations are registered with stdpp's classes, which gives the
    notations [x ← m; k] and [m;; k]. *)
#[global] Instance se_mret {S} : MRet (SE S) := fun A => @se_ret S A.
#[global] Instance se_mbind {S} : MBind (SE S) := fun A B k m => @se_bind S A B m k.

(** ** repo_processor.py: the stage state machine *)

Module Processor.

(** How [subprocess.run(cmd, capture_output=True, text=True, check=True)]
    ends: exit status 0, a non-zero exit status ([CalledProcessError]), or
    another exception (the interpreter could not be started, say). *)
Inductive ProcResult : Type :=
| Exit0
| CalledProcessError
| SpawnError (e : string).

(** The environment of a job, acting on an abstract world [W]. *)
Record Env (W : Type) : Type := {
  (** [(Path(__file__).parent / script_name).exists()] *)
  script_exists : string -> W -> bool;
  (** [subprocess.run([sys.executable, script_path] + args, ...)], given the
      script name and its arguments *)
  subprocess_run : string -> list string -> W -> W * ProcResult
}.
Arguments script_exists {W} _ _ _.
Arguments subprocess_run {W} _ _ _ _.

(** The fields [__init__] computes once. *)
Record Job : Type := {
  repo_url : string;
  target_dir : string;
  repo_name : string;
  repo_path : string;
  archive_webhook_url : option string;
  reference_id : option string
}.

(** One call of [_run_script] and how it ended. *)
Record Call : Type := {
  call_script : string;
  call_args : list string;
  call_result : Exc bool
}.

(** The mutable part of a [RepositoryProcessor], the world, and the record of
    the [_run_script] calls made so far (ghost state, for stating properties). *)
Record PState (W : Type) : Type := {
  status : gmap string string;
  started : bool;
  ended : bool;
  world : W;
  calls : list Call
}.
Arguments status {W} _.
Arguments started {W} _.
Arguments ended {W} _.
Arguments world {W} _.
Arguments calls {W} _.

(** [RepositoryProcessor._extract_repo_name]. *)
Definition _extract_repo_name (url : string) : string :=
  Py.replace (Py.last_item (Py.split (Py.rstrip url "/") "/")) ".git" "".

(** [Path(a) / b] on POSIX path strings: an absolute [b] replaces [a], an
    empty [b] leaves [a], and one separator stands between the two. *)
Definition path_join (a b : string) : string :=
  match b with
  | EmptyString => a
  | String c _ =>
      if Ascii.eqb c "/" then b
      else if Py.endswith a "/" then a +:+ b
      else a +:+ "/" +:+ b
  end.

(** [RepositoryProcessor.__init__], with the resolved target directory and the
    value of the ARCHIVE_WEBHOOK_URL environment variable given. *)
Definition new_job (env_archive_webhook_url : option string)
    (url target : string) (archive_webhook ref : option string) : Job :=
  let name := _extract_repo_name url in
  {| repo_url := url;
     target_dir := target;
     repo_name := name;
     repo_path := path_join target name;
     archive_webhook_url := Py.or_else env_archive_webhook_url archive_webhook;
     reference_id := ref |}.

Definition init_state {W} (w : W) : PState W :=
  {| status := ∅; started := false; ended := false; world := w; calls := [] |}.

Section Stages.
Context {W : Type} (env : Env W).

Definition set_status (k v : string) : SE (PState W) unit :=
  se_modify (fun s =>
    {| status := <[k := v]> (status s); started := started s;
       ended := ended s; world := world s; calls := calls s |}).

Definition set_started : SE (PState W) unit :=
  se_modify (fun s =>
    {| status := status s; started := true;
       ended := ended s; world := world s; calls := calls s |}).

Definition set_ended : SE (PState W) unit :=
  se_modify (fun s =>
    {| status := status s; started := started s;
       ended := true; world := world s; calls := calls s |}).

Definition record_call (w : W) (c : Call) (s : PState W) : PState W :=
  {| status := status s; started := started s; ended := ended s;
     world := w; calls := calls s ++ [c] |}.

(** [RepositoryProcessor._run_script]: [False] when the script file is
    missing or exits with a non-zero status, [True] when it exits with 0;
    any other exception of [subprocess.run] propagates. *)
Definition _run_script (script_name : string) (args : list string)
  : SE (PState W) bool :=
  fun s =>
    if negb (script_exists env script_name (world s)) then
      (record_call (world s) (Build_Call script_name args (Ret false)) s, Ret false)
    else
      match subprocess_run env script_name args (world s) with
      | (w, Exit0) =>
          (record_call w (Build_Call script_name args (Ret true)) s, Ret true)
      | (w, CalledProcessError) =>
          (record_call w (Build_Call script_name args (Ret false)) s, Ret false)
      | (w, SpawnError e) =>
          (record_call w (Build_Call script_name args (Raise e)) s, Raise e)
      end.

(** Stage 5, the non-critical one. *)
Definition stage_api_docs (j : Job) : SE (PState W) unit :=
  try_except
    (ok ← _run_script "api_documentation_generator.py" [repo_path j];
     if negb ok then set_status "api_docs" "skipped"
     else set_status "api_docs" "completed")
    (fun _ => set_status "api_docs" "skipped").

Definition archive_sender_args (j : Job) : list string :=
  ["--repo"; repo_name j; "--repo-path"; repo_path j] ++
  (if Py.truthy_opt (reference_id j)
   then ["--reference-id"; default EmptyString (reference_id j)]
   else []).

(** Stage 6.  [Some b] stands for [return b] out of [process_repository],
    [None] for falling through to stage 7. *)
Definition stage_archive_send (j : Job) : SE (PState W) (option bool) :=
  if Py.truthy_opt (archive_webhook_url j) then
    try_except
      (ok ← _run_script "archive_sender.py" (archive_sender_args j);
       if negb ok then
         set_status "archive_send" "failed";; mret (Some false)
       else
         set_status "archive_send" "completed";; mret None)
      (fun _ => set_status "archive_send" "failed";; mret (Some false))
  else
    set_status "archive_send" "skipped";; mret None.

(** Stage 7. *)
Definition stage_delete (j : Job) : SE (PState W) bool :=
  ok ← _run_script "repo_delete.py" [repo_path j; "--force"];
  if negb ok then
    set_status "delete" "failed";; mret false
  else
    set_status "delete" "completed";;
    set_ended;;
    mret true.

(** [RepositoryProcessor.process_repository]. *)
Definition process_repository (j : Job) : SE (PState W) bool :=
  set_started;;
  try_except
    (ok ← _run_script "github_repo_cloner.py"
             [repo_url j; "--target-dir"; target_dir j];
     if negb ok then set_status "clone" "failed";; mret false else
     set_status "clone" "completed";;
     ok ← _run_script "file_classifier.py" [repo_path j];
     if negb ok then set_status "classify" "failed";; mret false else
     set_status "classify" "completed";;
     ok ← _run_script "project_documentation_generator.py" [repo_path j];
     if negb ok then set_status "project_docs" "failed";; mret false else
     set_status "project_docs" "completed";;
     ok ← _run_script "uat_documentation_generator.py" [repo_path j];
     if negb ok then set_status "uat_docs" "failed";; mret false else
     set_status "uat_docs" "completed";;
     stage_api_docs j;;
     r ← stage_archive_send j;
     match r with
     | Some b => mret b
     | None => stage_delete j
     end)
    (fun _ => mret false).

End Stages.

(** Observations on the record of calls: a script was run; it was run and
    [_run_script] returned [b]; it was run and [_run_script] raised; it was
    run and did not return [True] (it returned [False] or raised). *)
Definition attempted {W} (script : string) (s : PState W) : bool :=
  existsb (fun c => String.eqb (call_script c) script) (calls s).

Definition returned {W} (script : string) (b : bool) (s : PState W) : bool :=
  existsb (fun c => String.eqb (call_script c) script &&
                    match call_result c with
                    | Ret b' => Bool.eqb b b'
                    | Raise _ => false
                    end) (calls s).

Definition raised {W} (script : string) (s : PState W) : bool :=
  existsb (fun c => String.eqb (call_script c) script &&
                    match call_result c with
                    | Ret _ => false
                    | Raise _ => true
                    end) (calls s).

Definition failed_or_raised {W} (script : string) (s : PState W) : bool :=
  existsb (fun c => String.eqb (call_script c) script &&
                    match call_result c with
                    | Ret true => false
                    | _ => true
                    end) (calls s).

(** The stages in their fixed order, the script each one runs and its key in
    the status dictionary. *)
Inductive Stage : Type :=
| CLONE | CLASSIFY | DOC_PROJECT | DOC_UAT | DOC_API | ARCHIVE_SEND | DELETE.

Definition stage_script (st : Stage) : string :=
  match st with
  | CLONE => "github_repo_cloner.py"
  | CLASSIFY => "file_classifier.py"
  | DOC_PROJECT => "project_documentation_generator.py"
  | DOC_UAT => "uat_documentation_generator.py"
  | DOC_API => "api_documentation_generator.py"
  | ARCHIVE_SEND => "archive_sender.py"
  | DELETE => "repo_delete.py"
  end.

Definition stage_key (st : Stage) : string :=
  match st with
  | CLONE => "clone"
  | CLASSIFY => "classify"
  | DOC_PROJECT => "project_docs"
  | DOC_UAT => "uat_docs"
  | DOC_API => "api_docs"
  | ARCHIVE_SEND => "archive_send"
  | DELETE => "delete"
  end.

Definition stage_index (st : Stage) : nat :=
  match st with
  | CLONE => 0
  | CLASSIFY => 1
  | DOC_PROJECT => 2
  | DOC_UAT => 3
  | DOC_API => 4
  | ARCHIVE_SEND => 5
  | DELETE => 6
  end.

(** The critical stages that come before the documentation is sent. *)
Definition critical_early (st : Stage) : bool :=
  match st with
  | CLONE | CLASSIFY | DOC_PROJECT | DOC_UAT => true
  | _ => false
  end.

(** *** The webhook endpoint *)

(** The dynamically typed values that reach [_verify_github_signature]. *)
Inductive PyVal : Type :=
| VNone
| VStr (s : string)
| VBytes (b : string).

Definition val_truthy (v : PyVal) : bool :=
  match v with
  | VNone => false
  | VStr s => Py.truthy s
  | VBytes b => Py.truthy b
  end.

(** A call [f(a1, ..., an)] with positional arguments of a plain function
    that has exactly three parameters and no defaults: with any other number
    of arguments the call raises [TypeError] before the body runs. *)
Definition call3 {A} (f : PyVal -> PyVal -> PyVal -> Exc A) (args : list PyVal) : Exc A :=
  match args with
  | [a; b; c] => f a b c
  | _ => Raise "TypeError"
  end.

(** Module-level configuration read from the process environment. *)
Record Config : Type := {
  GITHUB_WEBHOOK_SECRET : option string;
  ARCHIVE_WEBHOOK_URL : option string;
  (** what [Path('.').resolve()] gives *)
  cwd : string
}.

Record Request : Type := {
  method : string;
  (** the [<path:github_url>] part of the route *)
  url_path : string;
  X_Hub_Signature : option string;
  X_Archive_Webhook : option string;
  (** [request.get_data()] *)
  data : string
}.

Inductive Body : Type :=
| ErrorBody (error : string) (message : option string)
| QueuedBody (message repository : string) (reference_id : option string) (status : string).

Record Response : Type := { code : nat; body : Body }.

Section Webhook.
(** [hmac.new(key, payload, hashlib.sha1).hexdigest()] *)
Variable hmac_sha1_hexdigest : string -> string -> string.
Variable cfg : Config.

(** [RepositoryProcessor._verify_github_signature(self, payload, signature)].
    Inside the [try]:
    - [hmac.new(key, payload, hashlib.sha1)] takes bytes, takes [None] as
      the empty message, and raises [TypeError] on a [str];
    - [hmac.compare_digest(a, signature)] with the [str] [a] raises
      [TypeError] unless [signature] is a [str] of ASCII characters.
    The handler of the [try] returns [True]. *)
Definition _verify_github_signature (self payload signature : PyVal) : Exc bool :=
  if negb (Py.truthy_opt (GITHUB_WEBHOOK_SECRET cfg)) then Ret true
  else if negb (val_truthy signature) then Ret true
  else
    let key := default EmptyString (GITHUB_WEBHOOK_SECRET cfg) in
    let digest_of msg :=
      let expected_signature := hmac_sha1_hexdigest key msg in
      match signature with
      | VStr sg =>
          if Py.is_ascii sg
          then Ret (String.eqb ("sha1=" +:+ expected_signature) sg)
          else Ret true
      | _ => Ret true
      end in
    match payload with
    | VBytes p => digest_of p
    | VNone => digest_of EmptyString
    | VStr _ => Ret true
    end.

Definition header_val (h : option string) : PyVal :=
  match h with Some s => VStr s | None => VNone end.

(** [parts = github_url.split('/')] and the two assignments that follow:
    the reference id and the locator that is left. *)
Definition split_reference (github_url : string) : option string * string :=
  let parts := Py.split github_url "/" in
  let reference_id :=
    if (2 <? length parts)%nat && negb (Py.endswith (Py.last_item parts) ".git")
    then Some (Py.last_item parts) else None in
  let github_url :=
    if Py.truthy_opt reference_id then Py.join "/" (Py.but_last parts) else github_url in
  (reference_id, github_url).

(** The format check of the endpoint. *)
Definition valid_format (github_url : string) : bool :=
  Py.startswith github_url "https://github.com/" ||
  Py.startswith github_url "http://github.com/".

(** "Clean up the URL". *)
Definition clean_url (github_url : string) : string :=
  let github_url := Py.rstrip github_url "/" in
  if negb (Py.endswith github_url ".git") then github_url +:+ ".git" else github_url.

(** Lifting of a pure raising computation. *)
Definition se_lift {S A} (x : Exc A) : SE S A := fun s => (s, x).

(** [repo_queue.put(processor)]. *)
Definition queue_put (j : Job) : SE (list Job) unit :=
  se_modify (fun q => q ++ [j]).

(** [github_webhook(github_url)]; the state is the content of [repo_queue]. *)
Definition github_webhook (req : Request) : SE (list Job) Response :=
  if negb (String.eqb (method req) "POST") then
    mret {| code := 405; body := ErrorBody "Method not allowed" None |}
  else
    try_except
      ((if Py.truthy_opt (GITHUB_WEBHOOK_SECRET cfg) && Py.truthy_opt (X_Hub_Signature req)
        then
          _ ← se_lift (call3 _verify_github_signature
                         [VBytes (data req); header_val (X_Hub_Signature req)]);
          mret tt
        else mret tt);;
       let '(reference_id, github_url) := split_reference (url_path req) in
       if negb (valid_format github_url) then
         mret {| code := 400;
                 body := ErrorBody "Invalid GitHub URL format"
                   (Some "URL must start with https://github.com/ or http://github.com/") |}
       else
         let github_url := clean_url github_url in
         let archive_webhook :=
           Py.or_else (ARCHIVE_WEBHOOK_URL cfg) (X_Archive_Webhook req) in
         let processor :=
           new_job (ARCHIVE_WEBHOOK_URL cfg) github_url (cwd cfg) archive_webhook reference_id in
         queue_put processor;;
         mret {| code := 202;
                 body := QueuedBody "Repository processing queued" github_url
                           reference_id "queued" |})
      (fun e => mret {| code := 500; body := ErrorBody e None |}).

End Webhook.

End Processor.

(** ** repo_delete.py: forceful deletion *)

Module Deleter.

(** The function [shutil.rmtree] was running when it called its error
    handler. *)
Inductive RemoveFunc : Type :=
| os_rmdir | os_unlink | os_scandir | os_lstat | os_open | os_path_islink.

(** File-system and process operations on an abstract world [W].  An
    operation returns the new world and whether it raised. *)
Record FsOps (W : Type) : Type := {
  (** [Path.exists()], [os.path.isfile], [os.path.isdir] *)
  path_exists : string -> W -> bool;
  isfile : string -> W -> bool;
  isdir : string -> W -> bool;
  (** [os.chmod(path, 0o777)], [os.unlink], [os.rmdir], [os.rename] *)
  chmod : string -> SE W unit;
  unlink : string -> SE W unit;
  rmdir : string -> SE W unit;
  rename : string -> string -> SE W unit;
  (** the read-only calls [shutil.rmtree] may hand to its handler, run again *)
  probe : RemoveFunc -> string -> SE W unit;
  (** [shutil.rmtree(path, ignore_errors=True)]: never raises *)
  rmtree_ignore_errors : string -> W -> W;
  (** [shutil.rmtree(path, onerror=handler)] *)
  rmtree : string -> (RemoveFunc -> string -> SE W unit) -> SE W unit;
  (** [_kill_git_processes]: every exception is caught inside it *)
  kill_git_processes : W -> W;
  (** [os.walk(top, topdown=False)]: the (root, dirs, files) triples *)
  walk_bottom_up : string -> W -> list (string * list string * list string)
}.
Arguments path_exists {W} _ _ _.
Arguments isfile {W} _ _ _.
Arguments isdir {W} _ _ _.
Arguments chmod {W} _ _.
Arguments unlink {W} _ _.
Arguments rmdir {W} _ _.
Arguments rename {W} _ _ _.
Arguments probe {W} _ _ _.
Arguments rmtree_ignore_errors {W} _ _ _.
Arguments rmtree {W} _ _ _.
Arguments kill_git_processes {W} _ _.
Arguments walk_bottom_up {W} _ _ _.

Record Deleter : Type := {
  repo_path : string;
  force : bool
}.

(** [os.path.join(root, name)] for a relative, non-empty [name]. *)
Definition os_path_join (root name : string) : string := root +:+ "/" +:+ name.

Section Delete.
Context {W : Type} (fs : FsOps W).

(** [RepositoryDeleter.__init__] with the path already resolved. *)
Definition new_deleter (path : string) (force : bool) (w : W) : Exc Deleter :=
  if negb (path_exists fs path w) then Raise "ValueError"
  else Ret {| repo_path := path; force := force |}.

(** [func(path)] inside the handler. *)
Definition apply_func (func : RemoveFunc) (path : string) : SE W unit :=
  match func with
  | os_rmdir => rmdir fs path
  | os_unlink => unlink fs path
  | _ => probe fs func path
  end.

(** [if os.path.isfile(p): os.unlink(p) elif os.path.isdir(p):
    shutil.rmtree(p, ignore_errors=True)]. *)
Definition force_delete (path : string) : SE W unit :=
  fun w =>
    if isfile fs path w then unlink fs path w
    else if isdir fs path w then (rmtree_ignore_errors fs path w, Ret tt)
    else (w, Ret tt).

(** [RepositoryDeleter._remove_readonly(func, path, _)]. *)
Definition _remove_readonly (d : Deleter) (func : RemoveFunc) (path : string)
  : SE W unit :=
  try_except
    (chmod fs path;;
     try_except (apply_func func path)
       (fun _ =>
          try_except (force_delete path)
            (fun _ =>
               try_except
                 (let temp_path := path +:+ ".deleteme" in
                  rename fs path temp_path;;
                  force_delete temp_path)
                 (fun _ => mret tt))))
    (fun _ =>
       if force d then try_except (force_delete path) (fun _ => mret tt)
       else mret tt).

(** [try: os.chmod(p, 0o777); op(p) except Exception: pass]. *)
Definition chmod_then (op : string -> SE W unit) (p : string) : SE W unit :=
  try_except (chmod fs p;; op p) (fun _ => mret tt).

Fixpoint for_each (f : string -> SE W unit) (l : list string) : SE W unit :=
  match l with
  | [] => mret tt
  | x :: r => f x;; for_each f r
  end.

(** The body of the final [for root, dirs, files in os.walk(...)] loop. *)
Fixpoint walk_delete (triples : list (string * list string * list string))
  : SE W unit :=
  match triples with
  | [] => mret tt
  | (root, dirs, files) :: rest =>
      for_each (fun name => chmod_then (unlink fs) (os_path_join root name)) files;;
      for_each (fun name => chmod_then (rmdir fs) (os_path_join root name)) dirs;;
      walk_delete rest
  end.

Definition se_total (f : W -> W) : SE W unit := fun w => (f w, Ret tt).
Definition se_read {A} (f : W -> A) : SE W A := fun w => (w, Ret (f w)).

(** The two removal attempts on the tree.  [Some b] stands for [return b]
    out of [delete_repository], [None] for going on to the verification. *)
Definition remove_tree (d : Deleter) : SE W (option bool) :=
  try_except
    (rmtree fs (repo_path d) (_remove_readonly d);; mret None)
    (fun _ =>
       try_except
         (triples ← se_read (walk_bottom_up fs (repo_path d));
          walk_delete triples;;
          rmdir fs (repo_path d);;
          mret None)
         (fun _ => mret (Some false))).

(** [RepositoryDeleter.delete_repository]. *)
Definition delete_repository (d : Deleter) : SE W bool :=
  try_except
    (se_total (kill_git_processes fs);;
     let git_dir := os_path_join (repo_path d) ".git" in
     has_git ← se_read (path_exists fs git_dir);
     (if has_git : bool then
        try_except (rmtree fs git_dir (_remove_readonly d)) (fun _ => mret tt)
      else mret tt);;
     r ← remove_tree d;
     match r with
     | Some b => mret b
     | None =>
         still ← se_read (path_exists fs (repo_path d));
         if still : bool then mret false else mret true
     end)
    (fun _ => mret false).

End Delete.

End Deleter.

(** ** repo_delete.py: the archiver and its version ledger *)

Module Archiver.

(** What is on disk at [versions.json]: nothing, a file [json.load] rejects
    with [JSONDecodeError], or a JSON object of counters. *)
Inductive LedgerFile : Type :=
| NoFile
| Unreadable
| Ledger (m : gmap string Z).

(** How [_save_versions] ends: the file is written; [open] raises and the
    file is untouched; or the file was truncated by [open(..., 'w')] and
    [json.dump] raised before finishing. *)
Inductive SaveResult : Type :=
| Saved
| SaveRaisesUntouched
| SaveRaisesTruncated.

(** What one run of the archiver meets, folder by folder. *)
Record RunEnv : Type := {
  (** [(repo_path / folder).exists()] *)
  folder_exists : string -> bool;
  (** whether writing the zip archive of the folder completes *)
  zip_write_ok : string -> bool;
  (** how [_save_versions] ends after that folder's archive was written *)
  save_result : string -> SaveResult;
  (** after a failure, whether [archive_path.exists()] *)
  partial_archive_left : string -> bool;
  (** whether [archive_path.unlink()] succeeds *)
  unlink_ok : string -> bool;
  (** [datetime.now().strftime("%Y%m%d_%H%M%S")] when the folder is archived *)
  timestamp : string -> string
}.

(** The archive directory [Archives/<repo_name>] of one repository. *)
Record Disk : Type := {
  version_file : LedgerFile;
  archive_files : list string
}.

(** A version number handed out by [_get_next_version] and whether the
    archive it named was written and recorded ([_archive_folder] returned
    [True]). *)
Record Assignment : Type := {
  a_folder : string;
  a_version : Z;
  a_success : bool
}.

(** A [RepoArchiver]: the in-memory counters, the disk, and the record of the
    version numbers assigned so far (ghost state). *)
Record AState : Type := {
  versions : gmap string Z;
  disk : Disk;
  assigned : list Assignment
}.

Definition docs_folders : list string :=
  ["API Documentation"; "Classifier"; "Logic Understanding"; "UAT Documentation"].

(** [RepoArchiver._load_versions]. *)
Definition _load_versions (f : LedgerFile) : gmap string Z :=
  match f with
  | Ledger m => m
  | Unreadable => ∅
  | NoFile => ∅
  end.

(** [RepoArchiver._create_archive_name], with the clock reading given. *)
Definition _create_archive_name (folder_name : string) (version : Z) (ts : string) : string :=
  folder_name +:+ "_v" +:+ pretty version +:+ "_" +:+ ts +:+ ".zip".

Section Run.
Variable env : RunEnv.

(** [RepoArchiver._save_versions], called while archiving [folder]. *)
Definition _save_versions (folder : string) : SE AState unit :=
  fun s =>
    let write f :=
      {| versions := versions s;
         disk := {| version_file := f; archive_files := archive_files (disk s) |};
         assigned := assigned s |} in
    match save_result env folder with
    | Saved => (write (Ledger (versions s)), Ret tt)
    | SaveRaisesUntouched => (s, Raise "OSError")
    | SaveRaisesTruncated => (write Unreadable, Raise "OSError")
    end.

(** [RepoArchiver._get_next_version]. *)
Definition _get_next_version (folder_name : string) : SE AState Z :=
  fun s =>
    let current_version := default 0%Z (versions s !! folder_name) in
    let next_version := (current_version + 1)%Z in
    ({| versions := <[folder_name := next_version]> (versions s);
        disk := disk s;
        assigned := assigned s |}, Ret next_version).

(** Writing the zip archive: on success the file is in the archive
    directory; on failure a partial file may be. *)
Definition write_zip (folder archive_name : string) : SE AState unit :=
  fun s =>
    let with_file :=
      {| versions := versions s;
         disk := {| version_file := version_file (disk s);
                    archive_files := archive_files (disk s) ++ [archive_name] |};
         assigned := assigned s |} in
    if zip_write_ok env folder then (with_file, Ret tt)
    else if partial_archive_left env folder then (with_file, Raise "OSError")
    else (s, Raise "OSError").

(** [if archive_path.exists(): archive_path.unlink()]. *)
Definition unlink_if_exists (folder archive_name : string) : SE AState unit :=
  fun s =>
    if bool_decide (archive_name ∈ archive_files (disk s)) then
      if unlink_ok env folder then
        ({| versions := versions s;
            disk := {| version_file := version_file (disk s);
                       archive_files :=
                         filter (fun n => n ≠ archive_name) (archive_files (disk s)) |};
            assigned := assigned s |}, Ret tt)
      else (s, Raise "OSError")
    else (s, Ret tt).

Definition record_assignment (folder : string) (v : Z) (ok : bool) : SE AState unit :=
  se_modify (fun s =>
    {| versions := versions s; disk := disk s;
       assigned := assigned s ++ [Build_Assignment folder v ok] |}).

(** [RepoArchiver._archive_folder]. *)
Definition _archive_folder (folder_name : string) : SE AState bool :=
  if negb (folder_exists env folder_name) then mret false
  else
    version ← _get_next_version folder_name;
    let archive_name :=
      _create_archive_name folder_name version (timestamp env folder_name) in
    try_except
      (write_zip folder_name archive_name;;
       _save_versions folder_name;;
       record_assignment folder_name version true;;
       mret true)
      (fun _ =>
         record_assignment folder_name version false;;
         unlink_if_exists folder_name archive_name;;
         mret false).

(** [RepoArchiver.archive_documentation], over a list of folder names. *)
Fixpoint archive_folders (folders : list string) : SE AState (list string) :=
  match folders with
  | [] => mret []
  | folder :: rest =>
      ok ← _archive_folder folder;
      archived ← archive_folders rest;
      mret (if ok : bool then folder :: archived else archived)
  end.

Definition archive_documentation : SE AState (list string) :=
  archive_folders docs_folders.

(** One run of the archiver on a repository: [RepoArchiver.__init__] loads
    the ledger, then [archive_documentation] runs.  The result is the disk
    and the record of assignments when the run ends (normally or not). *)
Definition run_once (d : Disk) (log : list Assignment) : Disk * list Assignment :=
  let s0 := {| versions := _load_versions (version_file d); disk := d; assigned := log |} in
  let s1 := fst (archive_documentation s0) in
  (disk s1, assigned s1).

End Run.

(** Successive runs on the same repository. *)
Fixpoint run_all (envs : list RunEnv) (d : Disk) (log : list Assignment)
  : Disk * list Assignment :=
  match envs with
  | [] => (d, log)
  | env :: rest =>
      let '(d', log') := run_once env d log in
      run_all rest d' log'
  end.

(** The counter the ledger file holds for a folder ([0] when it holds none). *)
Definition committed (f : LedgerFile) (folder : string) : Z :=
  default 0%Z (_load_versions f !! folder).

End Archiver.

(** ** archive_sender.py: delivery of the documentation package *)

Module Sender.

(** The directory [cwd/temp_archives]: whether it exists and the names of the
    files in it. *)
Record TempDir : Type := {
  dir_present : bool;
  files : gset string
}.

(** How [requests.post] ends. *)
Inductive PostResult : Type :=
| StatusCode (n : nat)
| RequestException
| OtherException.

(** What one call of [send_archives] meets. *)
Record SendEnv : Type := {
  (** [datetime.now().strftime("%Y%m%d_%H%M%S")] *)
  now : string;
  (** [temp_dir.mkdir(exist_ok=True)] succeeds *)
  mkdir_ok : bool;
  (** [zipfile.ZipFile(zip_path, 'w', ...)] can create the file *)
  zip_open_ok : bool;
  (** every [zipf.write(file_path, arcname)] of the walk succeeds *)
  add_archives_ok : bool;
  (** [open(manifest_path, 'w')] creates the file; [json.dump] completes *)
  manifest_open_ok : bool;
  manifest_dump_ok : bool;
  (** [zipf.write(manifest_path, 'manifest.json')], [manifest_path.unlink()] *)
  zip_add_manifest_ok : bool;
  manifest_unlink_ok : bool;
  (** closing the zip file on leaving the [with] block *)
  zip_close_ok : bool;
  (** [open(zip_path, 'rb')] and the POST *)
  open_for_send_ok : bool;
  post_result : PostResult;
  (** [zip_path.unlink()] and [temp_dir.rmdir()] (on an empty directory) *)
  zip_unlink_ok : bool;
  rmdir_ok : bool
}.

(** The temporary directory and the local variable [zip_path] of
    [send_archives]: [None] while unbound, [Some None] when bound to [None]. *)
Record SState : Type := {
  tmp : TempDir;
  local_zip_path : option (option string)
}.

Definition manifest_name : string := "manifest.json".

Section Send.
Variable repo_name : string.
Variable env : SendEnv.

Definition zip_filename : string :=
  repo_name +:+ "_documentation_" +:+ now env +:+ ".zip".

Definition with_tmp (f : TempDir -> TempDir) : SE SState unit :=
  se_modify (fun s => {| tmp := f (tmp s); local_zip_path := local_zip_path s |}).

Definition add_file (name : string) (t : TempDir) : TempDir :=
  {| dir_present := dir_present t; files := {[name]} ∪ files t |}.

Definition remove_file (name : string) (t : TempDir) : TempDir :=
  {| dir_present := dir_present t; files := files t ∖ {[name]} |}.

(** A step that raises [OSError] unless [ok], and then has effect [f]. *)
Definition step (ok : bool) (f : TempDir -> TempDir) : SE SState unit :=
  if ok then with_tmp f else se_raise "OSError".

(** [with zipfile.ZipFile(...) as zipf: body]: the file is closed on the
    way out, also when [body] raised. *)
Definition with_zipfile (body : SE SState unit) : SE SState unit :=
  step (zip_open_ok env) (add_file zip_filename);;
  body;;
  step (zip_close_ok env) id.

(** [ArchiveSender._create_archive_package]. *)
Definition _create_archive_package : SE SState (option string) :=
  try_except
    (step (mkdir_ok env)
       (fun t => {| dir_present := true; files := files t |});;
     with_zipfile
       (step (add_archives_ok env) id;;
        step (manifest_open_ok env) (add_file manifest_name);;
        step (manifest_dump_ok env) id;;
        step (zip_add_manifest_ok env) id;;
        step (manifest_unlink_ok env) (remove_file manifest_name));;
     mret (Some zip_filename))
    (fun _ => mret None).

(** [ArchiveSender._cleanup_temp_files(zip_path)].  With [zip_path = None]
    the first attribute access raises [AttributeError], which the handler
    swallows. *)
Definition unlink_if_exists (name : string) : SE SState unit :=
  fun s =>
    if bool_decide (name ∈ files (tmp s))
    then step (zip_unlink_ok env) (remove_file name) s
    else (s, Ret tt).

(** [if temp_dir.exists(): temp_dir.rmdir()]; [rmdir] raises on a directory
    that is not empty. *)
Definition rmdir_if_exists : SE SState unit :=
  fun s =>
    if dir_present (tmp s) then
      step (rmdir_ok env && bool_decide (files (tmp s) = ∅))
        (fun t => {| dir_present := false; files := files t |}) s
    else (s, Ret tt).

Definition _cleanup_temp_files (zip_path : option string) : SE SState unit :=
  try_except
    (match zip_path with
     | None => se_raise "AttributeError"
     | Some name => unlink_if_exists name;; rmdir_if_exists
     end)
    (fun _ => mret tt).

(** [try: m finally: f]: [f] runs whatever [m] did. *)
Definition try_finally {A} (m : SE SState A) (f : SE SState unit) : SE SState A :=
  fun s =>
    match m s with
    | (s', r) =>
        match f s' with
        | (s'', Ret _) => (s'', r)
        | (s'', Raise e) => (s'', Raise e)
        end
    end.

Definition bind_zip_path (p : option string) : SE SState unit :=
  se_modify (fun s => {| tmp := tmp s; local_zip_path := Some p |}).

(** [if 'zip_path' in locals(): self._cleanup_temp_files(zip_path)]. *)
Definition cleanup_if_bound : SE SState unit :=
  fun s =>
    match local_zip_path s with
    | Some zip_path => _cleanup_temp_files zip_path s
    | None => (s, Ret tt)
    end.

(** [ArchiveSender.send_archives]. *)
Definition send_archives : SE SState bool :=
  try_finally
    (try_except
       (zip_path ← _create_archive_package;
        bind_zip_path zip_path;;
        match zip_path with
        | None => mret false
        | Some _ =>
            step (open_for_send_ok env) id;;
            match post_result env with
            | StatusCode n =>
                if Nat.eqb n 200 then _cleanup_temp_files zip_path;; mret true
                else mret false
            | RequestException => se_raise "RequestException"
            | OtherException => se_raise "Exception"
            end
        end)
       (fun _ => mret false))
    cleanup_if_bound.

Definition fresh_call (t : TempDir) : SState :=
  {| tmp := t; local_zip_path := None |}.

End Send.

End Sender.

(** ** github_repo_cloner.py *)

Module Cloner.

(** *** [urllib.parse.urlparse], as far as the cloner uses it

    The model follows [urlsplit]: scheme, then the network location after
    [//], then fragment, query and (for [urlparse]) the parameters of the last
    path segment.  Left out: the stripping of control characters and the
    checks of the network location that raise [ValueError] (unbalanced
    brackets, NFKC forms). *)

Definition in_range (lo hi : nat) (c : ascii) : bool :=
  (lo <=? nat_of_ascii c)%nat && (nat_of_ascii c <=? hi)%nat.

Definition is_alpha (c : ascii) : bool := in_range 65 90 c || in_range 97 122 c.
Definition is_digit (c : ascii) : bool := in_range 48 57 c.
Definition is_scheme_char (c : ascii) : bool :=
  is_alpha c || is_digit c || Py.char_in c "+-.".

Definition lower_char (c : ascii) : ascii :=
  if in_range 65 90 c then ascii_of_nat (nat_of_ascii c + 32) else c.

Fixpoint lower (s : string) : string :=
  match s with
  | EmptyString => EmptyString
  | String c r => String (lower_char c) (lower r)
  end.

Fixpoint forall_chars (p : ascii -> bool) (s : string) : bool :=
  match s with
  | EmptyString => true
  | String c r => p c && forall_chars p r
  end.

(** [s.split(c, 1)]: the text before the first [c] and, when there is one,
    the text after it. *)
Fixpoint split1 (s : string) (c : ascii) : string * option string :=
  match s with
  | EmptyString => (EmptyString, None)
  | String a r =>
      if Ascii.eqb a c then (EmptyString, Some r)
      else let '(h, t) := split1 r c in (String a h, t)
  end.

(** The longest prefix without a character of [delims], and the rest. *)
Fixpoint span_until (delims : string) (s : string) : string * string :=
  match s with
  | EmptyString => (EmptyString, EmptyString)
  | String a r =>
      if Py.char_in a delims then (EmptyString, s)
      else let '(h, t) := span_until delims r in (String a h, t)
  end.

Definition split_scheme (url : string) : string * string :=
  match split1 url ":" with
  | (String c pre, Some rest) =>
      if is_alpha c && forall_chars is_scheme_char (String c pre)
      then (lower (String c pre), rest)
      else (EmptyString, url)
  | _ => (EmptyString, url)
  end.

Definition split_netloc (url : string) : string * string :=
  match url with
  | String "/" (String "/" r) => span_until "/?#" r
  | _ => (EmptyString, url)
  end.

Definition uses_params : list string :=
  [""; "ftp"; "hdl"; "prospero"; "http"; "imap"; "https"; "shttp"; "rtsp";
   "rtspu"; "sip"; "sips"; "mms"; "sftp"; "tel"].

(** [_splitparams]: cut at the first [;] of the last path segment. *)
Definition split_params (path : string) : string :=
  let parts := Py.split path "/" in
  let last_seg := fst (split1 (Py.last_item parts) ";") in
  Py.join "/" (Py.but_last parts ++ [last_seg]).

Record ParseResult : Type := {
  scheme : string;
  netloc : string;
  path : string
}.

Definition urlparse (url : string) : ParseResult :=
  let '(sch, rest) := split_scheme url in
  let '(loc, rest) := split_netloc rest in
  let rest := fst (split1 rest "#") in
  let rest := fst (split1 rest "?") in
  let p := if bool_decide (sch ∈ uses_params) then split_params rest else rest in
  {| scheme := sch; netloc := loc; path := p |}.

(** *** The cloner *)

(** [GitHubRepoCloner._validate_repo_url]: validity and the error message. *)
Definition _validate_repo_url (url : string) : bool * string :=
  if negb (Py.truthy url) then (false, "Repository URL cannot be empty")
  else
    let parsed := urlparse url in
    if negb (Py.truthy (scheme parsed) && Py.truthy (netloc parsed))
    then (false, "Invalid URL format")
    else if negb (Py.endswith (netloc parsed) "github.com")
    then (false, "URL must be a GitHub repository")
    else
      let path_parts := Py.split (Py.strip (path parsed) "/") "/" in
      if (length path_parts <? 2)%nat then (false, "Invalid repository path")
      else (true, EmptyString).

(** [parts[-2]] on a list of at least two items. *)
Definition last_but_one (parts : list string) : string :=
  Py.last_item (Py.but_last parts).

(** [GitHubRepoCloner._get_repo_info]: owner and repository name. *)
Definition _get_repo_info (repo_url : string) : option string * option string :=
  let repo_url := Py.replace repo_url ".git" "" in
  let parts := Py.split (Py.strip (path (urlparse repo_url)) "/") "/" in
  if (2 <=? length parts)%nat then (Some (last_but_one parts), Some (Py.last_item parts))
  else (None, None).

(** What [clone_repository] needs from outside. *)
Record CloneEnv (W : Type) : Type := {
  (** [self.token] *)
  token : option string;
  (** [_check_repo_access(owner, repo_name)] *)
  check_repo_access : string -> string -> W -> bool;
  (** [target_path.parent.mkdir(parents=True, exist_ok=True)] *)
  mkdir_parents : string -> SE W unit;
  (** [Repo.clone_from(repo_url, str(target_path))] *)
  clone_from : string -> string -> SE W unit
}.
Arguments token {W} _.
Arguments check_repo_access {W} _ _ _ _.
Arguments mkdir_parents {W} _ _.
Arguments clone_from {W} _ _ _.

(** [Path(target_dir) / repo_name], the directory the clone goes to. *)
Definition target_path (target_dir repo_name : string) : string :=
  Processor.path_join target_dir repo_name.

Section Clone.
Context {W : Type} (env : CloneEnv W).

(** The URL handed to git: the token is put in when there is one. *)
Definition with_token (repo_url : string) : string :=
  if Py.truthy_opt (token env) && Py.startswith repo_url "https://"
  then Py.replace repo_url "https://"
         ("https://" +:+ default EmptyString (token env) +:+ "@")
  else repo_url.

(** [GitHubRepoCloner.clone_repository]. *)
Definition clone_repository (repo_url target_dir : string) : SE W bool :=
  if negb (fst (_validate_repo_url repo_url)) then mret false
  else
    match _get_repo_info repo_url with
    | (Some owner, Some repo_name) =>
        if negb (Py.truthy owner && Py.truthy repo_name) then mret false
        else fun w =>
          if negb (check_repo_access env owner repo_name w) then (w, Ret false)
          else
            try_except
              (mkdir_parents env (target_path target_dir repo_name);;
               clone_from env (with_token repo_url) (target_path target_dir repo_name);;
               mret true)
              (fun _ => mret false) w
    | _ => mret false
    end.

End Clone.

End Cloner.

(** ** Definitions used to state the properties *)

(** [wp m Q s]: running [m] from [s] ends in a state and an outcome that
    satisfy [Q].  [SE] computations are total functions, so [wp m Q s] also
    says that [m] returns. *)
Definition wp {S A} (m : SE S A) (Q : S -> Exc A -> Prop) (s : S) : Prop :=
  Q (fst (m s)) (snd (m s)).

Module ProcessorEx.
Import Processor.

(** An environment for examples: every script is present; the scripts named
    in [failing] exit with a non-zero status, those in [raising] cannot be
    started, all others exit with 0. *)
Definition scripted_env (failing raising : list string) : Env unit :=
  {| script_exists := fun _ _ => true;
     subprocess_run := fun name _ w =>
       if bool_decide (name ∈ raising) then (w, SpawnError "OSError")
       else if bool_decide (name ∈ failing) then (w, CalledProcessError)
       else (w, Exit0) |}.

Definition example_job (endpoint : option string) : Job :=
  new_job None "https://github.com/octo/demo.git" "/srv/work" endpoint (Some "REF7").

(** What the specification says of a critical failure, in terms of the final
    state [s] and the result [r], for the stage [st] that failed. *)
Definition halted_at {W} (st : Stage) (s : PState W) (r : Exc bool) : Prop :=
  r = Ret false /\
  status s !! stage_key st = Some "failed" /\
  (forall later, (stage_index st < stage_index later)%nat ->
     status s !! stage_key later = None /\
     attempted (stage_script later) s = false) /\
  (exists before args,
     calls s = before ++ [Build_Call (stage_script st) args (Ret false)]).



(** Requests and configurations for examples. *)
Definition plain_cfg : Config :=
  {| GITHUB_WEBHOOK_SECRET := None; ARCHIVE_WEBHOOK_URL := None; cwd := "/srv/work" |}.

Definition secret_cfg : Config :=
  {| GITHUB_WEBHOOK_SECRET := Some "s3cret"; ARCHIVE_WEBHOOK_URL := None; cwd := "/srv/work" |}.

Definition post (path : string) (signature : option string) : Request :=
  {| method := "POST"; url_path := path; X_Hub_Signature := signature;
     X_Archive_Webhook := None; data := "{}" |}.

(** A digest function for examples (the properties below hold for any). *)
Definition no_hmac (key payload : string) : string := EmptyString.

(** The locator of a request in its normalized form: the reference token
    removed, trailing slashes stripped, [.git] appended when missing. *)
Definition normalized_locator (path : string) : string :=
  clean_url (snd (split_reference path)).

(** The statement of the specification about one request: a normalized
    locator that is not well formed gets a 4xx answer and no job; any other
    gets 202 with the normalized locator, the reference token and "queued". *)
Definition ingress_statement (hmac : string -> string -> string) (cfg : Config)
    (req : Request) (q : list Job) : Prop :=
  let run := github_webhook hmac cfg req q in
  if valid_format (normalized_locator (url_path req)) then
    snd run = Ret {| code := 202;
                     body := QueuedBody "Repository processing queued"
                               (normalized_locator (url_path req))
                               (fst (split_reference (url_path req))) "queued" |}
  else
    fst run = q /\
    exists c b, snd run = Ret {| code := c; body := b |} /\ (400 <= c < 500)%nat.

End ProcessorEx.

Module DeleterEx.
Import Deleter.

(** A handler that always returns. *)
Definition never_raises {W} (h : RemoveFunc -> string -> SE W unit) : Prop :=
  forall func path w, snd (h func path w) = Ret tt.

(** What the deletion relies on from the operating system and the library:
    - an exception out of [shutil.rmtree(p, onerror=h)], with a handler [h]
      that swallows every error, leaves [p] itself in place ([p] is the last
      thing [rmtree] removes, and a missing [p] is reported to the handler);
    - an [os.rmdir(p)] that raises has not removed [p];
    - [os.chmod], [os.unlink] and [os.rmdir] on one path do not change
      whether another path exists;
    - [os.walk(top)] lists directories that are [top] or lie below it. *)
Record FsContract {W} (fs : FsOps W) : Prop := {
  rmtree_raise_keeps : forall p h w e,
    never_raises h ->
    snd (rmtree fs p h w) = Raise e ->
    path_exists fs p (fst (rmtree fs p h w)) = true;
  rmdir_raise_keeps : forall p w e,
    snd (rmdir fs p w) = Raise e ->
    path_exists fs p w = true ->
    path_exists fs p (fst (rmdir fs p w)) = true;
  chmod_frame : forall p q w,
    q <> p -> path_exists fs p (fst (chmod fs q w)) = path_exists fs p w;
  unlink_frame : forall p q w,
    q <> p -> path_exists fs p (fst (unlink fs q w)) = path_exists fs p w;
  rmdir_frame : forall p q w,
    q <> p -> path_exists fs p (fst (rmdir fs q w)) = path_exists fs p w;
  walk_below : forall top w root dirs files,
    In (root, dirs, files) (walk_bottom_up fs top w) ->
    Py.startswith root top = true
}.

(** Computations that do not change whether [p] exists. *)
Definition keeps {W A} (fs : FsOps W) (p : string) (m : SE W A) : Prop :=
  forall w, path_exists fs p (fst (m w)) = path_exists fs p w.

(** A small file system for examples: the world is the set of the paths that
    exist.  [rmtree] gives up with an exception when [stubborn] is set and
    otherwise removes the path and everything below it; [rmdir] and [unlink]
    remove a path that exists. *)
Definition remove_path (p : string) : SE (gset string) unit :=
  fun w =>
    if bool_decide (p ∈ w) then (w ∖ {[p]}, Ret tt)
    else (w, Raise "FileNotFoundError").

Definition toy_fs (stubborn : bool) : FsOps (gset string) :=
  {| path_exists := fun p w => bool_decide (p ∈ w);
     isfile := fun _ _ => false;
     isdir := fun p w => bool_decide (p ∈ w);
     chmod := fun _ w => (w, Ret tt);
     unlink := remove_path;
     rmdir := remove_path;
     rename := fun _ _ w => (w, Raise "PermissionError");
     probe := fun _ _ w => (w, Raise "OSError");
     rmtree_ignore_errors := fun p w => filter (fun q => Py.startswith q p = false) w;
     rmtree := fun p _ w =>
       if stubborn && bool_decide (p ∈ w) then (w, Raise "RecursionError")
       else (filter (fun q => Py.startswith q p = false) w, Ret tt);
     kill_git_processes := fun w => w;
     walk_bottom_up := fun _ _ => [] |}.

Definition demo_deleter : Deleter :=
  {| repo_path := "/srv/work/demo"; force := true |}.

End DeleterEx.

Module ArchiverEx.
Import Archiver.

(** The statement of the specification about the record of assignments: a
    version given to a successfully archived folder is greater than every
    version given to that folder name before, whether that earlier archive
    succeeded or not. *)
Definition above_all_earlier (log : list Assignment) : Prop :=
  forall i j a b,
    (i < j)%nat -> log !! i = Some a -> log !! j = Some b ->
    a_folder a = a_folder b -> a_success b = true ->
    (a_version a < a_version b)%Z.

(** The same, counting only the earlier archives that succeeded. *)
Definition above_earlier_successes (log : list Assignment) : Prop :=
  forall i j a b,
    (i < j)%nat -> log !! i = Some a -> log !! j = Some b ->
    a_folder a = a_folder b -> a_success a = true -> a_success b = true ->
    (a_version a < a_version b)%Z.

(** A run in which no [_save_versions] leaves a truncated ledger file. *)
Definition never_truncates (env : RunEnv) : Prop :=
  forall folder, save_result env folder <> SaveRaisesTruncated.

(** The statement of the specification about a failed bundle write, for one
    run: the value the ledger file holds for the folder is the one it held
    before the run. *)
Definition failed_write_keeps_committed (env : RunEnv) (d : Disk) : Prop :=
  forall folder,
    In folder docs_folders ->
    folder_exists env folder = true ->
    zip_write_ok env folder = false ->
    committed (version_file (fst (run_once env d []))) folder =
    committed (version_file d) folder.

(** Runs for examples: the folders of [present] exist, the archives of the
    folders of [unwritable] cannot be written, everything else works. *)
Definition simple_run (present unwritable : list string) (ts : string) : RunEnv :=
  {| folder_exists := fun f => bool_decide (f ∈ present);
     zip_write_ok := fun f => negb (bool_decide (f ∈ unwritable));
     save_result := fun _ => Saved;
     partial_archive_left := fun _ => true;
     unlink_ok := fun _ => true;
     timestamp := fun _ => ts |}.

(** A run in which the archives are written but saving the ledger stops
    half-way and leaves a file that cannot be parsed. *)
Definition truncating_run (present : list string) (ts : string) : RunEnv :=
  {| folder_exists := fun f => bool_decide (f ∈ present);
     zip_write_ok := fun _ => true;
     save_result := fun _ => SaveRaisesTruncated;
     partial_archive_left := fun _ => true;
     unlink_ok := fun _ => true;
     timestamp := fun _ => ts |}.

Definition empty_disk : Disk := {| version_file := NoFile; archive_files := [] |}.

(** The invariant of a run: the counters in memory are not behind the ledger
    file, the ledger file is not behind any version given to a successful
    archive, and the versions of successful archives increase. *)
Definition ledger_covers (f : LedgerFile) (log : list Assignment) : Prop :=
  forall a, In a log -> a_success a = true ->
    (a_version a <= committed f (a_folder a))%Z.

Definition memory_ahead (s : AState) : Prop :=
  forall folder,
    (committed (version_file (disk s)) folder <= default 0%Z (versions s !! folder))%Z.

Definition run_inv (s : AState) : Prop :=
  memory_ahead s /\
  ledger_covers (version_file (disk s)) (assigned s) /\
  above_earlier_successes (assigned s).

(** The three ways a call of [_archive_folder] can end, as far as the
    counters, the ledger file and the record of assignments go. *)
Inductive archive_effect (env : RunEnv) (folder : string) (s s' : AState)
    (r : Exc bool) : Prop :=
| effect_missing :
    folder_exists env folder = false ->
    s' = s -> r = Ret false ->
    archive_effect env folder s s' r
| effect_archived :
    folder_exists env folder = true ->
    zip_write_ok env folder = true ->
    versions s' = <[folder := (default 0 (versions s !! folder) + 1)%Z]> (versions s) ->
    version_file (disk s') = Ledger (versions s') ->
    assigned s' = assigned s ++
      [Build_Assignment folder (default 0 (versions s !! folder) + 1)%Z true] ->
    r = Ret true ->
    archive_effect env folder s s' r
| effect_failed :
    folder_exists env folder = true ->
    versions s' = <[folder := (default 0 (versions s !! folder) + 1)%Z]> (versions s) ->
    (version_file (disk s') = version_file (disk s) \/
     (zip_write_ok env folder = true /\ save_result env folder = SaveRaisesTruncated /\
      version_file (disk s') = Unreadable)) ->
    assigned s' = assigned s ++
      [Build_Assignment folder (default 0 (versions s !! folder) + 1)%Z false] ->
    r <> Ret true ->
    archive_effect env folder s s' r.

End ArchiverEx.

Module SenderEx.
Import Sender.

(** A call in which everything works and the endpoint answers 200. *)
Definition smooth_send : SendEnv :=
  {| now := "20250101_120000";
     mkdir_ok := true; zip_open_ok := true; add_archives_ok := true;
     manifest_open_ok := true; manifest_dump_ok := true;
     zip_add_manifest_ok := true; manifest_unlink_ok := true; zip_close_ok := true;
     open_for_send_ok := true; post_result := StatusCode 200;
     zip_unlink_ok := true; rmdir_ok := true |}.

(** The same, except that one of the archives cannot be added to the
    package (an unreadable file in the archive directory, say). *)
Definition unreadable_archive : SendEnv :=
  {| now := "20250101_120000";
     mkdir_ok := true; zip_open_ok := true; add_archives_ok := false;
     manifest_open_ok := true; manifest_dump_ok := true;
     zip_add_manifest_ok := true; manifest_unlink_ok := true; zip_close_ok := true;
     open_for_send_ok := true; post_result := StatusCode 200;
     zip_unlink_ok := true; rmdir_ok := true |}.

(** The package cannot take the manifest (the disk is full, say). *)
Definition manifest_not_added : SendEnv :=
  {| now := "20250101_120000";
     mkdir_ok := true; zip_open_ok := true; add_archives_ok := true;
     manifest_open_ok := true; manifest_dump_ok := true;
     zip_add_manifest_ok := false; manifest_unlink_ok := true; zip_close_ok := true;
     open_for_send_ok := true; post_result := StatusCode 200;
     zip_unlink_ok := true; rmdir_ok := true |}.

Definition no_temp_dir : TempDir := {| dir_present := false; files := ∅ |}.

(** Every step of [_create_archive_package] works. *)
Definition package_created (env : SendEnv) : bool :=
  mkdir_ok env && zip_open_ok env && add_archives_ok env &&
  manifest_open_ok env && manifest_dump_ok env &&
  zip_add_manifest_ok env && manifest_unlink_ok env && zip_close_ok env.

End SenderEx.

Module ClonerEx.
Import Cloner.

(** A text without a slash: one path segment. *)
Definition no_slash (s : string) : bool :=
  forall_chars (fun c => negb (Ascii.eqb c "/")) s.

(** The part of [_get_repo_info] that follows the removal of [.git]. *)
Definition info_of_cleaned (cleaned : string) : option string * option string :=
  let parts := Py.split (Py.strip (path (urlparse cleaned)) "/") "/" in
  if (2 <=? length parts)%nat then (Some (last_but_one parts), Some (Py.last_item parts))
  else (None, None).

(** The path segments of a URL as they are. *)
Definition path_segments (url : string) : list string :=
  Py.split (Py.strip (path (urlparse url)) "/") "/".

Definition pages_url : string := "https://github.com/user/user.github.io".

End ClonerEx.

(** ** Further definitions: the pipeline as a whole *)

Module PipelineEx.
Import Processor.

(** The scripts of a job in the order [process_repository] runs them;
    archive_sender.py is among them when a delivery endpoint is configured. *)
Definition pipeline_scripts (j : Job) : list string :=
  ["github_repo_cloner.py"; "file_classifier.py";
   "project_documentation_generator.py"; "uat_documentation_generator.py";
   "api_documentation_generator.py"] ++
  (if Py.truthy_opt (archive_webhook_url j) then ["archive_sender.py"] else []) ++
  ["repo_delete.py"].

(** The pipeline with the API documentation generator left out. *)
Definition without_api (scripts : list string) : list string :=
  List.filter (fun name => negb (String.eqb name "api_documentation_generator.py"))
    scripts.

(** The world keeps a record of the scripts [subprocess.run] was invoked
    for: [log] reads it, and every invocation adds the script at its end.
    (A call of [_run_script] for a script whose file is missing invokes
    nothing.) *)
Definition logs_runs {W} (env : Env W) (log : W -> list string) : Prop :=
  forall name args w, log (fst (subprocess_run env name args w)) = log w ++ [name].

(** Any environment can be made to keep the record: the world is paired
    with it, and the environment runs as before on the first component. *)
Definition recording {W} (env : Env W) : Env (W * list string) :=
  {| script_exists := fun name w => script_exists env name (fst w);
     subprocess_run := fun name args w =>
       ((fst (subprocess_run env name args (fst w)), snd w ++ [name]),
        snd (subprocess_run env name args (fst w))) |}.

(** An environment for examples whose world is that record: the scripts of
    [missing] have no file, those of [failing] exit with a non-zero status,
    all others exit with 0. *)
Definition logging_env (missing failing : list string) : Env (list string) :=
  {| script_exists := fun name _ => negb (bool_decide (name ∈ missing));
     subprocess_run := fun name _ w =>
       (w ++ [name],
        if bool_decide (name ∈ failing) then CalledProcessError else Exit0) |}.

(** The status a stage must have for the stages after it to be reached. *)
Definition passed (st : Stage) (v : option string) : Prop :=
  v = Some "completed" \/
  ((st = DOC_API \/ st = ARCHIVE_SEND) /\ v = Some "skipped").

End PipelineEx.

(** ** A file system whose permissions cannot be changed *)

Module LockedEx.
Import Deleter DeleterEx.

(** The example file system, except that [os.chmod] always fails. *)
Definition locked_fs : FsOps (gset string) :=
  {| path_exists := path_exists (toy_fs false);
     isfile := isfile (toy_fs false);
     isdir := isdir (toy_fs false);
     chmod := fun _ w => (w, Raise "PermissionError");
     unlink := unlink (toy_fs false);
     rmdir := rmdir (toy_fs false);
     rename := rename (toy_fs false);
     probe := probe (toy_fs false);
     rmtree_ignore_errors := rmtree_ignore_errors (toy_fs false);
     rmtree := rmtree (toy_fs false);
     kill_git_processes := kill_git_processes (toy_fs false);
     walk_bottom_up := walk_bottom_up (toy_fs false) |}.

(** A deleter that is not in force mode. *)
Definition careful_deleter : Deleter :=
  {| repo_path := "/srv/work/demo"; force := false |}.

End LockedEx.

(** ** repo_delete.py: the processes that hold the repository

    [psutil] is modelled by its operations on an abstract world.  An
    exception is named by the class a handler matches it against, so that a
    [ZombieProcess] counts as [NoSuchProcess]. *)

Module Procs.

(** A run of the generator [psutil.process_iter(...)]: it ends, it raises,
    or it yields a process (given by its pid) and goes on from the world it
    is resumed in. *)
Inductive Iter (W : Type) : Type :=
| Stop
| Fail (e : string)
| Yield (pid : nat) (rest : W -> Iter W).
Arguments Stop {W}.
Arguments Fail {W} e.
Arguments Yield {W} pid rest.

Record PsOps (W : Type) : Type := {
  (** [psutil.process_iter(['pid', 'name', 'open_files'])] *)
  process_iter : W -> Iter W;
  (** [proc.name()] *)
  proc_name : nat -> SE W string;
  (** the paths of [proc.open_files()] *)
  proc_open_files : nat -> SE W (list string);
  (** [proc.kill()] *)
  proc_kill : nat -> SE W unit;
  (** [psutil.Process(pid)], [proc.is_running()] *)
  Process : nat -> SE W unit;
  proc_is_running : nat -> SE W bool;
  (** [time.sleep(1)] *)
  sleep : W -> W
}.
Arguments process_iter {W} _ _.
Arguments proc_name {W} _ _ _.
Arguments proc_open_files {W} _ _ _.
Arguments proc_kill {W} _ _ _.
Arguments Process {W} _ _ _.
Arguments proc_is_running {W} _ _ _.
Arguments sleep {W} _ _.

(** The world, the local variable [killed_processes] and the record of the
    calls of [proc.kill()] made so far (ghost state). *)
Record KState (W : Type) : Type := {
  kworld : W;
  killed_processes : gset nat;
  kill_calls : list nat
}.
Arguments kworld {W} _.
Arguments killed_processes {W} _.
Arguments kill_calls {W} _.

(** [sub in s] on strings. *)
Fixpoint contains (sub s : string) : bool :=
  Py.has_prefix sub s ||
  match s with
  | EmptyString => false
  | String _ r => contains sub r
  end.

(** [try: m except (C1, C2, ...): h]: exceptions of other classes pass. *)
Definition except_only {S A} (classes : list string) (m : SE S A) (h : SE S A)
  : SE S A :=
  fun s => match m s with
           | (s', Ret a) => (s', Ret a)
           | (s', Raise e) =>
               if bool_decide (e ∈ classes) then h s' else (s', Raise e)
           end.

Definition psutil_errors : list string := ["NoSuchProcess"; "AccessDenied"].

Fixpoint for_list {S A} (body : A -> SE S unit) (l : list A) : SE S unit :=
  match l with
  | [] => mret tt
  | x :: r => body x;; for_list body r
  end.

(** A loop whose body may [return] a value out of the function:
    [None] stands for going on. *)
Fixpoint for_list_until {S A B} (body : A -> SE S (option B)) (l : list A)
  : SE S (option B) :=
  match l with
  | [] => mret None
  | x :: r =>
      o ← body x;
      match o with
      | Some b => mret (Some b)
      | None => for_list_until body r
      end
  end.

Section Kill.
Context {W : Type} (ps : PsOps W).

Definition lift {A} (m : SE W A) : SE (KState W) A :=
  fun s => match m (kworld s) with
           | (w, r) => ({| kworld := w; killed_processes := killed_processes s;
                           kill_calls := kill_calls s |}, r)
           end.

(** [proc.kill()], recorded. *)
Definition kill (pid : nat) : SE (KState W) unit :=
  fun s => match proc_kill ps pid (kworld s) with
           | (w, r) => ({| kworld := w; killed_processes := killed_processes s;
                           kill_calls := kill_calls s ++ [pid] |}, r)
           end.

Definition set_killed (f : gset nat -> gset nat) : SE (KState W) unit :=
  se_modify (fun s => {| kworld := kworld s;
                         killed_processes := f (killed_processes s);
                         kill_calls := kill_calls s |}).

(** [for proc in psutil.process_iter(...): body]. *)
Fixpoint for_processes (it : Iter W) (body : nat -> SE (KState W) unit)
  : SE (KState W) unit :=
  match it with
  | Stop => mret tt
  | Fail e => se_raise e
  | Yield pid rest =>
      body pid;;
      ((fun s => for_processes (rest (kworld s)) body s) : SE (KState W) unit)
  end.

Fixpoint for_processes_until {B} (it : Iter W)
    (body : nat -> SE (KState W) (option B)) : SE (KState W) (option B) :=
  match it with
  | Stop => mret None
  | Fail e => se_raise e
  | Yield pid rest =>
      o ← body pid;
      match o with
      | Some b => mret (Some b)
      | None =>
          (fun s => for_processes_until (rest (kworld s)) body s)
            : SE (KState W) (option B)
      end
  end.

(** The name of the process is asked for again when the message is
    formatted, and then [kill] is called and the pid noted. *)
Definition log_and_kill (pid : nat) : SE (KState W) unit :=
  lift (proc_name ps pid);;
  kill pid;;
  set_killed (fun k => {[pid]} ∪ k).

(** First pass: processes with [git] in their lower-cased name (names are
    taken to be ASCII, as for [lower]). *)
Definition kill_if_git (pid : nat) : SE (KState W) unit :=
  except_only psutil_errors
    (name ← lift (proc_name ps pid);
     if contains "git" (Cloner.lower name) then log_and_kill pid else mret tt)
    (mret tt).

(** Second pass: processes with an open file whose path holds the path of
    the repository. *)
Definition kill_if_locking (repo_path : string) (pid : nat) : SE (KState W) unit :=
  except_only psutil_errors
    (fun s =>
       if bool_decide (pid ∈ killed_processes s) then (s, Ret tt)
       else
         (files ← lift (proc_open_files ps pid);
          for_list (fun path =>
                      if contains repo_path path then log_and_kill pid else mret tt)
                   files) s)
    (mret tt).

(** Final pass: the processes noted as killed that are still running. *)
Definition kill_if_running (pid : nat) : SE (KState W) unit :=
  except_only psutil_errors
    (lift (Process ps pid);;
     running ← lift (proc_is_running ps pid);
     if running : bool then kill pid else mret tt)
    (mret tt).

(** [RepositoryDeleter._kill_git_processes]. *)
Definition _kill_git_processes (d : Deleter.Deleter) : SE (KState W) unit :=
  try_except
    (set_killed (fun _ => ∅);;
     ((fun s => for_processes (process_iter ps (kworld s)) kill_if_git s)
        : SE (KState W) unit);;
     ((fun s => for_processes (process_iter ps (kworld s))
                  (kill_if_locking (Deleter.repo_path d)) s)
        : SE (KState W) unit);;
     lift (fun w => (sleep ps w, Ret tt));;
     ((fun s => for_list kill_if_running (elements (killed_processes s)) s)
        : SE (KState W) unit))
    (fun _ => mret tt).

(** What [_check_process_locks] does for one open file of a process:
    [Some false] stands for [return False]. *)
Definition check_file (d : Deleter.Deleter) (pid : nat) (path : string)
  : SE (KState W) (option bool) :=
  if contains (Deleter.repo_path d) path then
    if negb (Deleter.force d) then
      lift (proc_name ps pid);; mret (Some false)
    else
      lift (proc_name ps pid);; kill pid;; mret None
  else mret None.

(** [RepositoryDeleter._check_process_locks]. *)
Definition _check_process_locks (d : Deleter.Deleter) : SE (KState W) bool :=
  try_except
    (r ← ((fun s =>
             for_processes_until (process_iter ps (kworld s))
               (fun pid =>
                  except_only psutil_errors
                    (files ← lift (proc_open_files ps pid);
                     for_list_until (check_file d pid) files)
                    (mret None)) s)
          : SE (KState W) (option bool));
     match r with
     | Some b => mret b
     | None => mret true
     end)
    (fun _ => mret false).

Definition fresh (w : W) : KState W :=
  {| kworld := w; killed_processes := ∅; kill_calls := [] |}.

End Kill.

(** A process table that does not change under the eyes of the caller:
    whenever the name or the open files of a process are reported, they are
    the ones the table holds. *)
Definition stable_table {W} (ps : PsOps W)
    (name_of : nat -> string) (files_of : nat -> list string) : Prop :=
  (forall pid w name, snd (proc_name ps pid w) = Ret name -> name = name_of pid) /\
  (forall pid w files, snd (proc_open_files ps pid w) = Ret files -> files = files_of pid).

(** A process the deleter has a reason to kill. *)
Definition is_git_or_locking (d : Deleter.Deleter)
    (name_of : nat -> string) (files_of : nat -> list string) (pid : nat) : bool :=
  contains "git" (Cloner.lower (name_of pid)) ||
  existsb (contains (Deleter.repo_path d)) (files_of pid).

(** Every process killed or noted as killed so far is a git process or
    holds a file of the repository. *)
Definition justified {W} (d : Deleter.Deleter)
    (name_of : nat -> string) (files_of : nat -> list string) (s : KState W) : Prop :=
  forall pid, In pid (kill_calls s) \/ pid ∈ killed_processes s ->
    is_git_or_locking d name_of files_of pid = true.

(** A process table for examples, over the set of the pids that are alive:
    101 is a git process, 202 holds a lock file of the repository, 303 has
    nothing to do with it and 404 cannot be inspected. *)
Definition toy_name (pid : nat) : string :=
  if Nat.eqb pid 101 then "Git-Remote-Https"
  else if Nat.eqb pid 202 then "python3"
  else "bash".

Definition toy_files (pid : nat) : list string :=
  if Nat.eqb pid 202 then ["/srv/work/demo/.git/index.lock"]
  else if Nat.eqb pid 303 then ["/home/dev/notes.txt"]
  else [].

Fixpoint iter_of_list {W} (alive : nat -> W -> bool) (pids : list nat) (w : W) : Iter W :=
  match pids with
  | [] => Stop
  | pid :: rest =>
      if alive pid w then Yield pid (iter_of_list alive rest)
      else iter_of_list alive rest w
  end.

Definition if_alive {A} (pid : nat) (a : A) : SE (gset nat) A :=
  fun w => if bool_decide (pid ∈ w) then
             if Nat.eqb pid 404 then (w, Raise "AccessDenied") else (w, Ret a)
           else (w, Raise "NoSuchProcess").

Definition toy_ps : PsOps (gset nat) :=
  {| process_iter := iter_of_list (fun pid w => bool_decide (pid ∈ w)) [101; 202; 303; 404];
     proc_name := fun pid => if_alive pid (toy_name pid);
     proc_open_files := fun pid => if_alive pid (toy_files pid);
     proc_kill := fun pid w =>
       match if_alive pid tt w with
       | (_, Ret _) => (w ∖ {[pid]}, Ret tt)
       | r => r
       end;
     Process := fun pid w =>
       if bool_decide (pid ∈ w) then (w, Ret tt) else (w, Raise "NoSuchProcess");
     proc_is_running := fun pid w => (w, Ret (bool_decide (pid ∈ w)));
     sleep := fun w => w |}.

Definition toy_world : gset nat := {[101; 202; 303; 404]}.

End Procs.

(** ** The archiver: what a run archives *)

Module LedgerEx.
Import Archiver.

(** The folder exists, its archive can be written and the ledger can be
    saved after it. *)
Definition archivable (env : RunEnv) (folder : string) : bool :=
  folder_exists env folder && zip_write_ok env folder &&
  match save_result env folder with
  | Saved => true
  | _ => false
  end.

(** The counter a [RepoArchiver] holds in memory for a folder. *)
Definition counter (s : AState) (folder : string) : Z :=
  default 0%Z (versions s !! folder).

(** The name of the archive a call of [_archive_folder] writes for a
    folder, from the state the call starts in. *)
Definition next_archive_name (env : RunEnv) (folder : string) (s : AState) : string :=
  _create_archive_name folder (counter s folder + 1) (timestamp env folder).

(** The state a [RepoArchiver] starts in on a disk. *)
Definition loaded (d : Disk) (log : list Assignment) : AState :=
  {| versions := _load_versions (version_file d); disk := d; assigned := log |}.

End LedgerEx.

(** ** The sender: when a delivery counts as made *)

Module DeliveryEx.
Import Sender SenderEx.

(** The package was built, it could be opened for sending and the endpoint
    answered 200. *)
Definition delivered (env : SendEnv) : bool :=
  package_created env && open_for_send_ok env &&
  match post_result env with
  | StatusCode n => Nat.eqb n 200
  | _ => false
  end.

(** A temporary directory that holds a file of somebody else. *)
Definition shared_temp_dir : TempDir :=
  {| dir_present := true; files := {["notes.txt"]} |}.

(** The file [x] of somebody else is where it was in [t0], the directory
    that holds it is still there, and [zip_path] is unbound, [None] or the
    path of the package. *)
Definition foreign_kept (repo_name : string) (env : SendEnv) (t0 : TempDir)
    (x : string) (s : SState) : Prop :=
  (x ∈ files (tmp s) <-> x ∈ files t0) /\
  (x ∈ files t0 -> dir_present t0 = true -> dir_present (tmp s) = true) /\
  (local_zip_path s = None \/ local_zip_path s = Some None \/
   local_zip_path s = Some (Some (zip_filename repo_name env))).

(** Changes of the directory that leave [x] alone and do not remove the
    directory. *)
Definition harmless (x : string) (f : TempDir -> TempDir) : Prop :=
  forall t, (x ∈ files (f t) <-> x ∈ files t) /\
            (dir_present t = true -> dir_present (f t) = true).

End DeliveryEx.

(** ** Repository URLs of the usual form *)

Module NamesEx.
Import Cloner.

(** The characters of the owner and repository names GitHub hands out:
    letters, digits, [-], [_] and [.]. *)
Definition name_char (c : ascii) : bool :=
  is_alpha c || is_digit c || Py.char_in c "-_.".

Definition plain (s : string) : bool := forall_chars name_char s.

Definition github_url (owner name : string) : string :=
  "https://github.com/" +:+ owner +:+ "/" +:+ name +:+ ".git".

(** Texts without any of [? # ;]: paths without query, fragment or
    parameters. *)
Definition quiet (s : string) : bool :=
  forall_chars (fun c => negb (Py.char_in c "?#;")) s.

End NamesEx.

(** * Properties *)

(** ** Strings *)

Module StringFacts.

Example rstrip_ex : Py.rstrip "https://github.com/u/r//" "/" = "https://github.com/u/r".
Proof. reflexivity. Qed.

Example split_ex : Py.split "a//b/" "/" = ["a"; ""; "b"; ""].
Proof. reflexivity. Qed.

Example replace_ex : Py.replace "user.github.io.git" ".git" "" = "userhub.io".
Proof. reflexivity. Qed.

Example endswith_ex :
  Py.endswith "repo.git" ".git" = true /\ Py.endswith "repo.gitx" ".git" = false.
Proof. split; reflexivity. Qed.

Lemma app_cons (c : ascii) (s r : string) : String c s +:+ r = String c (s +:+ r).
Proof. reflexivity. Qed.

Lemma app_nil_l (r : string) : EmptyString +:+ r = r.
Proof. reflexivity. Qed.

Lemma length_app (a b : string) :
  String.length (a +:+ b) = (String.length a + String.length b)%nat.
Proof.
  induction a as [|c a IH]; [reflexivity|].
  change (S (String.length (a +:+ b)) = S (String.length a + String.length b)).
  rewrite IH. reflexivity.
Qed.

Lemma prefix_length (p s : string) :
  Py.has_prefix p s = true -> (String.length p <= String.length s)%nat.
Proof.
  revert s; induction p as [|a p IH]; intros [|b s] H; cbn in *;
    try lia; try discriminate H.
  apply andb_prop in H as [_ H]. apply IH in H. lia.
Qed.

Lemma prefix_app (p s r : string) :
  Py.has_prefix p s = true -> Py.has_prefix p (s +:+ r) = true.
Proof.
  revert s; induction p as [|a p IH]; intros s H; [reflexivity|].
  destruct s as [|b s]; [discriminate H|].
  change (String b s +:+ r) with (String b (s +:+ r)).
  cbn [Py.has_prefix] in *.
  apply andb_prop in H as [Hab H]. rewrite Hab. apply IH, H.
Qed.

(** An occurrence of [.git] cannot start in [s] and end in a [.git] that
    follows [s]: the only dot of [.git] is its first character. *)
Lemma dot_git_no_straddle (s r : string) :
  s <> EmptyString ->
  Py.has_prefix ".git" (s +:+ ".git" +:+ r) = true ->
  Py.has_prefix ".git" s = true.
Proof.
  intros Hne.
  destruct s as [|c1 [|c2 [|c3 [|c4 s]]]]; [contradiction| | | |];
    rewrite ?app_cons, ?app_nil_l; cbn [Py.has_prefix];
    repeat match goal with
           | |- context [Ascii.eqb ?a ?b] =>
               first [ is_var b; destruct (Ascii.eqb a b)
                     | let v := eval vm_compute in (Ascii.eqb a b) in
                       change (Ascii.eqb a b) with v ];
               cbn [andb Py.has_prefix]
           end;
    intros H; first [exact H | discriminate H | reflexivity].
Qed.

(** [replace(".git", "")] works through a text piece by piece: what it does
    before an occurrence does not depend on what follows it. *)
Lemma replace_from_dot_git_app (s r : string) : forall k,
  (k <= String.length s)%nat ->
  Py.replace_from ".git" "" k (s +:+ ".git" +:+ r) =
  Py.replace_from ".git" "" k s +:+ Py.replace_from ".git" "" 0 r.
Proof.
  induction s as [|c s IH]; intros k Hk.
  - cbn in Hk. assert (k = 0%nat) as -> by lia. reflexivity.
  - change (String c s +:+ ".git" +:+ r) with (String c (s +:+ ".git" +:+ r)).
    destruct k as [|k].
    + cbn [Py.replace_from].
      destruct (Py.has_prefix ".git" (String c s)) eqn:Hpre.
      * pose proof (prefix_app ".git" (String c s) (".git" +:+ r) Hpre) as Hpre'.
        change (String c s +:+ ".git" +:+ r) with (String c (s +:+ ".git" +:+ r)) in Hpre'.
        rewrite Hpre'.
        apply prefix_length in Hpre. cbn in Hpre.
        cbn [String.length Nat.sub]. rewrite app_nil_l. apply IH. lia.
      * destruct (Py.has_prefix ".git" (String c (s +:+ ".git" +:+ r))) eqn:Hpre'.
        -- apply (dot_git_no_straddle (String c s) r) in Hpre'; [congruence | discriminate].
        -- rewrite (app_cons c (Py.replace_from ".git" "" 0 s)). f_equal. apply IH. lia.
    + cbn [Py.replace_from]. apply IH. cbn in Hk. lia.
Qed.

Lemma replace_dot_git_app (s r : string) :
  Py.replace (s +:+ ".git" +:+ r) ".git" "" =
  Py.replace s ".git" "" +:+ Py.replace r ".git" "".
Proof. apply replace_from_dot_git_app. lia. Qed.

End StringFacts.


(** ** Rules for [wp] *)

Section WP.
Context {S : Type}.

Lemma wp_ret {A} (a : A) (Q : S -> Exc A -> Prop) s :
  Q s (Ret a) -> wp (mret a) Q s.
Proof. exact (fun H => H). Qed.

Lemma wp_raise {A} e (Q : S -> Exc A -> Prop) s :
  Q s (Raise e) -> wp (se_raise e) Q s.
Proof. exact (fun H => H). Qed.

Lemma wp_modify f (Q : S -> Exc unit -> Prop) s :
  Q (f s) (Ret tt) -> wp (se_modify f) Q s.
Proof. exact (fun H => H). Qed.

Lemma wp_bind {A B} (m : SE S A) (k : A -> SE S B) (Q : S -> Exc B -> Prop) s :
  wp m (fun s' r => match r with
                    | Ret a => wp (k a) Q s'
                    | Raise e => Q s' (Raise e)
                    end) s ->
  wp (m ≫= k) Q s.
Proof.
  unfold wp, mbind, se_mbind, se_bind.
  destruct (m s) as [s' [a|e]]; exact (fun H => H).
Qed.

Lemma wp_try {A} (m : SE S A) (h : string -> SE S A) (Q : S -> Exc A -> Prop) s :
  wp m (fun s' r => match r with
                    | Ret a => Q s' (Ret a)
                    | Raise e => wp (h e) Q s'
                    end) s ->
  wp (try_except m h) Q s.
Proof.
  unfold wp, try_except.
  destruct (m s) as [s' [a|e]]; exact (fun H => H).
Qed.

Lemma wp_elim {A} (m : SE S A) (Q : S -> Exc A -> Prop) s :
  wp m Q s -> Q (fst (m s)) (snd (m s)).
Proof. exact (fun H => H). Qed.

(** When nothing is to be known about what [m] does. *)
Lemma wp_any {A} (m : SE S A) (Q : S -> Exc A -> Prop) s :
  (forall s' r, Q s' r) -> wp m Q s.
Proof. intros H. apply H. Qed.

Lemma wp_mono {A} (m : SE S A) (Q Q' : S -> Exc A -> Prop) s :
  (forall s' r, Q s' r -> Q' s' r) -> wp m Q s -> wp m Q' s.
Proof. unfold wp; auto. Qed.

End WP.

(** ** The stage state machine *)

Module ProcessorSpec.
Import Processor ProcessorEx.

Section Rules.
Context {W : Type} (env : Env W).

(** Whatever the environment does, a call of [_run_script] records the
    call with its outcome and changes nothing else but the world. *)
Lemma wp_run_script name args (Q : PState W -> Exc bool -> Prop) s :
  (forall w r, Q (record_call w (Build_Call name args r) s) r) ->
  wp (_run_script env name args) Q s.
Proof.
  intros H. unfold wp, _run_script.
  destruct (script_exists env name (world s)); cbn [negb]; [|apply H].
  destruct (subprocess_run env name args (world s)) as [w []]; apply H.
Qed.

Lemma wp_set_status k v (Q : PState W -> Exc unit -> Prop) s :
  Q {| status := <[k := v]> (status s); started := started s;
       ended := ended s; world := world s; calls := calls s |} (Ret tt) ->
  wp (set_status k v) Q s.
Proof. exact (fun H => H). Qed.
End Rules.

(** One step of symbolic execution. *)
Ltac wp_step :=
  lazymatch goal with
  | |- wp (mret _) _ _ => apply wp_ret
  | |- wp (_ ≫= _) _ _ => apply wp_bind
  | |- wp (try_except _ _) _ _ => apply wp_try
  | |- wp (_run_script _ _ _) _ _ =>
      apply wp_run_script; intros ? [[|]|?]
  | |- wp (set_status _ _) _ _ => apply wp_set_status
  | |- wp set_started _ _ => apply wp_modify
  | |- wp set_ended _ _ => apply wp_modify
  | |- wp (if negb true then _ else _) _ _ => cbn [negb]
  | |- wp (if negb false then _ else _) _ _ => cbn [negb]
  | |- wp (stage_api_docs _ _) _ _ => unfold stage_api_docs
  | |- wp (stage_delete _ _) _ _ => unfold stage_delete
  | |- wp (stage_archive_send _ ?j) _ _ =>
      unfold stage_archive_send;
      destruct (Py.truthy_opt (archive_webhook_url j)) eqn:?
  | |- wp (match ?r with Some _ => _ | None => _ end) _ _ => cbv beta iota
  end.

Ltac run_pipeline :=
  unfold process_repository;
  repeat (wp_step;
          cbv beta iota delta [status started ended world calls record_call init_state]).

(** C1.  For every job, the DELETE stage is attempted exactly when
    ARCHIVE_SEND ended as completed or as skipped; ARCHIVE_SEND ends as
    skipped exactly when the stage was reached with no delivery endpoint
    configured; and DELETE is never attempted when ARCHIVE_SEND is failed. *)
Theorem delete_iff_archive_send_done {W} (env : Env W) (j : Job) (w : W) :
  let s := fst (process_repository env j (init_state w)) in
  (attempted "repo_delete.py" s = true <->
     status s !! "archive_send" = Some "completed" \/
     status s !! "archive_send" = Some "skipped") /\
  (status s !! "archive_send" = Some "skipped" <->
     Py.truthy_opt (archive_webhook_url j) = false /\
     status s !! "api_docs" <> None) /\
  (status s !! "archive_send" = Some "failed" ->
     attempted "repo_delete.py" s = false).
Proof.
  refine (wp_elim (process_repository env j)
            (fun s _ =>
               (attempted "repo_delete.py" s = true <->
                  status s !! "archive_send" = Some "completed" \/
                  status s !! "archive_send" = Some "skipped") /\
               (status s !! "archive_send" = Some "skipped" <->
                  Py.truthy_opt (archive_webhook_url j) = false /\
                  status s !! "api_docs" <> None) /\
               (status s !! "archive_send" = Some "failed" ->
                  attempted "repo_delete.py" s = false))
            (init_state w) _).
  run_pipeline; vm_compute; intuition congruence.
Qed.

(** The failure of a critical stage (CLONE, CLASSIFY, DOC_PROJECT or
    DOC_UAT) by a call of [_run_script] that returns [False]:
    [process_repository] returns [False]; the status dictionary holds
    [failed] for that stage and no entry for any later stage (a stage that
    was never started has no entry: this is how the code keeps a stage
    pending); no later stage is run, so repo_delete.py never runs and the
    working tree stays; the failing call is the last thing the job did. *)
Theorem critical_failure_halts {W} (env : Env W) (j : Job) (w : W) (st : Stage) :
  critical_early st = true ->
  returned (stage_script st) false (fst (process_repository env j (init_state w))) = true ->
  halted_at st (fst (process_repository env j (init_state w)))
               (snd (process_repository env j (init_state w))).
Proof.
  intros Hcrit.
  refine (wp_elim (process_repository env j)
            (fun s r => returned (stage_script st) false s = true -> halted_at st s r)
            (init_state w) _).
  destruct st; try discriminate Hcrit; clear Hcrit;
    unfold halted_at; cbn [stage_script stage_key stage_index];
    run_pipeline;
    intros Hfail; try (vm_compute in Hfail; discriminate Hfail); clear Hfail;
    (split; [reflexivity|]); (split; [vm_compute; reflexivity|]);
    (split; [intros [] Hlt; cbn [stage_index] in Hlt; try lia;
             split; vm_compute; reflexivity
            | eexists _, _; reflexivity]).
Qed.

Lemma critical_failure_halts_witness :
  returned (stage_script CLASSIFY) false
    (fst (process_repository (scripted_env ["file_classifier.py"] []) (example_job None)
            (init_state tt))) = true /\
  halted_at CLASSIFY
    (fst (process_repository (scripted_env ["file_classifier.py"] []) (example_job None)
            (init_state tt)))
    (snd (process_repository (scripted_env ["file_classifier.py"] []) (example_job None)
            (init_state tt))).
Proof.
  split; [vm_compute; reflexivity|].
  apply (critical_failure_halts (scripted_env ["file_classifier.py"] []) (example_job None) tt CLASSIFY);
    vm_compute; reflexivity.
Defined.

(** When [_run_script] raises in a critical stage instead of returning
    [False], the job stops and returns [False] as well, but the stage gets no
    status: only a returned [False] is recorded as failed. *)
Lemma critical_raise_stops {W} (env : Env W) (j : Job) (w : W) (st : Stage) :
  critical_early st = true ->
  raised (stage_script st) (fst (process_repository env j (init_state w))) = true ->
  snd (process_repository env j (init_state w)) = Ret false /\
  forall later, (stage_index st <= stage_index later)%nat ->
    status (fst (process_repository env j (init_state w))) !! stage_key later = None.
Proof.
  intros Hcrit.
  refine (wp_elim (process_repository env j)
            (fun s r => raised (stage_script st) s = true ->
               r = Ret false /\
               forall later, (stage_index st <= stage_index later)%nat ->
                 status s !! stage_key later = None)
            (init_state w) _).
  destruct st; try discriminate Hcrit; clear Hcrit;
    cbn [stage_script stage_key stage_index];
    run_pipeline;
    intros Hraise; try (vm_compute in Hraise; discriminate Hraise); clear Hraise;
    (split; [reflexivity|]);
    intros [] Hle; cbn [stage_index] in Hle; try lia; vm_compute; reflexivity.
Qed.




(** C7.  When the DOC_API executor fails or raises, the stage is recorded as
    skipped (so never as failed); ARCHIVE_SEND is reached: its status is
    settled, and its script is run when an endpoint is configured; and the
    job still succeeds exactly when repo_delete.py returns [True]. *)
Theorem api_docs_failure_is_skipped {W} (env : Env W) (j : Job) (w : W) :
  failed_or_raised "api_documentation_generator.py"
    (fst (process_repository env j (init_state w))) = true ->
  let s := fst (process_repository env j (init_state w)) in
  let r := snd (process_repository env j (init_state w)) in
  status s !! "api_docs" = Some "skipped" /\
  status s !! "archive_send" <> None /\
  (Py.truthy_opt (archive_webhook_url j) = true -> attempted "archive_sender.py" s = true) /\
  (r = Ret true <-> returned "repo_delete.py" true s = true).
Proof.
  refine (wp_elim (process_repository env j)
            (fun s r =>
               failed_or_raised "api_documentation_generator.py" s = true ->
               status s !! "api_docs" = Some "skipped" /\
               status s !! "archive_send" <> None /\
               (Py.truthy_opt (archive_webhook_url j) = true ->
                  attempted "archive_sender.py" s = true) /\
               (r = Ret true <-> returned "repo_delete.py" true s = true))
            (init_state w) _).
  run_pipeline;
    intros Hfail; try (vm_compute in Hfail; discriminate Hfail); clear Hfail;
    vm_compute; intuition congruence.
Qed.

(** The scenario of the specification: the DOC_API executor raises and no
    endpoint is configured. *)
Lemma api_docs_failure_witness :
  let run := process_repository (scripted_env [] ["api_documentation_generator.py"])
               (example_job None) (init_state tt) in
  failed_or_raised "api_documentation_generator.py" (fst run) = true /\
  (status (fst run) !! "api_docs" = Some "skipped" /\
   status (fst run) !! "archive_send" <> None /\
   (Py.truthy_opt (archive_webhook_url (example_job None)) = true ->
      attempted "archive_sender.py" (fst run) = true) /\
   (snd run = Ret true <-> returned "repo_delete.py" true (fst run) = true)).
Proof.
  split; [vm_compute; reflexivity|].
  apply (api_docs_failure_is_skipped
           (scripted_env [] ["api_documentation_generator.py"]) (example_job None) tt).
  vm_compute; reflexivity.
Defined.

(** The same scenario, evaluated: DOC_API skipped, ARCHIVE_SEND skipped,
    DELETE completed, overall success. *)
Example doc_api_raises_no_endpoint :
  let run := process_repository (scripted_env [] ["api_documentation_generator.py"])
               (example_job None) (init_state tt) in
  snd run = Ret true /\
  status (fst run) !! "api_docs" = Some "skipped" /\
  status (fst run) !! "archive_send" = Some "skipped" /\
  status (fst run) !! "delete" = Some "completed".
Proof. vm_compute. repeat split. Qed.

(** The scenario of a failed delivery: ARCHIVE_SEND failed, DELETE without a
    status, repo_delete.py not run, overall failure. *)
Example delivery_fails_with_endpoint :
  let run := process_repository (scripted_env ["archive_sender.py"] [])
               (example_job (Some "https://hooks.example/in")) (init_state tt) in
  snd run = Ret false /\
  status (fst run) !! "archive_send" = Some "failed" /\
  status (fst run) !! "delete" = None /\
  attempted "repo_delete.py" (fst run) = false.
Proof. vm_compute. repeat split. Qed.

End ProcessorSpec.

(** ** The webhook endpoint *)

Module WebhookSpec.
Import Processor ProcessorEx.

Section Ingress.
Variable hmac : string -> string -> string.
Variable cfg : Config.

(** Called with two positional arguments, the three-parameter function
    [_verify_github_signature] raises before its body runs. *)
Lemma verify_call_raises payload signature :
  call3 (_verify_github_signature hmac cfg) [payload; signature] = Raise "TypeError".
Proof. reflexivity. Qed.

(** Called properly, it compares the digests when a secret is configured
    and an ASCII signature is given. *)
Lemma verify_compares self p sg key :
  GITHUB_WEBHOOK_SECRET cfg = Some key -> Py.truthy key = true -> Py.truthy sg = true ->
  Py.is_ascii sg = true ->
  _verify_github_signature hmac cfg self (VBytes p) (VStr sg) =
    Ret (String.eqb ("sha1=" +:+ hmac key p) sg).
Proof.
  intros Hkey Hk Hsg Hascii. unfold _verify_github_signature.
  rewrite Hkey. cbn [Py.truthy_opt val_truthy default]. rewrite Hk, Hsg, Hascii.
  reflexivity.
Qed.

(** Whenever a secret is configured and the request carries a signature,
    valid or not, the handler ends in its [except] branch: 500 and nothing
    queued. *)
Lemma signed_request_fails req q :
  method req = "POST" ->
  Py.truthy_opt (GITHUB_WEBHOOK_SECRET cfg) = true ->
  Py.truthy_opt (X_Hub_Signature req) = true ->
  github_webhook hmac cfg req q =
    (q, Ret {| code := 500; body := ErrorBody "TypeError" None |}).
Proof.
  intros Hm Hs Hsig. unfold github_webhook.
  rewrite Hm, Hs, Hsig. reflexivity.
Qed.
End Ingress.

(** C2.  With a secret configured, a POST for a well-formed locator that
    carries an [X-Hub-Signature] header is answered with 500 and no job is
    queued: the call of [_verify_github_signature] raises [TypeError]. *)
Theorem signed_request_gets_500 :
  github_webhook no_hmac secret_cfg
    (post "https://github.com/octo/demo.git" (Some "sha1=0000")) [] =
  ([], Ret {| code := 500; body := ErrorBody "TypeError" None |}).
Proof. reflexivity. Qed.

(** C9, as the specification states it, fails: the locator
    [https://github.com/] passes the format check, is then normalized to
    [https://github.com.git], which does not have the required prefix, and
    the request is queued and answered with 202. *)
Lemma root_locator_is_queued :
  ~ ingress_statement no_hmac plain_cfg (post "https://github.com/" None) [].
Proof.
  unfold ingress_statement. vm_compute.
  intros [Hq _]. discriminate Hq.
Qed.

(** C9, amended.  For a POST on which signature verification is not run (no
    secret, or no signature header), the answer is decided by the locator
    that is left once the reference token is split off, before it is
    normalized: if it starts with [https://github.com/] or
    [http://github.com/], one job is queued and the answer is 202 with the
    normalized locator, the reference token and "queued"; otherwise nothing
    is queued and the answer is 400. *)
Theorem webhook_accepts_by_prefix (hmac : string -> string -> string)
    (cfg : Config) (req : Request) (q : list Job) :
  method req = "POST" ->
  Py.truthy_opt (GITHUB_WEBHOOK_SECRET cfg) && Py.truthy_opt (X_Hub_Signature req) = false ->
  let reference_id := fst (split_reference (url_path req)) in
  let locator := snd (split_reference (url_path req)) in
  github_webhook hmac cfg req q =
    if valid_format locator then
      (q ++ [new_job (ARCHIVE_WEBHOOK_URL cfg) (clean_url locator) (cwd cfg)
               (Py.or_else (ARCHIVE_WEBHOOK_URL cfg) (X_Archive_Webhook req))
               reference_id],
       Ret {| code := 202;
              body := QueuedBody "Repository processing queued" (clean_url locator)
                        reference_id "queued" |})
    else
      (q, Ret {| code := 400;
                 body := ErrorBody "Invalid GitHub URL format"
                   (Some "URL must start with https://github.com/ or http://github.com/") |}).
Proof.
  intros Hm Hsig reference_id locator. subst reference_id locator.
  unfold github_webhook. rewrite Hm, Hsig.
  destruct (split_reference (url_path req)) as [ref loc]. cbn [fst snd].
  unfold mbind, se_mbind, se_bind, try_except, mret, se_mret, se_ret, queue_put, se_modify.
  cbn [String.eqb Ascii.eqb Bool.eqb negb].
  destruct (valid_format loc); reflexivity.
Qed.

Lemma webhook_accepts_by_prefix_witness :
  method (post "https://github.com/octo/demo/REF7" None) = "POST" /\
  Py.truthy_opt (GITHUB_WEBHOOK_SECRET plain_cfg) &&
    Py.truthy_opt (X_Hub_Signature (post "https://github.com/octo/demo/REF7" None)) = false /\
  github_webhook no_hmac plain_cfg (post "https://github.com/octo/demo/REF7" None) [] =
    ([new_job None "https://github.com/octo/demo.git" "/srv/work" None (Some "REF7")],
     Ret {| code := 202;
            body := QueuedBody "Repository processing queued"
                      "https://github.com/octo/demo.git" (Some "REF7") "queued" |}).
Proof.
  split; [reflexivity|]. split; [reflexivity|].
  exact (webhook_accepts_by_prefix no_hmac plain_cfg
           (post "https://github.com/octo/demo/REF7" None) [] eq_refl eq_refl).
Defined.

(** Locators without the prefix are refused, whatever follows. *)
Example other_host_is_refused :
  github_webhook no_hmac plain_cfg (post "https://gitlab.com/octo/demo.git" None) [] =
    ([], Ret {| code := 400;
                body := ErrorBody "Invalid GitHub URL format"
                  (Some "URL must start with https://github.com/ or http://github.com/") |}).
Proof. reflexivity. Qed.

(** The check is on the prefix only: a locator with an owner and no
    repository is queued, although the cloner's own validation refuses the
    URL that is queued. *)
Example owner_only_locator_is_queued :
  snd (github_webhook no_hmac plain_cfg (post "https://github.com/octo/" None) []) =
    Ret {| code := 202;
           body := QueuedBody "Repository processing queued"
                     "https://github.com/octo.git" (Some "") "queued" |} /\
  Cloner._validate_repo_url "https://github.com/octo.git" = (false, "Invalid repository path").
Proof. vm_compute. split; reflexivity. Qed.

(** The documented ambiguity: without a trailing [.git] the last segment of
    the locator is taken for a reference token. *)
Example last_segment_taken_for_token :
  snd (github_webhook no_hmac plain_cfg (post "https://github.com/octo/demo" None) []) =
    Ret {| code := 202;
           body := QueuedBody "Repository processing queued"
                     "https://github.com/octo.git" (Some "demo") "queued" |}.
Proof. reflexivity. Qed.

End WebhookSpec.

(** ** Forceful deletion *)

Module DeleterSpec.
Import Deleter DeleterEx.

Section Deletion.
Context {W : Type} (fs : FsOps W).

Lemma force_delete_cases path w :
  force_delete fs path w = unlink fs path w \/
  snd (force_delete fs path w) = Ret tt.
Proof.
  unfold force_delete.
  destruct (isfile fs path w); [left; reflexivity|].
  destruct (isdir fs path w); right; reflexivity.
Qed.

(** The error handler swallows every exception. *)
Lemma remove_readonly_never_raises d : never_raises (_remove_readonly fs d).
Proof.
  intros func path w.
  unfold _remove_readonly, try_except, mbind, se_mbind, se_bind, mret, se_mret, se_ret.
  destruct (chmod fs path w) as [w1 [[]|e1]].
  - destruct (apply_func fs func path w1) as [w2 [[]|e2]]; [reflexivity|].
    destruct (force_delete fs path w2) as [w3 [[]|e3]]; [reflexivity|].
    destruct (rename fs path (path +:+ ".deleteme") w3) as [w4 [[]|e4]]; [|reflexivity].
    destruct (force_delete fs (path +:+ ".deleteme") w4) as [w5 [[]|e5]]; reflexivity.
  - destruct (force d); [|reflexivity].
    destruct (force_delete fs path w1) as [w2 [[]|e2]]; reflexivity.
Qed.

Lemma keeps_ret {A} p (a : A) : keeps fs p (mret a).
Proof. intros w. reflexivity. Qed.

Lemma keeps_bind {A B} p (m : SE W A) (k : A -> SE W B) :
  keeps fs p m -> (forall a, keeps fs p (k a)) -> keeps fs p (m ≫= k).
Proof.
  intros Hm Hk w. unfold mbind, se_mbind, se_bind.
  specialize (Hm w). destruct (m w) as [w1 [a|e]]; cbn [fst] in *.
  - rewrite Hk. exact Hm.
  - exact Hm.
Qed.

Lemma keeps_try {A} p (m : SE W A) (h : string -> SE W A) :
  keeps fs p m -> (forall e, keeps fs p (h e)) -> keeps fs p (try_except m h).
Proof.
  intros Hm Hh w. unfold try_except.
  specialize (Hm w). destruct (m w) as [w1 [a|e]]; cbn [fst] in *.
  - exact Hm.
  - rewrite Hh. exact Hm.
Qed.

Lemma keeps_for_each p (f : string -> SE W unit) names :
  (forall name, keeps fs p (f name)) -> keeps fs p (for_each f names).
Proof.
  intros Hf. induction names as [|x rest IH]; cbn [for_each].
  - apply keeps_ret.
  - apply keeps_bind; [apply Hf | intros _; exact IH].
Qed.

(** A path below [root] is not [top] when [top] is a prefix of [root]. *)
Lemma join_below_differs top root name :
  Py.startswith root top = true -> os_path_join root name <> top.
Proof.
  intros Hpre Heq. apply StringFacts.prefix_length in Hpre.
  apply (f_equal String.length) in Heq.
  unfold os_path_join in Heq. rewrite !StringFacts.length_app in Heq. cbn in Heq. lia.
Qed.

Lemma wp_total (f : W -> W) (Q : W -> Exc unit -> Prop) w :
  Q (f w) (Ret tt) -> wp (se_total f) Q w.
Proof. exact (fun H => H). Qed.

Lemma wp_read {A} (f : W -> A) (Q : W -> Exc A -> Prop) w :
  Q w (Ret (f w)) -> wp (se_read f) Q w.
Proof. exact (fun H => H). Qed.

(** The removal of the [.git] directory, when there is one, never raises. *)
Lemma wp_git_block d (has_git : bool) git_dir (Q : W -> Exc unit -> Prop) w :
  (forall w', Q w' (Ret tt)) ->
  wp (if has_git
      then try_except (rmtree fs git_dir (_remove_readonly fs d)) (fun _ => mret tt)
      else mret tt) Q w.
Proof.
  intros H. destruct has_git; [|apply wp_ret, H].
  apply wp_try. unfold wp at 1.
  destruct (rmtree fs git_dir (_remove_readonly fs d) w) as [w1 [[]|e1]]; cbn [fst snd].
  - apply H.
  - apply wp_ret, H.
Qed.

(** The two removal attempts either fall through or end with
    [return False]; they never raise and never return [True]. *)
Lemma remove_tree_result d w :
  snd (remove_tree fs d w) = Ret None \/ snd (remove_tree fs d w) = Ret (Some false).
Proof.
  unfold remove_tree, try_except, mbind, se_mbind, se_bind, mret, se_mret, se_ret, se_read.
  destruct (rmtree fs (repo_path d) (_remove_readonly fs d) w) as [w1 [[]|e1]];
    cbn [fst snd]; [left; reflexivity|].
  destruct (walk_delete fs (walk_bottom_up fs (repo_path d) w1) w1) as [w2 [[]|e2]];
    cbn [fst snd]; [|right; reflexivity].
  destruct (rmdir fs (repo_path d) w2) as [w3 [[]|e3]]; cbn [fst snd];
    [left | right]; reflexivity.
Qed.

(** Whatever the file system does, [True] is returned only after the final
    check found the path gone: a run that raised nothing and left the path
    in place returns [False]. *)
Lemma delete_true_only_if_absent d w :
  snd (delete_repository fs d w) = Ret true ->
  path_exists fs (repo_path d) (fst (delete_repository fs d w)) = false.
Proof.
  refine (wp_elim (delete_repository fs d)
            (fun w' r => r = Ret true -> path_exists fs (repo_path d) w' = false) w _).
  unfold delete_repository.
  apply wp_try, wp_bind, wp_total, wp_bind, wp_read, wp_bind, wp_git_block.
  intros w1. apply wp_bind. unfold wp at 1.
  destruct (remove_tree_result d w1) as [Hr|Hr];
    destruct (remove_tree fs d w1) as [w2 r]; cbn [fst snd] in *; subst r.
  - apply wp_bind, wp_read.
    destruct (path_exists fs (repo_path d) w2) eqn:Hex; apply wp_ret;
      intros H; [discriminate H | exact Hex].
  - apply wp_ret. discriminate.
Qed.

Context (contract : FsContract fs).

Lemma keeps_chmod_then p (op : string -> SE W unit) q :
  q <> p -> keeps fs p (op q) -> keeps fs p (chmod_then fs op q).
Proof.
  intros Hne Hop. unfold chmod_then.
  apply keeps_try; [|intros _; apply keeps_ret].
  apply keeps_bind; [|intros _; exact Hop].
  intros w. apply (chmod_frame fs contract); exact Hne.
Qed.

(** The manual bottom-up walk never removes the root it walks. *)
Lemma keeps_walk_delete top triples :
  (forall root dirs files, In (root, dirs, files) triples ->
     Py.startswith root top = true) ->
  keeps fs top (walk_delete fs triples).
Proof.
  induction triples as [|[[root dirs] files] rest IH]; intros Hbelow; cbn [walk_delete].
  - apply keeps_ret.
  - assert (Hroot : Py.startswith root top = true)
      by (apply (Hbelow root dirs files); left; reflexivity).
    apply keeps_bind; [|intros _; apply keeps_bind; [|intros _]].
    + apply keeps_for_each; intros name. apply keeps_chmod_then.
      * apply join_below_differs; exact Hroot.
      * intros w. apply (unlink_frame fs contract), join_below_differs; exact Hroot.
    + apply keeps_for_each; intros name. apply keeps_chmod_then.
      * apply join_below_differs; exact Hroot.
      * intros w. apply (rmdir_frame fs contract), join_below_differs; exact Hroot.
    + apply IH. intros r ds fls Hin. apply (Hbelow r ds fls). right; exact Hin.
Qed.

(** The two removal attempts end normally; when they end with
    [return False], the directory is still there. *)
Lemma wp_remove_tree d (Q : W -> Exc (option bool) -> Prop) w :
  (forall w', Q w' (Ret None)) ->
  (forall w', path_exists fs (repo_path d) w' = true -> Q w' (Ret (Some false))) ->
  wp (remove_tree fs d) Q w.
Proof.
  intros Hgo Hstop. unfold remove_tree.
  apply wp_try, wp_bind. unfold wp at 1.
  pose proof (rmtree_raise_keeps fs contract (repo_path d) (_remove_readonly fs d) w) as Hkeep.
  destruct (rmtree fs (repo_path d) (_remove_readonly fs d) w) as [w1 [[]|e1]];
    cbn [fst snd] in *; [apply wp_ret, Hgo|].
  specialize (Hkeep e1 (remove_readonly_never_raises d) eq_refl).
  apply wp_try, wp_bind, wp_read, wp_bind. unfold wp at 1.
  pose proof (keeps_walk_delete (repo_path d) (walk_bottom_up fs (repo_path d) w1)
                (walk_below fs contract (repo_path d) w1) w1) as Hwalk.
  destruct (walk_delete fs (walk_bottom_up fs (repo_path d) w1) w1) as [w2 [[]|e2]];
    cbn [fst snd] in *.
  - apply wp_bind. unfold wp at 1.
    pose proof (rmdir_raise_keeps fs contract (repo_path d) w2) as Hrm.
    destruct (rmdir fs (repo_path d) w2) as [w3 [[]|e3]]; cbn [fst snd] in *.
    + apply wp_ret, Hgo.
    + apply wp_ret, Hstop, (Hrm e3 eq_refl). congruence.
  - apply wp_ret, Hstop. congruence.
Qed.

End Deletion.

(** C3.  On a file system that keeps the stated contract,
    [delete_repository] always returns a boolean, and it returns [True] if
    and only if the target path does not exist when the call returns; a run
    in which the removal raised nothing but the path is still there returns
    [False]. *)
Theorem delete_true_iff_absent {W} (fs : FsOps W) (contract : FsContract fs)
    (d : Deleter) (w : W) :
  exists b, snd (delete_repository fs d w) = Ret b /\
    (b = true <->
     path_exists fs (repo_path d) (fst (delete_repository fs d w)) = false).
Proof.
  refine (wp_elim (delete_repository fs d)
            (fun w' r => exists b, r = Ret b /\
               (b = true <-> path_exists fs (repo_path d) w' = false)) w _).
  unfold delete_repository.
  apply wp_try, wp_bind, wp_total, wp_bind, wp_read, wp_bind, wp_git_block.
  intros w1. apply wp_bind, (wp_remove_tree fs contract).
  - intros w2. apply wp_bind, wp_read.
    destruct (path_exists fs (repo_path d) w2) eqn:Hex; apply wp_ret.
    + exists false. split; [reflexivity|]. rewrite Hex. split; discriminate.
    + exists true. split; [reflexivity|]. rewrite Hex. split; reflexivity.
  - intros w2 Hex. apply wp_ret.
    exists false. split; [reflexivity|]. rewrite Hex. split; discriminate.
Qed.

(** The contract holds of the example file system. *)
Lemma toy_fs_contract stubborn : FsContract (toy_fs stubborn).
Proof.
  split; cbn [toy_fs path_exists rmtree rmdir chmod unlink walk_bottom_up fst snd].
  - intros p h w e _. destruct stubborn; cbn [andb].
    + destruct (bool_decide (p ∈ w)) eqn:Hin; cbn [fst snd]; [intros _; exact Hin | discriminate].
    + discriminate.
  - intros p w e. unfold remove_path.
    destruct (bool_decide (p ∈ w)) eqn:Hin; cbn [fst snd]; [discriminate | intros _ H; discriminate H].
  - reflexivity.
  - intros p q w Hne. unfold remove_path.
    destruct (bool_decide (q ∈ w)); cbn [fst]; [|reflexivity].
    apply bool_decide_ext. rewrite elem_of_difference, elem_of_singleton.
    intuition congruence.
  - intros p q w Hne. unfold remove_path.
    destruct (bool_decide (q ∈ w)); cbn [fst]; [|reflexivity].
    apply bool_decide_ext. rewrite elem_of_difference, elem_of_singleton.
    intuition congruence.
  - intros top w root dirs files [].
Qed.

(** On the example file system, with an [rmtree] that gives up, the manual
    fallback removes the directory and the call reports success. *)
Lemma delete_true_iff_absent_witness :
  FsContract (toy_fs true) /\
  exists b,
    snd (delete_repository (toy_fs true) demo_deleter {["/srv/work/demo"]}) = Ret b /\
    (b = true <->
     path_exists (toy_fs true) (repo_path demo_deleter)
       (fst (delete_repository (toy_fs true) demo_deleter {["/srv/work/demo"]})) = false).
Proof.
  split; [exact (toy_fs_contract true)|].
  exact (delete_true_iff_absent (toy_fs true) (toy_fs_contract true) demo_deleter
           {["/srv/work/demo"]}).
Defined.

Example stubborn_rmtree_falls_back :
  snd (delete_repository (toy_fs true) demo_deleter {["/srv/work/demo"]}) = Ret true.
Proof. vm_compute. reflexivity. Qed.

End DeleterSpec.

(** ** The version ledger *)

Module ArchiverSpec.
Import Archiver ArchiverEx.

Section OneRun.
Variable env : RunEnv.

(** Every call of [_archive_folder] has one of the three effects. *)
Lemma archive_folder_effect folder s :
  archive_effect env folder s (fst (_archive_folder env folder s))
    (snd (_archive_folder env folder s)).
Proof.
  unfold _archive_folder.
  destruct (folder_exists env folder) eqn:Hex; cbn [negb].
  2: { apply effect_missing; [exact Hex | reflexivity | reflexivity]. }
  unfold mbind, se_mbind, se_bind, try_except, _get_next_version, write_zip,
    _save_versions, record_assignment, unlink_if_exists, se_modify, mret, se_mret, se_ret.
  cbn [versions disk assigned version_file archive_files fst snd].
  destruct (zip_write_ok env folder) eqn:Hzip.
  - destruct (save_result env folder) eqn:Hsave;
      cbn [versions disk assigned version_file archive_files fst snd].
    + apply effect_archived; try reflexivity; assumption.
    + repeat (match goal with
              | |- context [bool_decide ?P] => destruct (bool_decide P)
              | |- context [unlink_ok env folder] => destruct (unlink_ok env folder)
              end; cbn [versions disk assigned version_file archive_files fst snd]);
        apply effect_failed; try reflexivity; try assumption;
        try (left; reflexivity); discriminate.
    + repeat (match goal with
              | |- context [bool_decide ?P] => destruct (bool_decide P)
              | |- context [unlink_ok env folder] => destruct (unlink_ok env folder)
              end; cbn [versions disk assigned version_file archive_files fst snd]);
        apply effect_failed; try reflexivity; try assumption;
        try (right; repeat split; assumption || reflexivity); discriminate.
  - destruct (partial_archive_left env folder);
      cbn [versions disk assigned version_file archive_files fst snd];
      repeat (match goal with
              | |- context [bool_decide ?P] => destruct (bool_decide P)
              | |- context [unlink_ok env folder] => destruct (unlink_ok env folder)
              end; cbn [versions disk assigned version_file archive_files fst snd]);
      apply effect_failed; try reflexivity; try assumption;
      try (left; reflexivity); discriminate.
Qed.

End OneRun.

(** A run in which no archive can be written leaves the ledger file as it
    was. *)
Lemma failed_folders_keep_ledger (env : RunEnv) (folders : list string) : forall s,
  (forall folder, In folder folders -> zip_write_ok env folder = false) ->
  version_file (disk (fst (archive_folders env folders s))) = version_file (disk s).
Proof.
  induction folders as [|folder rest IH]; intros s Hfail; [reflexivity|].
  cbn [archive_folders]. unfold mbind, se_mbind, se_bind.
  assert (Hhere : zip_write_ok env folder = false) by (apply Hfail; left; reflexivity).
  assert (Hstep : version_file (disk (fst (_archive_folder env folder s))) =
                  version_file (disk s)).
  { destruct (archive_folder_effect env folder s)
      as [_ Hs _ | _ Hzip _ _ _ _ | _ _ [Hsame | (Hzip & _)] _ _]; congruence. }
  destruct (_archive_folder env folder s) as [s1 [ok|e]]; cbn [fst] in *; [|exact Hstep].
  rewrite <- Hstep.
  assert (Hrest : forall f, In f rest -> zip_write_ok env f = false)
    by (intros f Hf; apply Hfail; right; exact Hf).
  specialize (IH s1 Hrest).
  destruct (archive_folders env rest s1) as [s2 [archived|e]]; exact IH.
Qed.

(** C5, as the specification states it, fails: when the archive of
    "API Documentation" cannot be written and "Classifier" is archived later
    in the same run, the ledger file ends up holding 1 for "API
    Documentation", against 0 before the run. *)
Lemma later_success_commits_failed_counter :
  ~ failed_write_keeps_committed
      (simple_run ["API Documentation"; "Classifier"] ["API Documentation"] "20250101_000000")
      empty_disk.
Proof.
  intros H.
  specialize (H "API Documentation").
  vm_compute in H.
  assert (Heq : 1%Z = 0%Z) by (apply H; auto).
  discriminate Heq.
Qed.

(** C5, amended.  The ledger file is written only right after a successful
    bundle write: a call of [_archive_folder] changes the file only if the
    folder exists and its archive was written, and when the call succeeds
    the file holds exactly the counters in memory.  Whenever the folder
    exists its counter is advanced in memory, also when the write fails, so
    the next successful save of the run commits it. *)
Theorem ledger_written_only_after_success (env : RunEnv) (folder : string) (s : AState) :
  let s' := fst (_archive_folder env folder s) in
  let r := snd (_archive_folder env folder s) in
  (version_file (disk s') <> version_file (disk s) ->
     folder_exists env folder = true /\ zip_write_ok env folder = true) /\
  (r = Ret true ->
     zip_write_ok env folder = true /\ version_file (disk s') = Ledger (versions s')) /\
  (folder_exists env folder = true ->
     versions s' = <[folder := (default 0 (versions s !! folder) + 1)%Z]> (versions s)).
Proof.
  intros s' r. subst s' r.
  destruct (archive_folder_effect env folder s)
    as [Hex Hs Hr | Hex Hzip Hv Hfile Hlog Hr | Hex Hv Hfile Hlog Hr].
  - rewrite Hs, Hr, Hex. repeat split; try congruence; discriminate.
  - repeat split; auto.
  - split; [|split].
    + intros Hne. split; [exact Hex|].
      destruct Hfile as [Hsame | [Hz _]]; [contradiction | exact Hz].
    + intros Hr'. contradiction.
    + intros _. exact Hv.
Qed.

(** *** Versions of successful archives increase *)

Lemma default_lookup_insert (m : gmap string Z) (f g : string) (v : Z) :
  default 0%Z (<[f := v]> m !! g) = if decide (f = g) then v else default 0%Z (m !! g).
Proof.
  rewrite lookup_insert. destruct (decide (f = g)); reflexivity.
Qed.

Lemma insert_next_ge (m : gmap string Z) (f g : string) :
  (default 0 (m !! g) <= default 0 (<[f := (default 0 (m !! f) + 1)%Z]> m !! g))%Z.
Proof.
  rewrite default_lookup_insert. destruct (decide (f = g)) as [->|]; lia.
Qed.

Section Invariant.
Variable env : RunEnv.
Hypothesis Hsafe : never_truncates env.

(** Each of the three effects keeps the invariant of a run. *)
Lemma effect_keeps_inv folder s s' r :
  run_inv s -> archive_effect env folder s s' r -> run_inv s'.
Proof.
  intros (Hmem & Hcov & Hinc) [Hex Hs Hr | Hex Hzip Hv Hfile Hlog Hr | Hex Hv Hfile Hlog Hr].
  - subst s'. repeat split; assumption.
  - (* archived: the file now holds the counters in memory *)
    assert (Hold : forall a, In a (assigned s) -> a_success a = true ->
              (a_version a <= default 0 (versions s !! a_folder a))%Z).
    { intros a Ha Hok. specialize (Hcov a Ha Hok). specialize (Hmem (a_folder a)). lia. }
    split; [|split].
    + intros g. rewrite Hfile. unfold committed. cbn [_load_versions]. lia.
    + intros a Ha Hok. rewrite Hfile. unfold committed. cbn [_load_versions].
      rewrite Hv. rewrite Hlog in Ha. apply in_app_or in Ha as [Ha | [<- | []]].
      * specialize (Hold a Ha Hok).
        pose proof (insert_next_ge (versions s) folder (a_folder a)). lia.
      * cbn [a_folder a_version]. rewrite default_lookup_insert.
        destruct (decide (folder = folder)); [lia | contradiction].
    + intros i j a b Hij Hi Hj Hsame Hoka Hokb. rewrite Hlog in Hi, Hj.
      apply lookup_snoc_Some in Hj as [[Hlt Hj] | [Hlen <-]].
      * rewrite lookup_app_l in Hi by lia. exact (Hinc i j a b Hij Hi Hj Hsame Hoka Hokb).
      * rewrite lookup_app_l in Hi by lia.
        cbn [a_folder a_version] in *.
        assert (Ha : In a (assigned s))
          by (apply list_elem_of_In, list_elem_of_lookup; exists i; exact Hi).
        specialize (Hold a Ha Hoka). rewrite Hsame in Hold. lia.
  - (* failed: the file is the one of before *)
    destruct Hfile as [Hfile | (_ & Htrunc & _)]; [|elim (Hsafe folder Htrunc)].
    split; [|split].
    + intros g. rewrite Hfile, Hv. specialize (Hmem g).
      pose proof (insert_next_ge (versions s) folder g). lia.
    + intros a Ha Hok. rewrite Hfile. rewrite Hlog in Ha.
      apply in_app_or in Ha as [Ha | [<- | []]]; [exact (Hcov a Ha Hok) | discriminate Hok].
    + intros i j a b Hij Hi Hj Hsame Hoka Hokb. rewrite Hlog in Hi, Hj.
      apply lookup_snoc_Some in Hj as [[Hlt Hj] | [Hlen <-]]; [|discriminate Hokb].
      rewrite lookup_app_l in Hi by lia. exact (Hinc i j a b Hij Hi Hj Hsame Hoka Hokb).
Qed.

Lemma archive_folders_keeps_inv folders s :
  run_inv s -> run_inv (fst (archive_folders env folders s)).
Proof.
  revert s. induction folders as [|folder rest IH]; intros s Hinv; [exact Hinv|].
  cbn [archive_folders]. unfold mbind, se_mbind, se_bind.
  pose proof (effect_keeps_inv folder s _ _ Hinv (archive_folder_effect env folder s)) as H1.
  destruct (_archive_folder env folder s) as [s1 [ok|e]]; cbn [fst] in *; [|exact H1].
  specialize (IH s1 H1).
  destruct (archive_folders env rest s1) as [s2 [archived|e]]; exact IH.
Qed.

(** A run takes a disk and a record that agree to a disk and a record that
    agree. *)
Lemma run_once_keeps d log :
  ledger_covers (version_file d) log -> above_earlier_successes log ->
  ledger_covers (version_file (fst (run_once env d log))) (snd (run_once env d log)) /\
  above_earlier_successes (snd (run_once env d log)).
Proof.
  intros Hcov Hinc. unfold run_once, archive_documentation. cbn [fst snd].
  set (s0 := {| versions := _load_versions (version_file d); disk := d; assigned := log |}).
  assert (H0 : run_inv s0).
  { split; [|split]; [|exact Hcov | exact Hinc]. intros g. unfold committed. cbn. lia. }
  destruct (archive_folders_keeps_inv docs_folders s0 H0) as (_ & H1 & H2).
  split; assumption.
Qed.

End Invariant.

Lemma run_all_keeps envs : forall d log,
  Forall never_truncates envs ->
  ledger_covers (version_file d) log -> above_earlier_successes log ->
  above_earlier_successes (snd (run_all envs d log)).
Proof.
  induction envs as [|env rest IH]; intros d log Hsafe Hcov Hinc; [exact Hinc|].
  cbn [run_all]. inversion Hsafe as [|? ? Henv Hrest]; subst.
  destruct (run_once_keeps env Henv d log Hcov Hinc) as [Hcov' Hinc'].
  destruct (run_once env d log) as [d' log']. cbn [fst snd] in *.
  apply IH; assumption.
Qed.

(** C4, as the specification states it, fails: the archive of "API
    Documentation" cannot be written in a first run, which draws version 1
    and saves nothing; the second run draws version 1 again and succeeds. *)
Lemma failed_version_is_reused :
  ~ above_all_earlier
      (snd (run_all
              [simple_run ["API Documentation"] ["API Documentation"] "20250101_000000";
               simple_run ["API Documentation"] [] "20250102_000000"]
              empty_disk [])).
Proof.
  intros H.
  assert (Hlt : (1 < 1)%Z); [|lia].
  apply (H 0%nat 1%nat
           (Build_Assignment "API Documentation" 1 false)
           (Build_Assignment "API Documentation" 1 true));
    [lia | vm_compute; reflexivity | vm_compute; reflexivity | reflexivity | reflexivity].
Qed.

(** C4, amended.  Over any sequence of runs on a repository in which no save
    leaves a truncated ledger file, the version given to a successfully
    archived folder is greater than every version given before to a
    successful archive of the same folder name. *)
Theorem successful_versions_increase (envs : list RunEnv) (d : Disk) :
  Forall never_truncates envs ->
  above_earlier_successes (snd (run_all envs d [])).
Proof.
  intros Hsafe. apply run_all_keeps; [exact Hsafe | |].
  - intros a [].
  - intros i j a b _ Hi. rewrite lookup_nil in Hi. discriminate Hi.
Qed.

Lemma successful_versions_increase_witness :
  Forall never_truncates
    [simple_run ["API Documentation"] ["API Documentation"] "20250101_000000";
     simple_run ["API Documentation"; "Classifier"] [] "20250102_000000";
     simple_run ["API Documentation"] [] "20250103_000000"] /\
  above_earlier_successes
    (snd (run_all
            [simple_run ["API Documentation"] ["API Documentation"] "20250101_000000";
             simple_run ["API Documentation"; "Classifier"] [] "20250102_000000";
             simple_run ["API Documentation"] [] "20250103_000000"]
            empty_disk [])).
Proof.
  assert (Hsafe : Forall never_truncates
    [simple_run ["API Documentation"] ["API Documentation"] "20250101_000000";
     simple_run ["API Documentation"; "Classifier"] [] "20250102_000000";
     simple_run ["API Documentation"] [] "20250103_000000"])
    by (repeat constructor; intros folder; discriminate).
  split; [exact Hsafe|].
  exact (successful_versions_increase _ empty_disk Hsafe).
Defined.

(** The scenario of the specification: "A" is at version 3 in the ledger and
    "B" has no entry; after one run "A" is at 4 and "B" at 1. *)
Example versions_after_one_run :
  let env := simple_run ["API Documentation"; "Classifier"] [] "20250101_000000" in
  let d := {| version_file := Ledger {["API Documentation" := 3%Z]}; archive_files := [] |} in
  committed (version_file (fst (run_once env d []))) "API Documentation" = 4%Z /\
  committed (version_file (fst (run_once env d []))) "Classifier" = 1%Z /\
  archive_files (fst (run_once env d [])) =
    ["API Documentation_v4_20250101_000000.zip"; "Classifier_v1_20250101_000000.zip"].
Proof. vm_compute. repeat split. Qed.

(** Why the ledger file must stay readable: after a save that left it
    truncated the counters start again, and a version given to a successful
    archive is given out a second time. *)
Example truncated_ledger_reuses_version :
  snd (run_all [simple_run ["API Documentation"] [] "20250101_000000";
                truncating_run ["API Documentation"] "20250102_000000";
                simple_run ["API Documentation"] [] "20250103_000000"]
         empty_disk []) =
  [Build_Assignment "API Documentation" 1 true;
   Build_Assignment "API Documentation" 2 false;
   Build_Assignment "API Documentation" 1 true].
Proof. vm_compute. reflexivity. Qed.

(** A ledger file that cannot be parsed makes the counters start again. *)
Example unreadable_ledger_starts_fresh :
  let env := simple_run ["API Documentation"] [] "20250101_000000" in
  let d := {| version_file := Unreadable; archive_files := [] |} in
  snd (run_once env d []) = [Build_Assignment "API Documentation" 1 true].
Proof. vm_compute. reflexivity. Qed.

End ArchiverSpec.

(** ** Delivery of the package *)

Module SenderSpec.
Import Sender SenderEx.

(** C8.  When an archive cannot be added to the package,
    [_create_archive_package] returns [None] after it has created the zip
    file; [send_archives] returns [False], the cleanup is called with [None]
    and removes nothing: the zip file and the temporary directory are still
    there when the call returns. *)
Theorem failed_package_is_left_behind :
  let run := send_archives "demo" unreadable_archive (fresh_call no_temp_dir) in
  snd run = Ret false /\
  local_zip_path (fst run) = Some None /\
  dir_present (tmp (fst run)) = true /\
  elements (files (tmp (fst run))) = ["demo_documentation_20250101_120000.zip"].
Proof. vm_compute. repeat split. Qed.

(** The manifest is left behind as well when the failure comes after it was
    written. *)
Example failed_package_leaves_manifest :
  let run := send_archives "demo" manifest_not_added (fresh_call no_temp_dir) in
  snd run = Ret false /\
  elements (files (tmp (fst run))) =
    ["manifest.json"; "demo_documentation_20250101_120000.zip"].
Proof. vm_compute. repeat split. Qed.

Example smooth_send_cleans_up :
  let run := send_archives "demo" smooth_send (fresh_call no_temp_dir) in
  snd run = Ret true /\
  dir_present (tmp (fst run)) = false /\
  elements (files (tmp (fst run))) = [].
Proof. vm_compute. repeat split. Qed.

Section Cleanup.
Variable repo_name : string.
Variable env : SendEnv.

(** [_create_archive_package] and [_cleanup_temp_files] never raise. *)
Lemma create_never_raises s :
  exists p, snd (_create_archive_package repo_name env s) = Ret p.
Proof.
  refine (wp_elim (_create_archive_package repo_name env)
            (fun _ r => exists p, r = Ret p) s _).
  apply wp_try, wp_any. intros s' [p|e]; [|apply wp_ret]; eexists; reflexivity.
Qed.

Lemma cleanup_never_raises p s :
  snd (_cleanup_temp_files env p s) = Ret tt.
Proof.
  refine (wp_elim (_cleanup_temp_files env p) (fun _ r => r = Ret tt) s _).
  apply wp_try, wp_any. intros s' [[]|e]; [|apply wp_ret]; reflexivity.
Qed.

Lemma wp_finally {A} (m : SE SState A) (f : SE SState unit)
    (Q : SState -> Exc A -> Prop) s :
  wp m (fun s' r =>
          wp f (fun s'' r' => match r' with
                              | Ret _ => Q s'' r
                              | Raise e => Q s'' (Raise e)
                              end) s') s ->
  wp (try_finally m f) Q s.
Proof.
  unfold wp, try_finally.
  destruct (m s) as [s' r]; cbn [fst snd].
  destruct (f s') as [s'' [[]|e]]; exact (fun H => H).
Qed.

Lemma wp_step_ok (f : TempDir -> TempDir) (Q : SState -> Exc unit -> Prop) s :
  Q {| tmp := f (tmp s); local_zip_path := local_zip_path s |} (Ret tt) ->
  wp (step true f) Q s.
Proof. exact (fun H => H). Qed.

(** With every step working, the package is built: the zip file is in the
    temporary directory, the manifest is not. *)
Lemma wp_create (Q : SState -> Exc (option string) -> Prop) s :
  package_created env = true ->
  (forall t', manifest_name ∉ files t' ->
              Q {| tmp := t'; local_zip_path := local_zip_path s |}
                (Ret (Some (zip_filename repo_name env)))) ->
  wp (_create_archive_package repo_name env) Q s.
Proof.
  unfold package_created. intros Hcreated HQ.
  repeat (apply andb_prop in Hcreated as [Hcreated ?]).
  unfold _create_archive_package, with_zipfile.
  repeat match goal with H : _ = true |- _ => rewrite H; clear H end.
  apply wp_try.
  repeat (lazymatch goal with
          | |- wp (_ ≫= _) _ _ => apply wp_bind
          | |- wp (step true _) _ _ => apply wp_step_ok
          | |- wp (mret _) _ _ => apply wp_ret
          end; cbv beta iota; cbn [tmp local_zip_path]).
  apply HQ. unfold id, add_file, remove_file; cbn [files].
  rewrite elem_of_difference, elem_of_singleton. tauto.
Qed.

(** A cleanup that can unlink removes the file it is given and adds none. *)
Lemma wp_cleanup name (Q : SState -> Exc unit -> Prop) s :
  zip_unlink_ok env = true ->
  (forall t', name ∉ files t' -> files t' ⊆ files (tmp s) ->
              Q {| tmp := t'; local_zip_path := local_zip_path s |} (Ret tt)) ->
  wp (_cleanup_temp_files env (Some name)) Q s.
Proof.
  intros Hunlink HQ. destruct s as [t zp].
  unfold _cleanup_temp_files, unlink_if_exists, rmdir_if_exists, wp, try_except,
    mbind, se_mbind, se_bind, mret, se_mret, se_ret, step, with_tmp, se_modify, se_raise.
  rewrite Hunlink. cbn [tmp local_zip_path].
  destruct (bool_decide (name ∈ files t)) eqn:Hin; cbn [tmp local_zip_path fst snd].
  - assert (Hgone : name ∉ files (remove_file name t)).
    { unfold remove_file; cbn [files].
      rewrite elem_of_difference, elem_of_singleton. tauto. }
    assert (Hsub : files (remove_file name t) ⊆ files t).
    { unfold remove_file; cbn [files]. intros x.
      rewrite elem_of_difference. tauto. }
    destruct (dir_present (remove_file name t)); cbn [fst snd];
      [destruct (rmdir_ok env && bool_decide (files (remove_file name t) = ∅))|];
      cbn [fst snd tmp local_zip_path files];
      apply HQ; assumption.
  - apply bool_decide_eq_false in Hin.
    destruct (dir_present t); cbn [fst snd];
      [destruct (rmdir_ok env && bool_decide (files t = ∅))|];
      cbn [fst snd tmp local_zip_path files];
      apply HQ; first [exact Hin | intros x Hx; exact Hx].
Qed.

Lemma wp_cleanup_if_bound p (Q : SState -> Exc unit -> Prop) s :
  local_zip_path s = Some p ->
  wp (_cleanup_temp_files env p) Q s ->
  wp (cleanup_if_bound env) Q s.
Proof. unfold wp, cleanup_if_bound. intros ->. exact (fun H => H). Qed.

(** Once the package was created, every way out of [send_archives] removes
    it, provided the zip file can be unlinked; the manifest was removed
    when the package was built. *)
Lemma created_package_is_removed t :
  package_created env = true ->
  zip_unlink_ok env = true ->
  let s' := fst (send_archives repo_name env (fresh_call t)) in
  (zip_filename repo_name env ∉ files (tmp s')) /\ (manifest_name ∉ files (tmp s')).
Proof.
  intros Hcreated Hunlink.
  refine (wp_elim (send_archives repo_name env)
            (fun s' _ => (zip_filename repo_name env ∉ files (tmp s')) /\
                         (manifest_name ∉ files (tmp s')))
            (fresh_call t) _).
  assert (Hend : forall (r : Exc bool) t1,
  manifest_name ∉ files t1 ->
  wp (cleanup_if_bound env)
    (fun s'' r' =>
       match r' with
       | Ret _ =>
           (zip_filename repo_name env ∉ files (tmp s'')) /\
           (manifest_name ∉ files (tmp s''))
       | Raise e =>
           (zip_filename repo_name env ∉ files (tmp s'')) /\
           (manifest_name ∉ files (tmp s''))
       end)
    {| tmp := t1; local_zip_path := Some (Some (zip_filename repo_name env)) |}).
{ intros r t1 Hman.
  apply (wp_cleanup_if_bound (Some (zip_filename repo_name env))); [reflexivity|].
  apply wp_cleanup; [exact Hunlink|].
  intros t' Hzip Hsub. cbn [tmp]. split; [exact Hzip|].
  intros Hin. apply Hman, Hsub, Hin. }
unfold send_archives.
apply wp_finally, wp_try, wp_bind, wp_create; [exact Hcreated|].
intros t1 Hman. apply wp_bind, wp_modify. cbn [tmp local_zip_path].
apply wp_bind. unfold step.
destruct (open_for_send_ok env).
- apply wp_modify. cbn [tmp local_zip_path].
  destruct (post_result env) as [n| |].
  + destruct (Nat.eqb n 200).
    * apply wp_bind, wp_cleanup; [exact Hunlink|].
      intros t2 Hzip2 Hsub. apply wp_ret.
      cbn [tmp local_zip_path] in *.
      apply (Hend (Ret true)). intros Hin. apply Hman, Hsub, Hin.
    * apply wp_ret, (Hend (Ret false)), Hman.
  + apply wp_raise, wp_ret, (Hend (Ret false)), Hman.
  + apply wp_raise, wp_ret, (Hend (Ret false)), Hman.
- apply wp_raise, wp_ret, (Hend (Ret false)), Hman.
Qed.

End Cleanup.

End SenderSpec.

(** ** Repository names *)

Module NameSpec.
Import Cloner ClonerEx.

Lemma split_nonempty (s : string) (sep : ascii) : Py.split s sep <> [].
Proof.
  induction s as [|c s IH]; cbn [Py.split]; [discriminate|].
  destruct (Ascii.eqb c sep); [discriminate|].
  destruct (Py.split s sep); [contradiction | discriminate].
Qed.

(** Splitting at a separator splits the two sides. *)
Lemma split_app (x y : string) :
  Py.split (x +:+ "/" +:+ y) "/" = Py.split x "/" ++ Py.split y "/".
Proof.
  induction x as [|c x IH].
  - reflexivity.
  - rewrite StringFacts.app_cons. cbn [Py.split].
    destruct (Ascii.eqb c "/").
    + rewrite IH. reflexivity.
    + rewrite IH. pose proof (split_nonempty x "/") as Hne.
      destruct (Py.split x "/") as [|h t]; [contradiction | reflexivity].
Qed.

Lemma split_segment (s : string) : no_slash s = true -> Py.split s "/" = [s].
Proof.
  induction s as [|c s IH]; intros H; [reflexivity|].
  cbn [no_slash forall_chars] in H. apply andb_prop in H as [Hc Hs].
  cbn [Py.split]. apply negb_true_iff in Hc. rewrite Hc.
  rewrite (IH Hs). reflexivity.
Qed.

Lemma rstrip_segment (s : string) : no_slash s = true -> Py.rstrip s "/" = s.
Proof.
  induction s as [|c s IH]; intros H; [reflexivity|].
  cbn [no_slash forall_chars] in H. apply andb_prop in H as [Hc Hs].
  cbn [Py.rstrip]. rewrite (IH Hs). apply negb_true_iff in Hc.
  destruct s; [|reflexivity].
  cbn [Py.char_in]. rewrite Hc. reflexivity.
Qed.

Lemma rstrip_app (x y : string) :
  y <> EmptyString -> Py.rstrip y "/" = y -> Py.rstrip (x +:+ y) "/" = x +:+ y.
Proof.
  intros Hne Hy. induction x as [|c x IH]; [exact Hy|].
  rewrite StringFacts.app_cons. cbn [Py.rstrip]. rewrite IH.
  destruct (x +:+ y) eqn:Hxy; [|reflexivity].
  destruct x; [contradiction | discriminate Hxy].
Qed.

Lemma no_slash_app (a b : string) :
  no_slash a = true -> no_slash b = true -> no_slash (a +:+ b) = true.
Proof.
  intros Ha Hb. induction a as [|c a IH]; [exact Hb|].
  rewrite StringFacts.app_cons. cbn [no_slash forall_chars] in *.
  apply andb_prop in Ha as [Hc Ha]. rewrite Hc. exact (IH Ha).
Qed.

(** The name of a URL that ends in a segment without slashes is that segment
    after [replace('.git', '')]. *)
Lemma extract_repo_name_segment (base seg : string) :
  seg <> EmptyString -> no_slash seg = true ->
  Processor._extract_repo_name (base +:+ "/" +:+ seg) = Py.replace seg ".git" "".
Proof.
  intros Hne Hseg. unfold Processor._extract_repo_name.
  assert (Hstrip : Py.rstrip (base +:+ "/" +:+ seg) "/" = base +:+ "/" +:+ seg).
  { apply rstrip_app.
    - discriminate.
    - change ("/" +:+ seg) with (EmptyString +:+ "/" +:+ seg).
      change (EmptyString +:+ "/" +:+ seg) with (String "/" seg).
      cbn [Py.rstrip]. rewrite (rstrip_segment seg Hseg).
      destruct seg; [contradiction | reflexivity]. }
  rewrite Hstrip, split_app, (split_segment seg Hseg).
  unfold Py.last_item. rewrite last_last. reflexivity.
Qed.

(** C10.  Name extraction deletes [.git] wherever it occurs.  For a URL whose
    last segment is [a ++ ".git" ++ b], [_extract_repo_name] gives [a] and
    [b], each with its own occurrences removed, joined; [_get_repo_info]
    works on the whole URL with the occurrences removed.  For the valid URL
    of a repository named [user.github.io] both give the name [userhub.io],
    and the clone goes to a directory of that name. *)
Theorem dot_git_removed_everywhere :
  (forall base a b,
     no_slash a = true -> no_slash b = true ->
     Processor._extract_repo_name (base +:+ "/" +:+ a +:+ ".git" +:+ b) =
     Py.replace a ".git" "" +:+ Py.replace b ".git" "") /\
  (forall a b,
     _get_repo_info (a +:+ ".git" +:+ b) =
     info_of_cleaned (Py.replace a ".git" "" +:+ Py.replace b ".git" "")) /\
  (fst (_validate_repo_url pages_url) = true /\
   Processor.valid_format pages_url = true /\
   path_segments pages_url = ["user"; "user.github.io"] /\
   Processor._extract_repo_name pages_url = "userhub.io" /\
   _get_repo_info pages_url = (Some "user", Some "userhub.io") /\
   target_path "/srv/work" "userhub.io" = "/srv/work/userhub.io").
Proof.
  split; [|split].
  - intros base a b Ha Hb.
    rewrite extract_repo_name_segment.
    + apply StringFacts.replace_dot_git_app.
    + destruct a; discriminate.
    + apply no_slash_app; [exact Ha|].
      apply (no_slash_app ".git" b); [reflexivity | exact Hb].
  - intros a b. unfold _get_repo_info.
    rewrite StringFacts.replace_dot_git_app. reflexivity.
  - vm_compute. repeat split.
Qed.

(** The owner is affected in the same way. *)
Example owner_loses_dot_git :
  _get_repo_info "https://github.com/my.github/proj.git" = (Some "myhub", Some "proj").
Proof. vm_compute. reflexivity. Qed.

(** An ordinary URL: only the trailing extension is removed. *)
Example ordinary_name :
  Processor._extract_repo_name "https://github.com/octo/demo.git" = "demo" /\
  _get_repo_info "https://github.com/octo/demo.git" = (Some "octo", Some "demo").
Proof. vm_compute. split; reflexivity. Qed.

End NameSpec.

(** * Further properties of the code *)

(** ** More on the string methods *)

Module TextFacts.
Import ClonerEx.

Lemma app_assoc (a b c : string) : (a +:+ b) +:+ c = a +:+ b +:+ c.
Proof.
  induction a as [|x a IH]; [reflexivity|].
  rewrite !StringFacts.app_cons, IH. reflexivity.
Qed.

Lemma app_nil_r (a : string) : a +:+ EmptyString = a.
Proof.
  induction a as [|x a IH]; [reflexivity|].
  rewrite StringFacts.app_cons, IH. reflexivity.
Qed.

Lemma app_inv_tail (a b c : string) : a +:+ c = b +:+ c -> a = b.
Proof.
  revert b; induction a as [|x a IH]; intros [|y b] H.
  - reflexivity.
  - apply (f_equal String.length) in H.
    rewrite !StringFacts.length_app in H. cbn [String.length] in H. lia.
  - apply (f_equal String.length) in H.
    rewrite !StringFacts.length_app in H. cbn [String.length] in H. lia.
  - rewrite !StringFacts.app_cons in H. injection H as -> H.
    f_equal. apply IH, H.
Qed.

(** *** [split] and [join] *)

(** Joining what [split] gave returns the text. *)
Lemma join_split (s : string) : Py.join "/" (Py.split s "/") = s.
Proof.
  unfold Py.join. induction s as [|c s IH]; [reflexivity|].
  cbn [Py.split]. pose proof (NameSpec.split_nonempty s "/") as Hne.
  destruct (Ascii.eqb_spec c "/") as [->|Hc].
  - destruct (Py.split s "/") as [|h t]; [contradiction|].
    change (String.concat "/" (EmptyString :: h :: t))
      with ("/" +:+ String.concat "/" (h :: t)).
    rewrite IH. reflexivity.
  - destruct (Py.split s "/") as [|h t]; [contradiction|].
    destruct t as [|h' t].
    + cbn [String.concat] in *. rewrite IH. reflexivity.
    + change (String.concat "/" (String c h :: h' :: t))
        with (String c (h +:+ "/" +:+ String.concat "/" (h' :: t))).
      change (String.concat "/" (h :: h' :: t))
        with (h +:+ "/" +:+ String.concat "/" (h' :: t)) in IH.
      rewrite IH. reflexivity.
Qed.

Lemma join_snoc (l : list string) (x : string) :
  l <> [] -> Py.join "/" (l ++ [x]) = Py.join "/" l +:+ "/" +:+ x.
Proof.
  unfold Py.join. induction l as [|a l IH]; intros Hne; [contradiction|].
  destruct l as [|b l]; [reflexivity|].
  change (String.concat "/" ((a :: b :: l) ++ [x]))
    with (a +:+ "/" +:+ String.concat "/" ((b :: l) ++ [x])).
  rewrite IH by discriminate.
  change (String.concat "/" (a :: b :: l))
    with (a +:+ "/" +:+ String.concat "/" (b :: l)).
  rewrite !app_assoc. reflexivity.
Qed.

(** The items [split] gives hold no separator. *)
Lemma split_items_no_slash (s : string) :
  Forall (fun x => no_slash x = true) (Py.split s "/").
Proof.
  induction s as [|c s IH]; cbn [Py.split].
  - constructor; [reflexivity | constructor].
  - destruct (Ascii.eqb c "/") eqn:Hc.
    + constructor; [reflexivity | exact IH].
    + destruct (Py.split s "/") as [|h t].
      * constructor; [|constructor]. cbn. rewrite Hc. reflexivity.
      * inversion IH as [|? ? Hh Ht]; subst. constructor; [|exact Ht].
        cbn [no_slash Cloner.forall_chars]. rewrite Hc. exact Hh.
Qed.

Lemma last_item_no_slash (s : string) :
  no_slash (Py.last_item (Py.split s "/")) = true.
Proof.
  pose proof (split_items_no_slash s) as H.
  pose proof (NameSpec.split_nonempty s "/") as Hne.
  rewrite (app_removelast_last EmptyString Hne) in H.
  apply Forall_app in H as [_ H]. inversion H; subst. assumption.
Qed.

(** *** [endswith] and [rstrip] *)

Lemma endswith_refl (s : string) : Py.endswith s s = true.
Proof. destruct s; cbn [Py.endswith]; rewrite String.eqb_refl; reflexivity. Qed.

Lemma endswith_app (a suf : string) : Py.endswith (a +:+ suf) suf = true.
Proof.
  induction a as [|c a IH]; [apply endswith_refl|].
  rewrite StringFacts.app_cons. cbn [Py.endswith]. rewrite IH.
  apply orb_true_r.
Qed.

Lemma endswith_inv (s suf : string) :
  Py.endswith s suf = true -> exists pre, s = pre +:+ suf.
Proof.
  induction s as [|c s IH]; cbn [Py.endswith]; intros H.
  - apply orb_prop in H as [H|H]; [|discriminate H].
    apply String.eqb_eq in H. exists EmptyString. exact H.
  - apply orb_prop in H as [H|H].
    + apply String.eqb_eq in H. exists EmptyString. exact H.
    + destruct (IH H) as [pre ->]. exists (String c pre). reflexivity.
Qed.

(** What [rstrip('/')] returns does not end with a slash. *)
Lemma rstrip_no_trailing_slash (s : string) :
  Py.endswith (Py.rstrip s "/") "/" = false.
Proof.
  induction s as [|c s IH]; [reflexivity|].
  cbn [Py.rstrip]. destruct (Py.rstrip s "/") as [|d r] eqn:Hr.
  - cbn [Py.char_in]. destruct (Ascii.eqb c "/") eqn:Hc; cbn [orb]; [reflexivity|].
    cbn [Py.endswith String.eqb]. rewrite Hc. reflexivity.
  - cbn [Py.endswith] in *. rewrite IH.
    cbn [String.eqb]. destruct (Ascii.eqb c "/"); reflexivity.
Qed.

(** A text that does not end with a slash is left alone by [rstrip('/')]. *)
Lemma rstrip_fixed (s : string) :
  Py.endswith s "/" = false -> Py.rstrip s "/" = s.
Proof.
  induction s as [|c s IH]; [reflexivity|].
  cbn [Py.endswith Py.rstrip]. intros H.
  apply orb_false_elim in H as [Hhere Hrest].
  destruct s as [|d s].
  - cbn [Py.rstrip Py.char_in]. cbn [String.eqb] in Hhere.
    destruct (Ascii.eqb c "/"); [discriminate Hhere | reflexivity].
  - rewrite (IH Hrest). reflexivity.
Qed.

(** *** [replace] with an empty replacement only deletes characters *)

Lemma replace_from_keeps (p : ascii -> bool) (old s : string) : forall k,
  Cloner.forall_chars p s = true ->
  Cloner.forall_chars p (Py.replace_from old EmptyString k s) = true.
Proof.
  induction s as [|c s IH]; intros k H; [reflexivity|].
  cbn [Cloner.forall_chars] in H. apply andb_prop in H as [Hc Hs].
  cbn [Py.replace_from]. destruct k as [|k]; [|apply IH, Hs].
  destruct (Py.has_prefix old (String c s)).
  - rewrite StringFacts.app_nil_l. apply IH, Hs.
  - cbn [Cloner.forall_chars]. rewrite Hc. apply IH, Hs.
Qed.

End TextFacts.

(** ** The pipeline as a whole *)

Module PipelineSpec.
Import Processor ProcessorEx ProcessorSpec PipelineEx.

(** [process_repository] never raises: it returns [True] or [False].  The
    start time is always set; the result is [True] exactly when the DELETE
    stage is recorded as completed, and exactly then the end time is set. *)
Theorem job_result_and_times {W} (env : Env W) (j : Job) (w : W) :
  let s := fst (process_repository env j (init_state w)) in
  let r := snd (process_repository env j (init_state w)) in
  (r = Ret true \/ r = Ret false) /\
  started s = true /\
  (r = Ret true <-> status s !! "delete" = Some "completed") /\
  (r = Ret true <-> ended s = true).
Proof.
  refine (wp_elim (process_repository env j)
            (fun s r =>
               (r = Ret true \/ r = Ret false) /\
               started s = true /\
               (r = Ret true <-> status s !! "delete" = Some "completed") /\
               (r = Ret true <-> ended s = true))
            (init_state w) _).
  run_pipeline; vm_compute; intuition congruence.
Qed.

Section Logged.
Context {W : Type} (env : Env W) (log : W -> list string).
Hypothesis Hlog : logs_runs env log.

(** A call of [_run_script] invokes [subprocess.run] for its script once,
    or not at all, and then it returns [False]. *)
Lemma wp_run_script_logged name args (Q : PState W -> Exc bool -> Prop) s :
  (forall w r,
     log w = log (world s) ++ [name] \/ (log w = log (world s) /\ r = Ret false) ->
     Q (record_call w (Build_Call name args r) s) r) ->
  wp (_run_script env name args) Q s.
Proof.
  intros H. unfold wp, _run_script.
  destruct (script_exists env name (world s)); cbn [negb].
  2: { apply H. right. split; reflexivity. }
  pose proof (Hlog name args (world s)) as Hrun.
  destruct (subprocess_run env name args (world s)) as [w []]; cbn [fst snd] in *;
    apply H; left; exact Hrun.
Qed.

End Logged.

(** Symbolic execution that follows the record of the invocations. *)
Local Ltac run_pipeline_logged log Hlog :=
  unfold process_repository;
  repeat (lazymatch goal with
          | |- wp (_run_script _ _ _) _ _ =>
              apply (wp_run_script_logged _ log Hlog); intros ? [[|]|?] ?
          | _ => wp_step
          end;
          cbv beta iota delta [status started ended world calls record_call init_state]
            in *).

(** The record after the run, written from the record before it. *)
Local Ltac read_log :=
  repeat match goal with
         | H : _ \/ (_ /\ _) |- _ => destruct H as [H | [H ?]]
         end;
  try discriminate;
  repeat match goal with
         | H : ?log _ = _ |- _ => rewrite H; clear H
         end;
  rewrite <- ?app_assoc; cbn [app].

(** A job that returns [True] has invoked [subprocess.run] for every script
    of its pipeline, once each and in the fixed order; only the API
    documentation generator can have been left out, when its file is
    missing, and then [api_docs] is skipped.  Every stage is recorded as
    completed, or as skipped for the two stages that can be, and every call
    of [_run_script], the one for the API documentation generator apart,
    returned [True]. *)
Theorem success_means_every_stage_passed {W} (env : Env W) (log : W -> list string)
    (j : Job) (w : W) :
  logs_runs env log ->
  snd (process_repository env j (init_state w)) = Ret true ->
  let s := fst (process_repository env j (init_state w)) in
  (log (world s) = log w ++ pipeline_scripts j \/
   (log (world s) = log w ++ without_api (pipeline_scripts j) /\
    status s !! "api_docs" = Some "skipped")) /\
  (forall st, passed st (status s !! stage_key st)) /\
  map call_script (calls s) = pipeline_scripts j /\
  (forall c, In c (calls s) ->
     call_result c = Ret true \/ call_script c = "api_documentation_generator.py").
Proof.
  intros Hlog.
  refine (wp_elim (process_repository env j)
            (fun s r => r = Ret true ->
               (log (world s) = log w ++ pipeline_scripts j \/
                (log (world s) = log w ++ without_api (pipeline_scripts j) /\
                 status s !! "api_docs" = Some "skipped")) /\
               (forall st, passed st (status s !! stage_key st)) /\
               map call_script (calls s) = pipeline_scripts j /\
               (forall c, In c (calls s) ->
                  call_result c = Ret true \/
                  call_script c = "api_documentation_generator.py"))
            (init_state w) _).
  unfold pipeline_scripts, without_api, passed.
  run_pipeline_logged log Hlog; intros Hr; try discriminate Hr; clear Hr;
    (split;
     [read_log; first [left; reflexivity | right; split; reflexivity]
     |split; [intros []; vm_compute; intuition congruence|];
      split; [reflexivity|];
      intros c Hc; cbn [In app] in Hc;
      repeat (destruct Hc as [<-|Hc]; [cbn [call_result call_script]; auto|]);
      destruct Hc]).
Qed.

Lemma logging_env_logs missing failing :
  logs_runs (logging_env missing failing) (fun w => w).
Proof. intros name args w. reflexivity. Qed.

Lemma recording_logs_runs {W} (env : Env W) : logs_runs (recording env) snd.
Proof. intros name args w. reflexivity. Qed.

(** The job whose API documentation generator has no file: it succeeds,
    and the generator is the one script that was not invoked. *)
Lemma success_means_every_stage_passed_witness :
  let env := logging_env ["api_documentation_generator.py"] [] in
  let run := process_repository env (example_job None) (init_state []) in
  logs_runs env (fun w => w) /\
  snd run = Ret true /\
  ((world (fst run) = [] ++ pipeline_scripts (example_job None) \/
    (world (fst run) = [] ++ without_api (pipeline_scripts (example_job None)) /\
     status (fst run) !! "api_docs" = Some "skipped")) /\
   (forall st, passed st (status (fst run) !! stage_key st)) /\
   map call_script (calls (fst run)) = pipeline_scripts (example_job None) /\
   (forall c, In c (calls (fst run)) ->
      call_result c = Ret true \/ call_script c = "api_documentation_generator.py")).
Proof.
  cbv zeta.
  split; [apply logging_env_logs|]. split; [vm_compute; reflexivity|].
  apply (success_means_every_stage_passed
           (logging_env ["api_documentation_generator.py"] []) (fun w => w)
           (example_job None) []).
  - apply logging_env_logs.
  - vm_compute; reflexivity.
Defined.

(** Evaluated: the generator is called, not invoked, and skipped. *)
Example missing_api_generator_is_passed_over :
  let run := process_repository (logging_env ["api_documentation_generator.py"] [])
               (example_job None) (init_state []) in
  snd run = Ret true /\
  world (fst run) =
    ["github_repo_cloner.py"; "file_classifier.py"; "project_documentation_generator.py";
     "uat_documentation_generator.py"; "repo_delete.py"] /\
  status (fst run) !! "api_docs" = Some "skipped".
Proof. vm_compute. repeat split. Qed.

(** Whatever happens, the scripts [subprocess.run] is invoked for are an
    initial part of the pipeline, in the fixed order and each at most once,
    the API documentation generator being left out when its file is
    missing; the calls of [_run_script] are an initial part of the pipeline
    as well, and a call is made only after every call before it returned
    [True], the one for the API documentation generator apart, whose
    failure is passed over. *)
Theorem scripts_run_in_pipeline_order {W} (env : Env W) (log : W -> list string)
    (j : Job) (w : W) :
  logs_runs env log ->
  let s := fst (process_repository env j (init_state w)) in
  (exists invoked,
     log (world s) = log w ++ invoked /\
     (invoked `prefix_of` pipeline_scripts j \/
      invoked `prefix_of` without_api (pipeline_scripts j))) /\
  map call_script (calls s) `prefix_of` pipeline_scripts j /\
  (forall before c after,
     calls s = before ++ c :: after -> after <> [] ->
     call_result c = Ret true \/ call_script c = "api_documentation_generator.py").
Proof.
  intros Hlog.
  refine (wp_elim (process_repository env j)
            (fun s _ =>
               (exists invoked,
                  log (world s) = log w ++ invoked /\
                  (invoked `prefix_of` pipeline_scripts j \/
                   invoked `prefix_of` without_api (pipeline_scripts j))) /\
               map call_script (calls s) `prefix_of` pipeline_scripts j /\
               (forall before c after,
                  calls s = before ++ c :: after -> after <> [] ->
                  call_result c = Ret true \/
                  call_script c = "api_documentation_generator.py"))
            (init_state w) _).
  unfold pipeline_scripts, without_api.
  run_pipeline_logged log Hlog;
    (split;
     [read_log;
      first [ exists []; split; [symmetry; apply app_nil_r|]
            | eexists; split; [reflexivity|] ];
      first [ left; eexists; cbn [app]; reflexivity
            | right; eexists; cbn; reflexivity ]
     |split; [eexists; cbn [map app]; reflexivity|];
      intros before c after Heq Hne; cbn [app] in Heq;
      repeat (destruct before as [|? before];
              [injection Heq as <- <-; first [contradiction (Hne eq_refl) | cbn; auto]
              |cbn [app] in Heq; injection Heq as <- Heq]);
      destruct before; discriminate Heq]).
Qed.

Lemma scripts_run_in_pipeline_order_witness :
  let env := logging_env ["api_documentation_generator.py"] ["repo_delete.py"] in
  let s := fst (process_repository env (example_job None) (init_state [])) in
  logs_runs env (fun w => w) /\
  (exists invoked,
     world s = [] ++ invoked /\
     (invoked `prefix_of` pipeline_scripts (example_job None) \/
      invoked `prefix_of` without_api (pipeline_scripts (example_job None)))) /\
  map call_script (calls s) `prefix_of` pipeline_scripts (example_job None) /\
  (forall before c after,
     calls s = before ++ c :: after -> after <> [] ->
     call_result c = Ret true \/ call_script c = "api_documentation_generator.py").
Proof.
  cbv zeta. split; [apply logging_env_logs|].
  apply (scripts_run_in_pipeline_order
           (logging_env ["api_documentation_generator.py"] ["repo_delete.py"])
           (fun w => w) (example_job None) []).
  apply logging_env_logs.
Defined.

(** The status dictionary only ever holds [completed], [failed] or
    [skipped], under the keys of the seven stages; a stage has an entry only
    if every stage before it was passed (completed, or skipped for the two
    stages that can be); and a stage recorded as failed makes the job return
    [False]. *)
Theorem status_follows_the_stages {W} (env : Env W) (j : Job) (w : W) :
  let s := fst (process_repository env j (init_state w)) in
  let r := snd (process_repository env j (init_state w)) in
  map_Forall (fun k v =>
                (exists st, k = stage_key st) /\
                (v = "completed" \/ v = "failed" \/ v = "skipped")) (status s) /\
  (forall st later,
     (stage_index st < stage_index later)%nat ->
     status s !! stage_key later <> None ->
     passed st (status s !! stage_key st)) /\
  (forall st, status s !! stage_key st = Some "failed" -> r = Ret false).
Proof.
  refine (wp_elim (process_repository env j)
            (fun s r =>
               map_Forall (fun k v =>
                 (exists st, k = stage_key st) /\
                 (v = "completed" \/ v = "failed" \/ v = "skipped")) (status s) /\
               (forall st later,
                  (stage_index st < stage_index later)%nat ->
                  status s !! stage_key later <> None ->
                  passed st (status s !! stage_key st)) /\
               (forall st, status s !! stage_key st = Some "failed" -> r = Ret false))
            (init_state w) _).
  unfold passed.
  run_pipeline;
    (split;
     [repeat (apply map_Forall_insert_2;
              [split; [first [ exists CLONE; reflexivity | exists CLASSIFY; reflexivity
                             | exists DOC_PROJECT; reflexivity | exists DOC_UAT; reflexivity
                             | exists DOC_API; reflexivity | exists ARCHIVE_SEND; reflexivity
                             | exists DELETE; reflexivity ]
                      | auto]
              |]);
      apply map_Forall_empty
     |split;
      [intros [] [] Hlt; cbn [stage_index] in Hlt; try lia; clear Hlt;
       vm_compute; intuition congruence
      |intros []; vm_compute; intuition congruence]]).
Qed.

(** The scenario of an interpreter that cannot be started for the first
    script: the job returns [False] and no stage has a status. *)
Lemma critical_raise_stops_witness :
  let run := process_repository (scripted_env [] ["github_repo_cloner.py"])
               (example_job None) (init_state tt) in
  critical_early CLONE = true /\
  raised (stage_script CLONE) (fst run) = true /\
  snd run = Ret false /\
  forall later, (stage_index CLONE <= stage_index later)%nat ->
    status (fst run) !! stage_key later = None.
Proof.
  cbv zeta. split; [reflexivity|]. split; [vm_compute; reflexivity|].
  apply (critical_raise_stops (scripted_env [] ["github_repo_cloner.py"])
           (example_job None) tt CLONE); vm_compute; reflexivity.
Defined.

End PipelineSpec.

(** ** The webhook endpoint, for every request *)

Module IngressSpec.
Import Processor ProcessorEx ClonerEx.

(** The endpoint answers every request: with 202, 400, 405 or 500.  The
    queue is changed exactly when the answer is 202, and then by one job
    put at its end, whose URL and reference token are the ones the answer
    reports; the jobs already queued are never touched. *)
Theorem webhook_queues_iff_accepted (hmac : string -> string -> string)
    (cfg : Config) (req : Request) (q : list Job) :
  exists resp,
    snd (github_webhook hmac cfg req q) = Ret resp /\
    In (code resp) [202; 400; 405; 500]%nat /\
    (code resp = 202%nat ->
       exists job,
         fst (github_webhook hmac cfg req q) = q ++ [job] /\
         body resp = QueuedBody "Repository processing queued" (repo_url job)
                       (reference_id job) "queued") /\
    (code resp <> 202%nat -> fst (github_webhook hmac cfg req q) = q).
Proof.
  unfold github_webhook.
  destruct (String.eqb (method req) "POST"); cbn [negb].
  - destruct (Py.truthy_opt (GITHUB_WEBHOOK_SECRET cfg) &&
              Py.truthy_opt (X_Hub_Signature req)).
    + eexists. split; [reflexivity|]. cbn. split; [tauto|].
      split; [discriminate | reflexivity].
    + destruct (split_reference (url_path req)) as [ref loc].
      unfold mbind, se_mbind, se_bind, try_except, mret, se_mret, se_ret,
        queue_put, se_modify. cbn [negb].
      destruct (valid_format loc); cbn [negb fst snd];
        (eexists; split; [reflexivity|]); cbn [code body In].
      * split; [tauto|]. split; [|congruence].
        intros _. eexists. split; reflexivity.
      * split; [tauto|]. split; [discriminate | reflexivity].
  - eexists. split; [reflexivity|]. cbn. split; [tauto|].
    split; [discriminate | reflexivity].
Qed.

(** Splitting the reference token off the path loses nothing: when a token
    is taken, the locator, a slash and the token give the path back; the
    token holds no slash and does not end with [.git].  When the token is
    empty (the path then ends with a slash) the path is left whole, and so
    is a path from which no token is taken. *)
Theorem reference_token_round_trip (path : string) :
  match split_reference path with
  | (Some token, locator) =>
      no_slash token = true /\
      Py.endswith token ".git" = false /\
      (if Py.truthy token then locator +:+ "/" +:+ token = path
       else locator = path /\ Py.endswith path "/" = true)
  | (None, locator) => locator = path
  end.
Proof.
  unfold split_reference.
  pose proof (NameSpec.split_nonempty path "/") as Hne.
  pose proof (TextFacts.last_item_no_slash path) as Hlast.
  pose proof (TextFacts.join_split path) as Hjoin.
  rewrite (app_removelast_last EmptyString Hne) in Hjoin.
  fold (Py.last_item (Py.split path "/")) in Hjoin.
  fold (Py.but_last (Py.split path "/")) in Hjoin.
  assert (Hlen : (2 <? length (Py.split path "/"))%nat = true ->
                 Py.but_last (Py.split path "/") <> []).
  { intros H. apply Nat.ltb_lt in H. unfold Py.but_last.
    destruct (Py.split path "/") as [|a [|b l]]; cbn in *; [lia | lia | discriminate]. }
  destruct ((2 <? length (Py.split path "/"))%nat) eqn:Hlong; cbn [andb];
    [|reflexivity].
  destruct (Py.endswith (Py.last_item (Py.split path "/")) ".git") eqn:Hgit;
    cbn [negb]; [reflexivity|].
  cbn [Py.truthy_opt].
  rewrite (TextFacts.join_snoc _ _ (Hlen eq_refl)) in Hjoin.
  destruct (Py.truthy (Py.last_item (Py.split path "/"))) eqn:Htruthy.
  - repeat split; assumption.
  - repeat split; try assumption.
    destruct (Py.last_item (Py.split path "/")); [|discriminate Htruthy].
    rewrite <- Hjoin. rewrite <- TextFacts.app_assoc, TextFacts.app_nil_r.
    apply TextFacts.endswith_app.
Qed.

(** The cleaned URL always ends with [.git] and never with a slash, and
    cleaning it again changes nothing. *)
Theorem clean_url_is_normal_form (github_url : string) :
  Py.endswith (clean_url github_url) ".git" = true /\
  Py.endswith (clean_url github_url) "/" = false /\
  clean_url (clean_url github_url) = clean_url github_url.
Proof.
  assert (Hnf : forall u, Py.endswith u ".git" = true ->
                  Py.endswith u "/" = false /\ clean_url u = u).
  { intros u Hu. destruct (TextFacts.endswith_inv u ".git" Hu) as [pre ->].
    assert (Hstrip : Py.rstrip (pre +:+ ".git") "/" = pre +:+ ".git")
      by (apply NameSpec.rstrip_app; [discriminate | reflexivity]).
    split.
    - rewrite <- Hstrip. apply TextFacts.rstrip_no_trailing_slash.
    - unfold clean_url. rewrite Hstrip, Hu. reflexivity. }
  assert (Hends : Py.endswith (clean_url github_url) ".git" = true).
  { unfold clean_url.
    destruct (Py.endswith (Py.rstrip github_url "/") ".git") eqn:H; cbn [negb].
    - exact H.
    - apply TextFacts.endswith_app. }
  destruct (Hnf _ Hends) as [H1 H2]. repeat split; assumption.
Qed.

(** The repository name derived from a URL never holds a slash. *)
Theorem repo_name_has_no_slash (url : string) :
  no_slash (_extract_repo_name url) = true.
Proof.
  unfold _extract_repo_name, Py.replace.
  apply TextFacts.replace_from_keeps, TextFacts.last_item_no_slash.
Qed.

(** A name without a slash can still be [..], which is no directory below
    the target directory. *)
Example repo_name_can_be_dot_dot :
  _extract_repo_name "https://github.com/o/...git" = "..".
Proof. vm_compute. reflexivity. Qed.

(** Called with its three arguments, [_verify_github_signature] never
    raises, and it fails open: it returns [False] exactly when a secret is
    configured, the payload is bytes or [None] (hashed as the empty
    message), the signature is a non-empty text of ASCII characters and
    the digest computed from the payload differs from it.  In every other
    case, the errors inside it included, it returns [True]. *)
Theorem verification_fails_open (hmac : string -> string -> string) (cfg : Config)
    (self payload signature : PyVal) :
  exists ok,
    _verify_github_signature hmac cfg self payload signature = Ret ok /\
    (ok = false <->
       exists key msg sg,
         GITHUB_WEBHOOK_SECRET cfg = Some key /\ Py.truthy key = true /\
         (payload = VBytes msg \/ (payload = VNone /\ msg = EmptyString)) /\
         signature = VStr sg /\ Py.truthy sg = true /\ Py.is_ascii sg = true /\
         "sha1=" +:+ hmac key msg <> sg).
Proof.
  assert (Hpass : forall P : Prop,
            (P -> False) -> exists ok : bool, Ret true = Ret ok /\ (ok = false <-> P)).
  { intros P HP. exists true. split; [reflexivity|].
    split; [discriminate | intros H; destruct (HP H)]. }
  unfold _verify_github_signature.
  destruct (GITHUB_WEBHOOK_SECRET cfg) as [key|] eqn:Hkey; cbn [Py.truthy_opt negb].
  2: { apply Hpass. intros (k & m & sg & H & _). discriminate H. }
  destruct (Py.truthy key) eqn:Hk; cbn [negb].
  2: { apply Hpass. intros (k & m & sg & H & Hk' & _). congruence. }
  destruct (val_truthy signature) eqn:Hsig; cbn [negb].
  2: { apply Hpass. intros (k & m & sg & _ & _ & _ & -> & Hsg & _).
       cbn [val_truthy] in Hsig. congruence. }
  cbn [default].
  assert (Hcompare : forall msg,
            (payload = VBytes msg \/ (payload = VNone /\ msg = EmptyString)) ->
            exists ok,
              match signature with
              | VStr sg =>
                  if Py.is_ascii sg
                  then Ret (String.eqb ("sha1=" +:+ hmac key msg) sg)
                  else Ret true
              | _ => Ret true
              end = Ret ok /\
              (ok = false <->
               exists key0 msg0 sg,
                 Some key = Some key0 /\ Py.truthy key0 = true /\
                 (payload = VBytes msg0 \/ (payload = VNone /\ msg0 = EmptyString)) /\
                 signature = VStr sg /\ Py.truthy sg = true /\ Py.is_ascii sg = true /\
                 "sha1=" +:+ hmac key0 msg0 <> sg)).
  { intros msg Hmsg.
    assert (Hsame : forall msg0,
              (payload = VBytes msg0 \/ (payload = VNone /\ msg0 = EmptyString)) ->
              msg0 = msg).
    { intros msg0 [H0|[H0 ->]]; destruct Hmsg as [H1|[H1 ->]]; congruence. }
    destruct signature as [|sg|b].
    - apply Hpass. intros (k & m & sg & _ & _ & _ & H & _). discriminate H.
    - destruct (Py.is_ascii sg) eqn:Hascii.
      + eexists. split; [reflexivity|]. rewrite String.eqb_neq. split.
        * intros Hne. exists key, msg, sg. repeat split; assumption.
        * intros (k & m & sg' & Hk0 & _ & Hm & Hs & _ & _ & Hne).
          injection Hk0 as <-. injection Hs as <-. rewrite (Hsame m Hm) in Hne. exact Hne.
      + apply Hpass. intros (k & m & sg' & _ & _ & _ & Hs & _ & Ha & _).
        injection Hs as <-. congruence.
    - apply Hpass. intros (k & m & sg & _ & _ & _ & H & _). discriminate H. }
  destruct payload as [|s|p].
  - apply (Hcompare EmptyString). right. split; reflexivity.
  - apply Hpass. intros (k & m & sg & _ & _ & [H|[H _]] & _); discriminate H.
  - apply (Hcompare p). left. reflexivity.
Qed.

(** A payload of [None] is hashed as the empty message, so a signature
    that does not match it is refused. *)
Example none_payload_is_checked :
  _verify_github_signature no_hmac secret_cfg VNone VNone (VStr "sha1=0000") = Ret false.
Proof. reflexivity. Qed.

End IngressSpec.

(** ** Forceful deletion, whatever the file system does *)

Module DeleterMore.
Import Deleter DeleterEx LockedEx.

(** The error handler [_remove_readonly] never raises, whatever the
    operations on the file system do; and when [os.chmod] fails and the
    deleter is not in force mode, the handler tries nothing else. *)
Theorem readonly_handler_swallows_errors {W} (fs : FsOps W) (d : Deleter)
    (func : RemoveFunc) (path : string) (w : W) :
  snd (_remove_readonly fs d func path w) = Ret tt /\
  (force d = false ->
   forall e, snd (chmod fs path w) = Raise e ->
     fst (_remove_readonly fs d func path w) = fst (chmod fs path w)).
Proof.
  split; [apply DeleterSpec.remove_readonly_never_raises|].
  intros Hforce e Hraise.
  unfold _remove_readonly, try_except, mbind, se_mbind, se_bind.
  destruct (chmod fs path w) as [w1 [[]|e1]]; cbn [fst snd] in *;
    [discriminate Hraise|].
  rewrite Hforce. reflexivity.
Qed.

Lemma readonly_handler_swallows_errors_witness :
  let run := _remove_readonly locked_fs careful_deleter os_unlink "/srv/work/demo/a"
               {["/srv/work/demo/a"]} in
  force careful_deleter = false /\
  snd (chmod locked_fs "/srv/work/demo/a" {["/srv/work/demo/a"]}) = Raise "PermissionError" /\
  snd run = Ret tt /\
  fst run = fst (chmod locked_fs "/srv/work/demo/a" {["/srv/work/demo/a"]}).
Proof.
  cbv zeta. split; [reflexivity|]. split; [reflexivity|].
  destruct (readonly_handler_swallows_errors locked_fs careful_deleter os_unlink
              "/srv/work/demo/a" {["/srv/work/demo/a"]}) as [Hret Hsame].
  split; [exact Hret|]. exact (Hsame eq_refl "PermissionError" eq_refl).
Defined.

(** With no assumption on the file system at all, [delete_repository]
    never raises: it returns [True] or [False]; and it returns [True] only
    when its final check found the path gone.  When the second removal
    attempt raises too, it returns [False] without that check. *)
Theorem delete_never_raises {W} (fs : FsOps W) (d : Deleter) (w : W) :
  exists b,
    snd (delete_repository fs d w) = Ret b /\
    (b = true ->
     path_exists fs (repo_path d) (fst (delete_repository fs d w)) = false).
Proof.
  refine (wp_elim (delete_repository fs d)
            (fun w' r => exists b, r = Ret b /\
               (b = true -> path_exists fs (repo_path d) w' = false)) w _).
  unfold delete_repository.
  apply wp_try, wp_bind, DeleterSpec.wp_total, wp_bind, DeleterSpec.wp_read, wp_bind,
    DeleterSpec.wp_git_block.
  intros w1. apply wp_bind. unfold wp at 1.
  destruct (DeleterSpec.remove_tree_result fs d w1) as [Hr|Hr];
    destruct (remove_tree fs d w1) as [w2 r]; cbn [fst snd] in *; subst r.
  - apply wp_bind, DeleterSpec.wp_read.
    destruct (path_exists fs (repo_path d) w2) eqn:Hex; apply wp_ret.
    + exists false. split; [reflexivity | discriminate].
    + exists true. split; [reflexivity | intros _; exact Hex].
  - apply wp_ret. exists false. split; [reflexivity | discriminate].
Qed.

End DeleterMore.

(** ** The processes that hold the repository *)

Module ProcsSpec.
Import Deleter Procs.

Section Rules.
Context {W : Type} (ps : PsOps W).

Lemma wp_lift {A} (m : SE W A) (Q : KState W -> Exc A -> Prop) s :
  (forall w r, m (kworld s) = (w, r) ->
     Q {| kworld := w; killed_processes := killed_processes s;
          kill_calls := kill_calls s |} r) ->
  wp (lift m) Q s.
Proof.
  intros H. unfold wp, lift.
  destruct (m (kworld s)) as [w r] eqn:E. exact (H w r eq_refl).
Qed.

Lemma wp_kill pid (Q : KState W -> Exc unit -> Prop) s :
  (forall w r,
     Q {| kworld := w; killed_processes := killed_processes s;
          kill_calls := kill_calls s ++ [pid] |} r) ->
  wp (kill ps pid) Q s.
Proof.
  intros H. unfold wp, kill.
  destruct (proc_kill ps pid (kworld s)) as [w r]. apply H.
Qed.

Lemma wp_except_only {S A} classes (m h : SE S A) (Q : S -> Exc A -> Prop) s :
  wp m (fun s' r => match r with
                    | Ret a => Q s' (Ret a)
                    | Raise e =>
                        if bool_decide (e ∈ classes) then wp h Q s' else Q s' (Raise e)
                    end) s ->
  wp (except_only classes m h) Q s.
Proof.
  unfold wp, except_only.
  destruct (m s) as [s' [a|e]]; cbn [fst snd]; [exact (fun H => H)|].
  destruct (bool_decide (e ∈ classes)); exact (fun H => H).
Qed.

(** Loops keep what their bodies keep. *)
Lemma wp_for_list {S A} (I : S -> Prop) (body : A -> SE S unit) l : forall s,
  I s ->
  (forall x s, I s -> wp (body x) (fun s' _ => I s') s) ->
  wp (for_list body l) (fun s' _ => I s') s.
Proof.
  induction l as [|x l IH]; intros s Hs Hbody; cbn [for_list].
  - apply wp_ret, Hs.
  - apply wp_bind. eapply wp_mono; [|apply Hbody, Hs].
    intros s' [[]|e] Hs'; [apply IH; assumption | exact Hs'].
Qed.

Lemma wp_for_list_until {S A B} (I : S -> Prop) (body : A -> SE S (option B)) l :
  forall s,
  I s ->
  (forall x s, I s -> wp (body x) (fun s' _ => I s') s) ->
  wp (for_list_until body l) (fun s' _ => I s') s.
Proof.
  induction l as [|x l IH]; intros s Hs Hbody; cbn [for_list_until].
  - apply wp_ret, Hs.
  - apply wp_bind. eapply wp_mono; [|apply Hbody, Hs].
    intros s' [[b|]|e] Hs'; [apply wp_ret, Hs' | apply IH; assumption | exact Hs'].
Qed.

Lemma wp_for_processes (I : KState W -> Prop) body it : forall s,
  I s ->
  (forall pid s, I s -> wp (body pid) (fun s' _ => I s') s) ->
  wp (for_processes it body) (fun s' _ => I s') s.
Proof.
  induction it as [|e|pid rest IH]; intros s Hs Hbody; cbn [for_processes].
  - apply wp_ret, Hs.
  - apply wp_raise, Hs.
  - apply wp_bind. eapply wp_mono; [|apply Hbody, Hs].
    intros s' [[]|e] Hs'; [|exact Hs'].
    apply (IH (kworld s') s' Hs' Hbody).
Qed.

Lemma wp_for_processes_until {B} (I : KState W -> Prop)
    (body : nat -> SE (KState W) (option B)) it : forall s,
  I s ->
  (forall pid s, I s -> wp (body pid) (fun s' _ => I s') s) ->
  wp (for_processes_until it body) (fun s' _ => I s') s.
Proof.
  induction it as [|e|pid rest IH]; intros s Hs Hbody; cbn [for_processes_until].
  - apply wp_ret, Hs.
  - apply wp_raise, Hs.
  - apply wp_bind. eapply wp_mono; [|apply Hbody, Hs].
    intros s' [[b|]|e] Hs'; [apply wp_ret, Hs' | | exact Hs'].
    apply (IH (kworld s') s' Hs' Hbody).
Qed.

(** The same for the loops over the process table as the code writes
    them, the generator being started when the loop is entered. *)
Lemma wp_iterate (I : KState W -> Prop) body s :
  I s ->
  (forall pid s, I s -> wp (body pid) (fun s' _ => I s') s) ->
  wp ((fun s0 => for_processes (process_iter ps (kworld s0)) body s0)
        : SE (KState W) unit)
     (fun s' _ => I s') s.
Proof.
  intros Hs Hbody.
  exact (wp_for_processes I body (process_iter ps (kworld s)) s Hs Hbody).
Qed.

Lemma wp_iterate_until {B} (I : KState W -> Prop)
    (body : nat -> SE (KState W) (option B)) s :
  I s ->
  (forall pid s, I s -> wp (body pid) (fun s' _ => I s') s) ->
  wp ((fun s0 => for_processes_until (process_iter ps (kworld s0)) body s0)
        : SE (KState W) (option B))
     (fun s' _ => I s') s.
Proof.
  intros Hs Hbody.
  exact (wp_for_processes_until I body (process_iter ps (kworld s)) s Hs Hbody).
Qed.

End Rules.

(** [_kill_git_processes] never raises, whatever [psutil] does: an error
    of one process is passed over and any other exception ends the call
    quietly. *)
Theorem kill_git_processes_never_raises {W} (ps : PsOps W) (d : Deleter)
    (s : KState W) :
  snd (_kill_git_processes ps d s) = Ret tt.
Proof.
  refine (wp_elim (_kill_git_processes ps d) (fun _ r => r = Ret tt) s _).
  unfold _kill_git_processes.
  apply wp_try, wp_any. intros s' [[]|e]; [reflexivity | apply wp_ret; reflexivity].
Qed.

Section Justified.
Context {W : Type} (ps : PsOps W) (d : Deleter).
Variable name_of : nat -> string.
Variable files_of : nat -> list string.
Hypothesis Hstable : stable_table ps name_of files_of.

Local Abbreviation justified := (Procs.justified d name_of files_of).

Lemma justified_log_and_kill pid s :
  justified s -> is_git_or_locking d name_of files_of pid = true ->
  wp (log_and_kill ps pid) (fun s' _ => justified s') s.
Proof.
  intros Hs Hpid. unfold log_and_kill.
  apply wp_bind, wp_lift. intros w1 [name|e] _; [|exact Hs].
  apply wp_bind, wp_kill. intros w2 r.
  assert (Hkilled : justified
            {| kworld := w2; killed_processes := killed_processes s;
               kill_calls := kill_calls s ++ [pid] |}).
  { intros p [Hp|Hp]; cbn [kill_calls killed_processes] in Hp.
    - apply in_app_or in Hp as [Hp|[<-|[]]]; [apply Hs; left; exact Hp | exact Hpid].
    - apply Hs; right; exact Hp. }
  destruct r as [[]|e]; [|exact Hkilled].
  apply wp_modify. intros p [Hp|Hp]; cbn [kill_calls killed_processes] in Hp.
  - apply Hkilled; left; exact Hp.
  - apply elem_of_union in Hp as [Hp|Hp].
    + apply elem_of_singleton in Hp as ->. exact Hpid.
    + apply Hs; right; exact Hp.
Qed.

Lemma justified_except classes (m : SE (KState W) unit) s :
  wp m (fun s' _ => justified s') s ->
  wp (except_only classes m (mret tt)) (fun s' _ => justified s') s.
Proof.
  intros H. apply wp_except_only. eapply wp_mono; [|exact H].
  intros s' [[]|e] Hs'; [exact Hs'|].
  destruct (bool_decide (e ∈ classes)); [apply wp_ret|]; exact Hs'.
Qed.

Lemma justified_kill_if_git pid s :
  justified s -> wp (kill_if_git ps pid) (fun s' _ => justified s') s.
Proof.
  intros Hs. unfold kill_if_git. apply justified_except.
  apply wp_bind, wp_lift. intros w1 [name|e] Hname; [|exact Hs].
  assert (name = name_of pid) as ->
    by (apply (proj1 Hstable pid (kworld s)); rewrite Hname; reflexivity).
  destruct (contains "git" (Cloner.lower (name_of pid))) eqn:Hgit.
  - apply justified_log_and_kill; [exact Hs|].
    unfold is_git_or_locking. rewrite Hgit. reflexivity.
  - apply wp_ret. exact Hs.
Qed.

Lemma justified_kill_if_locking pid s :
  justified s ->
  wp (kill_if_locking ps (repo_path d) pid) (fun s' _ => justified s') s.
Proof.
  intros Hs. unfold kill_if_locking. apply justified_except.
  unfold wp at 1. destruct (bool_decide (pid ∈ killed_processes s)); [exact Hs|].
  apply (wp_elim _ (fun s' _ => justified s')).
  apply wp_bind, wp_lift. intros w1 [files|e] Hfiles; [|exact Hs].
  assert (files = files_of pid) as ->
    by (apply (proj2 Hstable pid (kworld s)); rewrite Hfiles; reflexivity).
  assert (Hall : forall path, In path (files_of pid) ->
            contains (repo_path d) path = true ->
            is_git_or_locking d name_of files_of pid = true).
  { intros path Hin Hc. unfold is_git_or_locking. apply orb_true_intro. right.
    apply existsb_exists. exists path. split; assumption. }
  revert Hall. generalize (files_of pid) as files. intros files Hall.
  set (s1 := {| kworld := w1; killed_processes := killed_processes s;
                kill_calls := kill_calls s |}).
  assert (Hs1 : justified s1) by exact Hs.
  clearbody s1. clear Hfiles Hs. revert s1 Hs1.
  induction files as [|path files IH]; intros s1 Hs1; cbn [for_list].
  - apply wp_ret, Hs1.
  - apply wp_bind.
    assert (Hstep : wp (if contains (repo_path d) path
                        then log_and_kill ps pid else mret tt)
                      (fun s' _ => justified s') s1).
    { destruct (contains (repo_path d) path) eqn:Hc.
      - apply justified_log_and_kill; [exact Hs1|].
        apply (Hall path); [left; reflexivity | exact Hc].
      - apply wp_ret, Hs1. }
    eapply wp_mono; [|exact Hstep].
    intros s' [[]|e] Hs'; [|exact Hs'].
    apply IH; [|exact Hs']. intros p Hp. apply Hall. right; exact Hp.
Qed.

Lemma justified_kill_if_running pid s :
  justified s -> pid ∈ killed_processes s ->
  wp (kill_if_running ps pid)
     (fun s' _ => justified s' /\ killed_processes s' = killed_processes s) s.
Proof.
  intros Hs Hpid. unfold kill_if_running.
  apply wp_except_only, wp_bind, wp_lift.
  intros w1 [[]|e] _.
  2: { destruct (bool_decide (e ∈ psutil_errors)); [apply wp_ret|]; split;
         first [exact Hs | reflexivity]. }
  apply wp_bind, wp_lift. intros w2 [running|e] _; cbn [kworld killed_processes kill_calls].
  2: { destruct (bool_decide (e ∈ psutil_errors)); [apply wp_ret|]; split;
         first [exact Hs | reflexivity]. }
  destruct running.
  - apply wp_kill. intros w3 r. cbn [kworld killed_processes kill_calls].
    assert (Hk : justified {| kworld := w3; killed_processes := killed_processes s;
                              kill_calls := kill_calls s ++ [pid] |}).
    { intros p [Hp|Hp]; cbn [kill_calls killed_processes] in Hp.
      - apply in_app_or in Hp as [Hp|[<-|[]]]; apply Hs; [left | right]; assumption.
      - apply Hs; right; exact Hp. }
    destruct r as [[]|e]; [split; [exact Hk | reflexivity]|].
    destruct (bool_decide (e ∈ psutil_errors)); [apply wp_ret|];
      (split; [exact Hk | reflexivity]).
  - apply wp_ret. split; [exact Hs | reflexivity].
Qed.

Lemma justified_final_pass pids : forall s,
  justified s -> (forall pid, In pid pids -> pid ∈ killed_processes s) ->
  wp (for_list (kill_if_running ps) pids) (fun s' _ => justified s') s.
Proof.
  induction pids as [|pid pids IH]; intros s Hs Hin; cbn [for_list].
  - apply wp_ret, Hs.
  - apply wp_bind.
    eapply wp_mono; [|apply (justified_kill_if_running pid s Hs), Hin; left; reflexivity].
    cbv beta. intros s' [[]|e] [Hs' Hsame]; [|exact Hs'].
    apply IH; [exact Hs'|]. intros p Hp. rewrite Hsame. apply Hin. right; exact Hp.
Qed.

Lemma justified_kill_git_processes s :
  kill_calls s = [] ->
  justified (fst (_kill_git_processes ps d s)).
Proof.
  intros Hnone.
  refine (wp_elim (_kill_git_processes ps d) (fun s' _ => justified s') s _).
  unfold _kill_git_processes.
  assert (H0 : justified {| kworld := kworld s; killed_processes := ∅;
                            kill_calls := kill_calls s |}).
  { intros p [Hp|Hp]; cbn [kill_calls killed_processes] in Hp.
    - rewrite Hnone in Hp. destruct Hp.
    - apply elem_of_empty in Hp. destruct Hp. }
  apply wp_try.
  assert (Hbody : forall (m : SE (KState W) unit),
            wp m (fun s' _ => justified s') s ->
            wp m (fun s' r => match r with
                              | Ret a => justified s'
                              | Raise e => wp (mret tt) (fun s'' _ => justified s'') s'
                              end) s).
  { intros m Hm. eapply wp_mono; [|exact Hm].
    intros s' [[]|e] Hs'; [|apply wp_ret]; exact Hs'. }
  apply Hbody.
  apply wp_bind, wp_modify.
  apply wp_bind. eapply wp_mono;
    [|apply (wp_iterate ps justified);
      [exact H0 | intros pid s1; apply justified_kill_if_git]].
  intros s1 [[]|e] Hs1; [|exact Hs1].
  apply wp_bind. eapply wp_mono;
    [|apply (wp_iterate ps justified);
      [exact Hs1 | intros pid s2; apply justified_kill_if_locking]].
  intros s2 [[]|e] Hs2; [|exact Hs2].
  apply wp_bind, wp_lift. intros w3 r Hr. injection Hr as <- <-.
  apply justified_final_pass; [exact Hs2|].
  intros pid Hpid. cbn [killed_processes].
  apply elem_of_elements, list_elem_of_In, Hpid.
Qed.

End Justified.

(** In a process table whose names and open files do not change during the
    call, every process [_kill_git_processes] calls [kill] on has [git] in
    its lower-cased name or holds an open file whose path contains the path
    of the repository. *)
Theorem only_git_or_locking_processes_are_killed {W} (ps : PsOps W) (d : Deleter)
    (name_of : nat -> string) (files_of : nat -> list string) (w : W) :
  stable_table ps name_of files_of ->
  forall pid,
    In pid (kill_calls (fst (_kill_git_processes ps d (fresh w)))) ->
    is_git_or_locking d name_of files_of pid = true.
Proof.
  intros Hstable pid Hpid.
  apply (justified_kill_git_processes ps d name_of files_of Hstable (fresh w) eq_refl).
  left. exact Hpid.
Qed.

Lemma toy_table_is_stable : stable_table toy_ps toy_name toy_files.
Proof.
  split; intros pid w x; cbn [toy_ps proc_name proc_open_files]; unfold if_alive;
    destruct (bool_decide (pid ∈ w)); try discriminate;
    destruct (Nat.eqb pid 404); cbn [snd]; congruence.
Qed.

Lemma only_git_or_locking_processes_are_killed_witness :
  stable_table toy_ps toy_name toy_files /\
  forall pid,
    In pid (kill_calls (fst (_kill_git_processes toy_ps DeleterEx.demo_deleter
                               (fresh toy_world)))) ->
    is_git_or_locking DeleterEx.demo_deleter toy_name toy_files pid = true.
Proof.
  split; [exact toy_table_is_stable|].
  exact (only_git_or_locking_processes_are_killed toy_ps DeleterEx.demo_deleter
           toy_name toy_files toy_world toy_table_is_stable).
Defined.

(** On the example table the git process and the process holding the lock
    file are killed, the unrelated process and the one that cannot be
    inspected are left alone. *)
Example toy_table_kills :
  kill_calls (fst (_kill_git_processes toy_ps DeleterEx.demo_deleter (fresh toy_world))) =
    [101; 202]%nat /\
  elements (kworld (fst (_kill_git_processes toy_ps DeleterEx.demo_deleter
                           (fresh toy_world)))) = [404; 303]%nat.
Proof. vm_compute. split; reflexivity. Qed.

(** [_check_process_locks] never raises, and outside force mode it kills
    nothing. *)
Theorem check_locks_without_force_kills_nothing {W} (ps : PsOps W) (d : Deleter)
    (s : KState W) :
  (exists b, snd (_check_process_locks ps d s) = Ret b) /\
  (force d = false ->
   kill_calls (fst (_check_process_locks ps d s)) = kill_calls s).
Proof.
  split.
  - refine (wp_elim (_check_process_locks ps d) (fun _ r => exists b, r = Ret b) s _).
    unfold _check_process_locks.
    apply wp_try, wp_any. intros s' [b|e]; [|apply wp_ret]; eexists; reflexivity.
  - intros Hforce.
    refine (wp_elim (_check_process_locks ps d)
              (fun s' _ => kill_calls s' = kill_calls s) s _).
    unfold _check_process_locks.
    set (I := fun s' : KState W => kill_calls s' = kill_calls s).
    apply wp_try.
    assert (Hloop : wp ((fun s0 =>
              for_processes_until (process_iter ps (kworld s0))
                (fun pid =>
                   except_only psutil_errors
                     (files ← lift (proc_open_files ps pid);
                      for_list_until (check_file ps d pid) files)
                     (mret None)) s0) : SE (KState W) (option bool))
              (fun s' _ => I s') s).
    { apply (wp_iterate_until ps I); [reflexivity|].
      intros pid s1 Hs1. apply wp_except_only, wp_bind, wp_lift.
      intros w1 [files|e] _.
      2: { destruct (bool_decide (e ∈ psutil_errors)); [apply wp_ret|]; exact Hs1. }
      eapply wp_mono.
      2: { apply (wp_for_list_until I); [exact Hs1|].
           intros path s2 Hs2. unfold check_file.
           destruct (contains (repo_path d) path); [|apply wp_ret, Hs2].
           rewrite Hforce. cbn [negb].
           apply wp_bind, wp_lift. intros w2 [name|e] _; [apply wp_ret|]; exact Hs2. }
      cbv beta. intros s2 [o|e] Hs2; [exact Hs2|].
      destruct (bool_decide (e ∈ psutil_errors)); [apply wp_ret|]; exact Hs2. }
    apply wp_bind. eapply wp_mono; [|exact Hloop].
    cbv beta. intros s1 [[b|]|e] Hs1; repeat apply wp_ret; exact Hs1.
Qed.

Lemma check_locks_without_force_witness :
  force {| repo_path := "/srv/work/demo"; force := false |} = false /\
  (exists b, snd (_check_process_locks toy_ps
                    {| repo_path := "/srv/work/demo"; force := false |}
                    (fresh toy_world)) = Ret b) /\
  kill_calls (fst (_check_process_locks toy_ps
                     {| repo_path := "/srv/work/demo"; force := false |}
                     (fresh toy_world))) = kill_calls (fresh toy_world).
Proof.
  split; [reflexivity|].
  destruct (check_locks_without_force_kills_nothing toy_ps
              {| repo_path := "/srv/work/demo"; force := false |} (fresh toy_world))
    as [Hret Hsame].
  split; [exact Hret | exact (Hsame eq_refl)].
Defined.

(** On the example table the lock is found: the check answers [False]
    outside force mode; in force mode it kills the holder and answers
    [True]. *)
Example toy_table_lock_check :
  snd (_check_process_locks toy_ps {| repo_path := "/srv/work/demo"; force := false |}
         (fresh toy_world)) = Ret false /\
  snd (_check_process_locks toy_ps DeleterEx.demo_deleter (fresh toy_world)) = Ret true /\
  kill_calls (fst (_check_process_locks toy_ps DeleterEx.demo_deleter (fresh toy_world))) =
    [202]%nat.
Proof. vm_compute. repeat split. Qed.

End ProcsSpec.

(** ** The archiver, over a whole run *)

Module LedgerSpec.
Import Archiver ArchiverEx LedgerEx.

Section OneRun.
Variable env : RunEnv.

(** What [_archive_folder] returns. *)
Lemma archive_folder_result folder s :
  snd (_archive_folder env folder s) = Ret (archivable env folder) \/
  (exists e, snd (_archive_folder env folder s) = Raise e /\
             folder_exists env folder = true /\ unlink_ok env folder = false).
Proof.
  unfold _archive_folder, archivable.
  destruct (folder_exists env folder) eqn:Hex; cbn [negb andb]; [|left; reflexivity].
  unfold mbind, se_mbind, se_bind, try_except, _get_next_version, write_zip,
    _save_versions, record_assignment, unlink_if_exists, se_modify, mret, se_mret, se_ret.
  cbn [versions disk assigned version_file archive_files fst snd].
  destruct (zip_write_ok env folder); cbn [andb].
  - destruct (save_result env folder);
      cbn [versions disk assigned version_file archive_files fst snd];
      [left; reflexivity | |];
      repeat (match goal with
              | |- context [bool_decide ?P] => destruct (bool_decide P)
              | |- context [unlink_ok env folder] =>
                  destruct (unlink_ok env folder) eqn:?
              end; cbn [versions disk assigned version_file archive_files fst snd]);
      first [left; reflexivity | right; eexists; repeat split; reflexivity].
  - destruct (partial_archive_left env folder);
      cbn [versions disk assigned version_file archive_files fst snd];
      repeat (match goal with
              | |- context [bool_decide ?P] => destruct (bool_decide P)
              | |- context [unlink_ok env folder] =>
                  destruct (unlink_ok env folder) eqn:?
              end; cbn [versions disk assigned version_file archive_files fst snd]);
      first [left; reflexivity | right; eexists; repeat split; reflexivity].
Qed.

Lemma archive_folders_result folders : forall s,
  snd (archive_folders env folders s) = Ret (List.filter (archivable env) folders) \/
  (exists e folder, snd (archive_folders env folders s) = Raise e /\
                    In folder folders /\ unlink_ok env folder = false).
Proof.
  induction folders as [|folder rest IH]; intros s; [left; reflexivity|].
  cbn [archive_folders List.filter]. unfold mbind, se_mbind, se_bind.
  destruct (archive_folder_result folder s) as [Hr | (e & Hr & _ & Hun)];
    destruct (_archive_folder env folder s) as [s1 r]; cbn [snd] in Hr; subst r.
  - destruct (IH s1) as [Hrest | (e & f & Hrest & Hin & Hun)];
      destruct (archive_folders env rest s1) as [s2 r]; cbn [snd] in Hrest; subst r.
    + left. destruct (archivable env folder); reflexivity.
    + right. exists e, f. repeat split; [right; exact Hin | exact Hun].
  - right. exists e, folder. repeat split; [left; reflexivity | exact Hun].
Qed.

End OneRun.

(** [archive_documentation] returns the documentation folders that exist,
    whose archive could be written and after which the ledger could be
    saved, in the order of the list; no other name is ever returned.  It
    raises only when an archive that failed could not be unlinked. *)
Theorem archived_folders_are_the_archivable (env : RunEnv) (s : AState) :
  (forall archived,
     snd (archive_documentation env s) = Ret archived ->
     archived = List.filter (archivable env) docs_folders) /\
  ((forall folder, In folder docs_folders -> unlink_ok env folder = true) ->
   snd (archive_documentation env s) = Ret (List.filter (archivable env) docs_folders)).
Proof.
  unfold archive_documentation.
  destruct (archive_folders_result env docs_folders s)
    as [Hr | (e & folder & Hr & Hin & Hun)]; rewrite Hr.
  - split; [intros archived H; injection H as <-; reflexivity | reflexivity].
  - split; [discriminate|]. intros Hall. rewrite (Hall folder Hin) in Hun. discriminate Hun.
Qed.

Section Counters.
Variable env : RunEnv.
Hypothesis Hsafe : never_truncates env.

(** One call of [_archive_folder] for a folder whose counter is still the
    one of the start of the run. *)
Lemma archive_folder_counters folder s (c0 : string -> Z) :
  (forall g, (c0 g <= committed (version_file (disk s)) g <= counter s g)%Z /\
             (counter s g <= c0 g + 1)%Z) ->
  counter s folder = c0 folder ->
  let s' := fst (_archive_folder env folder s) in
  (forall g, (committed (version_file (disk s)) g <= committed (version_file (disk s')) g
              <= counter s' g)%Z /\ (counter s' g <= c0 g + 1)%Z) /\
  (forall g, g <> folder -> counter s' g = counter s g) /\
  (snd (_archive_folder env folder s) = Ret true ->
   committed (version_file (disk s')) folder = (c0 folder + 1)%Z).
Proof.
  intros Hinv Hfresh s'. subst s'. unfold counter in *.
  destruct (ArchiverSpec.archive_folder_effect env folder s)
    as [Hex Hs Hr | Hex Hzip Hv Hfile Hlog Hr | Hex Hv Hfile Hlog Hr].
  - rewrite Hs, Hr. split; [|split]; [|reflexivity|discriminate].
    intros g. specialize (Hinv g). lia.
  - rewrite Hfile. unfold committed at 2 3. cbn [_load_versions]. rewrite Hv.
    split; [|split].
    + intros g. specialize (Hinv g).
      rewrite ArchiverSpec.default_lookup_insert.
      destruct (decide (folder = g)) as [<-|]; lia.
    + intros g Hg. rewrite ArchiverSpec.default_lookup_insert.
      destruct (decide (folder = g)); [congruence | reflexivity].
    + intros _. unfold committed. cbn [_load_versions].
      rewrite ArchiverSpec.default_lookup_insert.
      destruct (decide (folder = folder)); [lia | contradiction].
  - destruct Hfile as [Hfile | (_ & Htrunc & _)]; [|elim (Hsafe folder Htrunc)].
    rewrite Hfile, Hv. split; [|split].
    + intros g. specialize (Hinv g).
      rewrite ArchiverSpec.default_lookup_insert.
      destruct (decide (folder = g)) as [<-|]; lia.
    + intros g Hg. rewrite ArchiverSpec.default_lookup_insert.
      destruct (decide (folder = g)); [congruence | reflexivity].
    + intros H. contradiction.
Qed.

(** A run over folders that are pairwise different. *)
Lemma archive_folders_counters folders : NoDup folders -> forall s (c0 : string -> Z),
  (forall g, (c0 g <= committed (version_file (disk s)) g <= counter s g)%Z /\
             (counter s g <= c0 g + 1)%Z) ->
  (forall g, In g folders -> counter s g = c0 g) ->
  let s' := fst (archive_folders env folders s) in
  (forall g, (committed (version_file (disk s)) g <= committed (version_file (disk s')) g
              <= counter s' g)%Z /\ (counter s' g <= c0 g + 1)%Z) /\
  (forall g, ~ In g folders -> counter s' g = counter s g) /\
  (forall archived g, snd (archive_folders env folders s) = Ret archived ->
     In g archived -> committed (version_file (disk s')) g = (c0 g + 1)%Z).
Proof.
  induction 1 as [|folder rest Hnotin Hnodup IH]; intros s c0 Hinv Hfresh; cbn zeta.
  - cbn [archive_folders]. unfold mret, se_mret, se_ret. cbn [fst snd].
    split; [|split].
    + intros g. specialize (Hinv g). lia.
    + reflexivity.
    + intros archived g H. injection H as <-. intros [].
  - cbn [archive_folders]. unfold mbind, se_mbind, se_bind, mret, se_mret, se_ret.
    destruct (archive_folder_counters folder s c0 Hinv
                (Hfresh folder (or_introl eq_refl))) as (H1 & H2 & H3).
    destruct (_archive_folder env folder s) as [s1 [ok|e]]; cbn [fst snd] in *.
    2: { split; [exact H1 | split; [|discriminate]].
         intros g Hg. apply H2. intros ->. apply Hg. left; reflexivity. }
    assert (Hinv1 : forall g,
              (c0 g <= committed (version_file (disk s1)) g <= counter s1 g)%Z /\
              (counter s1 g <= c0 g + 1)%Z).
    { intros g. specialize (Hinv g). specialize (H1 g). lia. }
    assert (Hfresh1 : forall g, In g rest -> counter s1 g = c0 g).
    { intros g Hg. rewrite H2.
      - apply Hfresh. right; exact Hg.
      - intros ->. apply Hnotin, list_elem_of_In, Hg. }
    specialize (IH s1 c0 Hinv1 Hfresh1). cbn zeta in IH.
    destruct IH as (I1 & I2 & I3).
    destruct (archive_folders env rest s1) as [s2 [archived|e]]; cbn [fst snd] in *.
    + split; [|split].
      * intros g. specialize (H1 g). specialize (I1 g). lia.
      * intros g Hg. rewrite I2, H2; [reflexivity | |].
        -- intros ->. apply Hg. left; reflexivity.
        -- intros Hin. apply Hg. right; exact Hin.
      * intros l g Hl Hg. injection Hl as <-.
        destruct ok; [destruct Hg as [<-|Hg]|].
        -- specialize (H3 eq_refl). specialize (I1 folder). lia.
        -- apply (I3 archived g eq_refl Hg).
        -- apply (I3 archived g eq_refl Hg).
    + split; [|split; [|discriminate]].
      * intros g. specialize (H1 g). specialize (I1 g). lia.
      * intros g Hg. rewrite I2, H2; [reflexivity | |].
        -- intros ->. apply Hg. left; reflexivity.
        -- intros Hin. apply Hg. right; exact Hin.
Qed.

End Counters.

Lemma docs_folders_differ : NoDup docs_folders.
Proof. apply (bool_decide_unpack _). vm_compute. exact I. Qed.

(** In a run in which no save leaves the ledger file truncated, the counter
    the file holds for any name never goes down and goes up by at most one,
    and the counters of names that are not documentation folders stay as
    they are. *)
Theorem run_moves_counters_by_at_most_one (env : RunEnv) (d : Disk)
    (log : list Assignment) (name : string) :
  never_truncates env ->
  let before := committed (version_file d) name in
  let after := committed (version_file (fst (run_once env d log))) name in
  (before <= after <= before + 1)%Z /\
  (~ In name docs_folders -> after = before).
Proof.
  intros Hsafe before after. subst before after.
  unfold run_once, archive_documentation. cbn [fst].
  fold (loaded d log).
  assert (Hstart : forall g, counter (loaded d log) g = committed (version_file d) g)
    by reflexivity.
  destruct (archive_folders_counters env Hsafe docs_folders docs_folders_differ
              (loaded d log) (committed (version_file d))) as (H1 & H2 & _).
  - intros g. rewrite Hstart. cbn [loaded disk]. lia.
  - intros g _. apply Hstart.
  - cbn [loaded disk] in H1. specialize (H1 name). split; [lia|].
    intros Hout. specialize (H2 name Hout). rewrite Hstart in H2. lia.
Qed.

Lemma run_moves_counters_witness :
  never_truncates (simple_run ["Classifier"] [] "20250101_000000") /\
  let before := committed (version_file empty_disk) "Classifier" in
  let after := committed (version_file
                 (fst (run_once (simple_run ["Classifier"] [] "20250101_000000")
                         empty_disk []))) "Classifier" in
  (before <= after <= before + 1)%Z /\
  (~ In "Classifier" docs_folders -> after = before).
Proof.
  assert (Hsafe : never_truncates (simple_run ["Classifier"] [] "20250101_000000"))
    by (intros folder; discriminate).
  split; [exact Hsafe|].
  exact (run_moves_counters_by_at_most_one
           (simple_run ["Classifier"] [] "20250101_000000") empty_disk [] "Classifier" Hsafe).
Defined.

(** In such a run, the ledger file ends with the counter of every folder
    the run reports as archived exactly one above the value it held when
    the archiver was created. *)
Theorem archived_folder_is_committed_once (env : RunEnv) (d : Disk)
    (log : list Assignment) (archived : list string) (folder : string) :
  never_truncates env ->
  snd (archive_documentation env (loaded d log)) = Ret archived ->
  In folder archived ->
  committed (version_file (disk (fst (archive_documentation env (loaded d log))))) folder =
    (committed (version_file d) folder + 1)%Z.
Proof.
  intros Hsafe Hr Hin.
  assert (Hstart : forall g, counter (loaded d log) g = committed (version_file d) g)
    by reflexivity.
  destruct (archive_folders_counters env Hsafe docs_folders docs_folders_differ
              (loaded d log) (committed (version_file d))) as (_ & _ & H3).
  - intros g. rewrite Hstart. cbn [loaded disk]. lia.
  - intros g _. apply Hstart.
  - exact (H3 archived folder Hr Hin).
Qed.

Lemma archived_folder_is_committed_once_witness :
  let env := simple_run ["API Documentation"; "Classifier"] ["API Documentation"]
               "20250101_000000" in
  let d := {| version_file := Ledger {["Classifier" := 4%Z]}; archive_files := [] |} in
  never_truncates env /\
  snd (archive_documentation env (loaded d [])) = Ret ["Classifier"] /\
  In "Classifier" ["Classifier"] /\
  committed (version_file (disk (fst (archive_documentation env (loaded d []))))) "Classifier" =
    (committed (version_file d) "Classifier" + 1)%Z.
Proof.
  cbv zeta.
  assert (Hsafe : never_truncates
            (simple_run ["API Documentation"; "Classifier"] ["API Documentation"]
               "20250101_000000")) by (intros folder; discriminate).
  assert (Hr : snd (archive_documentation
                      (simple_run ["API Documentation"; "Classifier"] ["API Documentation"]
                         "20250101_000000")
                      (loaded {| version_file := Ledger {["Classifier" := 4%Z]};
                                 archive_files := [] |} [])) = Ret ["Classifier"])
    by (vm_compute; reflexivity).
  split; [exact Hsafe|]. split; [exact Hr|]. split; [left; reflexivity|].
  exact (archived_folder_is_committed_once _ _ [] ["Classifier"] "Classifier" Hsafe Hr
           (or_introl eq_refl)).
Defined.

Lemma elem_of_snoc_other (name other : string) (l : list string) :
  other <> name -> (other ∈ l ++ [name] <-> other ∈ l).
Proof. intros Hne. rewrite elem_of_app, list_elem_of_singleton. tauto. Qed.

Lemma elem_of_remove_other (name other : string) (l : list string) :
  other <> name -> (other ∈ filter (fun n => n <> name) l <-> other ∈ l).
Proof. intros Hne. rewrite list_elem_of_filter. tauto. Qed.

Lemma not_elem_of_remove (name : string) (l : list string) :
  name ∉ filter (fun n => n <> name) l.
Proof. rewrite list_elem_of_filter. tauto. Qed.

Lemma elem_of_snoc_here (name : string) (l : list string) : name ∈ l ++ [name].
Proof. rewrite elem_of_app, list_elem_of_singleton. tauto. Qed.

Local Ltac other_archives :=
  repeat split; intros; try discriminate;
  repeat match goal with
         | H : ?o <> ?n, H0 : ?o ∈ filter _ _ |- _ =>
             rewrite (elem_of_remove_other n o _ H) in H0
         | H : ?o <> ?n, H0 : ?o ∈ _ ++ [?n] |- _ =>
             rewrite (elem_of_snoc_other n o _ H) in H0
         | H : ?o <> ?n |- ?o ∈ filter _ _ => rewrite (elem_of_remove_other n o _ H)
         | H : ?o <> ?n |- ?o ∈ _ ++ [?n] => rewrite (elem_of_snoc_other n o _ H)
         end;
  first [ assumption | apply elem_of_snoc_here | apply not_elem_of_remove
        | contradiction ].

(** Among the archives, the zip files of the archive directory, a call of
    [_archive_folder] touches one at most, the archive it names: after
    [True] that archive is there, after [False] for a folder that exists it
    is not, and no other archive is ever added or removed.  (The ledger
    [versions.json] lies in the same directory and is written by a call
    that succeeds; it is no archive and is not spoken of here.) *)
Theorem archive_folder_touches_one_archive (env : RunEnv) (folder : string) (s : AState) :
  let s' := fst (_archive_folder env folder s) in
  let r := snd (_archive_folder env folder s) in
  let name := next_archive_name env folder s in
  (r = Ret true -> name ∈ archive_files (disk s')) /\
  (folder_exists env folder = true -> r = Ret false -> name ∉ archive_files (disk s')) /\
  (forall other, other <> name ->
     (other ∈ archive_files (disk s') <-> other ∈ archive_files (disk s))).
Proof.
  cbv zeta. unfold next_archive_name, counter, _archive_folder.
  set (name := _create_archive_name folder (default 0%Z (versions s !! folder) + 1)
                 (timestamp env folder)).
  destruct (folder_exists env folder) eqn:Hex; cbn [negb].
  2: { cbn. repeat split; try discriminate; tauto. }
  unfold mbind, se_mbind, se_bind, try_except, _get_next_version, write_zip,
    _save_versions, record_assignment, unlink_if_exists, se_modify, mret, se_mret, se_ret.
  cbn [versions disk assigned version_file archive_files fst snd]. fold name.
  clearbody name.
  destruct (zip_write_ok env folder).
  - destruct (save_result env folder);
      cbn [versions disk assigned version_file archive_files fst snd];
      repeat (match goal with
              | |- context [bool_decide ?P] => destruct (bool_decide_reflect P)
              | |- context [unlink_ok env folder] => destruct (unlink_ok env folder)
              end; cbn [versions disk assigned version_file archive_files fst snd]);
      other_archives.
  - destruct (partial_archive_left env folder);
      cbn [versions disk assigned version_file archive_files fst snd];
      repeat (match goal with
              | |- context [bool_decide ?P] => destruct (bool_decide_reflect P)
              | |- context [unlink_ok env folder] => destruct (unlink_ok env folder)
              end; cbn [versions disk assigned version_file archive_files fst snd]);
      other_archives.
Qed.

(** *** Archive names *)

(** The digits of a number hold no underscore. *)
Lemma pretty_N_go_no_underscore (x : N) : forall s,
  Cloner.forall_chars (fun c => negb (Ascii.eqb c "_")) s = true ->
  Cloner.forall_chars (fun c => negb (Ascii.eqb c "_")) (pretty_N_go x s) = true.
Proof.
  induction (N.lt_wf_0 x) as [x _ IH]; intros s Hs.
  assert (x = 0 \/ 0 < x)%N as [->|Hpos] by lia; [exact Hs|].
  rewrite pretty_N_go_step by exact Hpos.
  apply IH; [apply N.div_lt; [exact Hpos | reflexivity]|].
  cbn [Cloner.forall_chars]. rewrite Hs, andb_true_r.
  unfold pretty_N_char.
  repeat match goal with
         | |- context [match ?n with _ => _ end] => destruct n
         end; reflexivity.
Qed.

Lemma pretty_Z_no_underscore (v : Z) :
  Cloner.forall_chars (fun c => negb (Ascii.eqb c "_")) (pretty v) = true.
Proof.
  assert (Hpos : forall p : positive,
            Cloner.forall_chars (fun c => negb (Ascii.eqb c "_")) (pretty p) = true).
  { intros p. unfold pretty, pretty_positive, pretty, pretty_N.
    destruct (decide (N.pos p = 0%N)); [reflexivity|].
    apply pretty_N_go_no_underscore. reflexivity. }
  destruct v as [|p|p]; [reflexivity | apply Hpos |].
  change (pretty (Z.neg p)) with ("-" +:+ pretty p).
  rewrite StringFacts.app_cons, StringFacts.app_nil_l.
  cbn [Cloner.forall_chars]. rewrite Hpos. reflexivity.
Qed.

(** Two texts that agree up to and after their first underscore. *)
Lemma cut_at_underscore (a b r1 r2 : string) :
  Cloner.forall_chars (fun c => negb (Ascii.eqb c "_")) a = true ->
  Cloner.forall_chars (fun c => negb (Ascii.eqb c "_")) b = true ->
  a +:+ "_" +:+ r1 = b +:+ "_" +:+ r2 -> a = b /\ r1 = r2.
Proof.
  revert b. induction a as [|x a IH]; intros [|y b] Ha Hb Heq;
    rewrite ?StringFacts.app_cons, ?StringFacts.app_nil_l in Heq;
    cbn [Cloner.forall_chars] in *.
  - injection Heq as ->. split; reflexivity.
  - injection Heq as <- _. discriminate Hb.
  - injection Heq as -> _. discriminate Ha.
  - injection Heq as -> Heq.
    apply andb_prop in Ha as [_ Ha]. apply andb_prop in Hb as [_ Hb].
    destruct (IH b Ha Hb Heq) as [-> ->]. split; reflexivity.
Qed.

(** The name of an archive fixes its version and its time stamp: for one
    folder, archives of different versions never share a file name, so a
    new version does not overwrite an older archive. *)
Theorem archive_name_fixes_the_version (folder_name : string) (v1 v2 : Z)
    (ts1 ts2 : string) :
  _create_archive_name folder_name v1 ts1 = _create_archive_name folder_name v2 ts2 ->
  v1 = v2 /\ ts1 = ts2.
Proof.
  unfold _create_archive_name. intros Heq.
  apply (String.app_inj folder_name) in Heq.
  apply (String.app_inj "_v") in Heq.
  apply cut_at_underscore in Heq as [Hv Hts]; try apply pretty_Z_no_underscore.
  split; [exact (pretty_Z_inj _ _ Hv) | exact (TextFacts.app_inv_tail _ _ _ Hts)].
Qed.

Lemma archive_name_fixes_the_version_witness :
  _create_archive_name "Classifier" 4 "20250101_000000" =
    _create_archive_name "Classifier" 4 "20250101_000000" /\
  (4 = 4)%Z /\ "20250101_000000" = "20250101_000000".
Proof.
  split; [reflexivity|].
  exact (archive_name_fixes_the_version "Classifier" 4 4 "20250101_000000"
           "20250101_000000" eq_refl).
Defined.

End LedgerSpec.

(** ** Delivery, for every environment *)

Module DeliverySpec.
Import Sender SenderEx DeliveryEx.

Section Send.
Variable repo_name : string.
Variable env : SendEnv.

(** [_create_archive_package] returns the path of the package when every
    step worked and [None] otherwise. *)
Lemma create_result s :
  snd (_create_archive_package repo_name env s) =
    Ret (if package_created env then Some (zip_filename repo_name env) else None).
Proof.
  unfold _create_archive_package, with_zipfile, package_created.
  destruct (mkdir_ok env), (zip_open_ok env), (add_archives_ok env),
    (manifest_open_ok env), (manifest_dump_ok env), (zip_add_manifest_ok env),
    (manifest_unlink_ok env), (zip_close_ok env); reflexivity.
Qed.

Lemma wp_create_result (Q : SState -> Exc (option string) -> Prop) s :
  (forall s', Q s' (Ret (if package_created env
                         then Some (zip_filename repo_name env) else None))) ->
  wp (_create_archive_package repo_name env) Q s.
Proof. intros HQ. unfold wp. rewrite create_result. apply HQ. Qed.

Lemma wp_cleanup_returns p (Q : SState -> Exc unit -> Prop) s :
  (forall s', Q s' (Ret tt)) -> wp (_cleanup_temp_files env p) Q s.
Proof.
  intros HQ. unfold wp. rewrite SenderSpec.cleanup_never_raises. apply HQ.
Qed.

Lemma wp_cleanup_if_bound_returns (Q : SState -> Exc unit -> Prop) s :
  (forall s', Q s' (Ret tt)) -> wp (cleanup_if_bound env) Q s.
Proof.
  intros HQ. unfold wp, cleanup_if_bound.
  destruct (local_zip_path s) as [p|]; [|apply HQ].
  apply (wp_cleanup_returns p Q s HQ).
Qed.

End Send.

(** [send_archives] never raises, and it returns [True] exactly when the
    package was built, the package could be opened for sending and the
    endpoint answered with status 200; a failing cleanup never turns a
    delivery into a failure. *)
Theorem send_archives_true_iff_delivered (repo_name : string) (env : SendEnv)
    (s : SState) :
  snd (send_archives repo_name env s) = Ret (delivered env).
Proof.
  refine (wp_elim (send_archives repo_name env) (fun _ r => r = Ret (delivered env)) s _).
  unfold send_archives, delivered.
  apply SenderSpec.wp_finally, wp_try, wp_bind, wp_create_result. intros s1.
  destruct (package_created env); cbn [andb].
  - apply wp_bind, wp_modify, wp_bind. unfold step.
    destruct (open_for_send_ok env); cbn [andb].
    + apply wp_modify.
      destruct (post_result env) as [n| |].
      * destruct (Nat.eqb n 200).
        -- apply wp_bind, wp_cleanup_returns. intros s2.
           apply wp_ret, wp_cleanup_if_bound_returns. reflexivity.
        -- apply wp_ret, wp_cleanup_if_bound_returns. reflexivity.
      * apply wp_raise, wp_ret, wp_cleanup_if_bound_returns. reflexivity.
      * apply wp_raise, wp_ret, wp_cleanup_if_bound_returns. reflexivity.
    + apply wp_raise, wp_ret, wp_cleanup_if_bound_returns. reflexivity.
  - apply wp_bind, wp_modify, wp_ret, wp_cleanup_if_bound_returns. reflexivity.
Qed.

(** What [_cleanup_temp_files] does to the temporary directory. *)
Lemma cleanup_effect (env : SendEnv) (zip_path : option string) (s : SState) :
  let s' := fst (_cleanup_temp_files env zip_path s) in
  snd (_cleanup_temp_files env zip_path s) = Ret tt /\
  (forall name, Some name <> zip_path ->
     (name ∈ files (tmp s') <-> name ∈ files (tmp s))) /\
  files (tmp s') ⊆ files (tmp s) /\
  (dir_present (tmp s) = true -> dir_present (tmp s') = false ->
   files (tmp s') = ∅) /\
  (dir_present (tmp s) = false -> dir_present (tmp s') = false) /\
  local_zip_path s' = local_zip_path s.
Proof.
  cbv zeta. split; [apply SenderSpec.cleanup_never_raises|].
  destruct s as [t zp].
  unfold _cleanup_temp_files, unlink_if_exists, rmdir_if_exists, try_except,
    mbind, se_mbind, se_bind, mret, se_mret, se_ret, step, with_tmp, se_modify, se_raise.
  destruct zip_path as [name|]; cbn [tmp local_zip_path fst snd].
  2: { repeat split; try tauto; try reflexivity. intros H1 H2; congruence. }
  assert (Hrm : forall x, Some x <> Some name ->
            (x ∈ files (remove_file name t) <-> x ∈ files t)).
  { intros x Hx. unfold remove_file; cbn [files].
    rewrite elem_of_difference, elem_of_singleton. intuition congruence. }
  assert (Hsub : files (remove_file name t) ⊆ files t).
  { unfold remove_file; cbn [files]. intros x.
    rewrite elem_of_difference. tauto. }
  destruct (bool_decide (name ∈ files t)); cbn [tmp local_zip_path fst snd].
  - destruct (zip_unlink_ok env); cbn [tmp local_zip_path fst snd].
    + destruct (dir_present (remove_file name t)) eqn:Hdir;
        cbn [tmp local_zip_path fst snd].
      * destruct (rmdir_ok env); cbn [andb].
        -- destruct (bool_decide_reflect (files (remove_file name t) = ∅)) as [He|He];
             cbn [tmp local_zip_path fst snd dir_present files];
             repeat split; try apply Hrm; try assumption; try reflexivity;
             try tauto; try congruence.
        -- cbn [tmp local_zip_path fst snd dir_present files].
           repeat split; try apply Hrm; try assumption; try reflexivity;
             try tauto; try congruence.
      * repeat split; try apply Hrm; try assumption; try reflexivity; try tauto.
        unfold remove_file in Hdir; cbn [dir_present] in Hdir. congruence.
    + repeat split; try tauto; try reflexivity. intros H1 H2; congruence.
  - destruct (dir_present t) eqn:Hdir; cbn [tmp local_zip_path fst snd].
    + destruct (rmdir_ok env); cbn [andb].
      * destruct (bool_decide_reflect (files t = ∅)) as [He|He];
          cbn [tmp local_zip_path fst snd dir_present files];
          repeat split; try assumption; try reflexivity; try tauto; try congruence.
      * cbn [tmp local_zip_path fst snd dir_present files].
        repeat split; try assumption; try reflexivity; try tauto; try congruence.
    + repeat split; try assumption; try reflexivity; try tauto; try congruence.
Qed.

Section NoTrace.
Variable repo_name : string.
Variable env : SendEnv.
Hypothesis Hcreated : package_created env = true.
Hypothesis Hunlink : zip_unlink_ok env = true.
Hypothesis Hrmdir : rmdir_ok env = true.

(** Built in a directory that held nothing, the package is the only file
    there. *)
Lemma wp_create_alone (Q : SState -> Exc (option string) -> Prop) s :
  files (tmp s) = ∅ ->
  (forall t', files t' ⊆ {[zip_filename repo_name env]} ->
              Q {| tmp := t'; local_zip_path := local_zip_path s |}
                (Ret (Some (zip_filename repo_name env)))) ->
  wp (_create_archive_package repo_name env) Q s.
Proof.
  intros Hempty HQ. pose proof Hcreated as Hall. unfold package_created in Hall.
  repeat (apply andb_prop in Hall as [Hall ?]).
  unfold _create_archive_package, with_zipfile.
  repeat match goal with H : _ = true |- _ => rewrite H; clear H end.
  apply wp_try.
  repeat (lazymatch goal with
          | |- wp (_ ≫= _) _ _ => apply wp_bind
          | |- wp (step true _) _ _ => apply SenderSpec.wp_step_ok
          | |- wp (mret _) _ _ => apply wp_ret
          end; cbv beta iota; cbn [tmp local_zip_path]).
  apply HQ. unfold id, add_file, remove_file; cbn [files]. rewrite Hempty.
  intros y. rewrite elem_of_difference, !elem_of_union, !elem_of_singleton, elem_of_empty.
  tauto.
Qed.

(** A cleanup that can unlink and remove leaves nothing of a directory that
    holds the package at most. *)
Lemma wp_cleanup_gone (Q : SState -> Exc unit -> Prop) s :
  files (tmp s) ⊆ {[zip_filename repo_name env]} ->
  Q {| tmp := {| dir_present := false; files := ∅ |};
       local_zip_path := local_zip_path s |} (Ret tt) ->
  wp (_cleanup_temp_files env (Some (zip_filename repo_name env))) Q s.
Proof.
  intros Hsub HQ. destruct s as [[present fs] zp]. cbn [tmp files local_zip_path] in *.
  assert (Hrest : fs ∖ {[zip_filename repo_name env]} = ∅).
  { apply set_eq. intros y. rewrite elem_of_difference, elem_of_singleton, elem_of_empty.
    specialize (Hsub y). rewrite elem_of_singleton in Hsub. tauto. }
  unfold _cleanup_temp_files, unlink_if_exists, rmdir_if_exists, wp, try_except,
    mbind, se_mbind, se_bind, mret, se_mret, se_ret, step, with_tmp, se_modify, se_raise,
    remove_file.
  rewrite Hunlink, Hrmdir. cbn [tmp local_zip_path files dir_present andb].
  destruct (bool_decide_reflect (zip_filename repo_name env ∈ fs)) as [Hin|Hout];
    cbn [tmp local_zip_path files dir_present fst snd].
  - rewrite Hrest. destruct present; cbn [tmp local_zip_path files dir_present fst snd].
    + rewrite bool_decide_eq_true_2 by reflexivity.
      cbn [tmp local_zip_path files dir_present fst snd]. exact HQ.
    + exact HQ.
  - assert (Hfs : fs = ∅).
    { apply set_eq. intros y. rewrite elem_of_empty. specialize (Hsub y).
      rewrite elem_of_singleton in Hsub. split; [|tauto].
      intros Hy. apply Hout. rewrite <- (Hsub Hy). exact Hy. }
    subst fs. destruct present; cbn [tmp local_zip_path files dir_present fst snd].
    + rewrite bool_decide_eq_true_2 by reflexivity.
      cbn [tmp local_zip_path files dir_present fst snd]. exact HQ.
    + exact HQ.
Qed.

Lemma send_leaves_no_trace t :
  files t = ∅ ->
  tmp (fst (send_archives repo_name env (fresh_call t))) =
    {| dir_present := false; files := ∅ |}.
Proof.
  intros Hempty.
  refine (wp_elim (send_archives repo_name env)
            (fun s' _ => tmp s' = {| dir_present := false; files := ∅ |})
            (fresh_call t) _).
  assert (Hend : forall (r : Exc bool) t1,
            files t1 ⊆ {[zip_filename repo_name env]} ->
            wp (cleanup_if_bound env)
              (fun s'' r' =>
                 match r' with
                 | Ret _ => tmp s'' = {| dir_present := false; files := ∅ |}
                 | Raise e => tmp s'' = {| dir_present := false; files := ∅ |}
                 end)
              {| tmp := t1;
                 local_zip_path := Some (Some (zip_filename repo_name env)) |}).
  { intros r t1 Hsub.
    apply (SenderSpec.wp_cleanup_if_bound env (Some (zip_filename repo_name env)));
      [reflexivity|].
    apply wp_cleanup_gone; [exact Hsub | reflexivity]. }
  unfold send_archives.
  apply SenderSpec.wp_finally, wp_try, wp_bind, wp_create_alone; [exact Hempty|].
  intros t1 Hsub. apply wp_bind, wp_modify. cbn [tmp local_zip_path].
  apply wp_bind. unfold step.
  destruct (open_for_send_ok env).
  - apply wp_modify. cbn [tmp local_zip_path].
    destruct (post_result env) as [n| |].
    + destruct (Nat.eqb n 200).
      * apply wp_bind, wp_cleanup_gone; [exact Hsub|].
        apply wp_ret. cbn [tmp local_zip_path].
        apply (Hend (Ret true)). cbn [files]. intros y Hy.
        apply elem_of_empty in Hy. destruct Hy.
      * apply wp_ret, (Hend (Ret false)), Hsub.
    + apply wp_raise, wp_ret, (Hend (Ret false)), Hsub.
    + apply wp_raise, wp_ret, (Hend (Ret false)), Hsub.
  - apply wp_raise, wp_ret, (Hend (Ret false)), Hsub.
Qed.

End NoTrace.

(** Once the package was created in a temporary directory that held
    nothing before, every way out of [send_archives] leaves no trace,
    provided the package can be unlinked and the directory removed: the
    directory is gone and no file is left, whether the delivery was made or
    not. *)
Theorem created_package_leaves_no_trace (repo_name : string) (env : SendEnv)
    (t : TempDir) :
  package_created env = true ->
  zip_unlink_ok env = true ->
  rmdir_ok env = true ->
  files t = ∅ ->
  tmp (fst (send_archives repo_name env (fresh_call t))) =
    {| dir_present := false; files := ∅ |}.
Proof.
  intros Hcreated Hunlink Hrmdir Hempty.
  exact (send_leaves_no_trace repo_name env Hcreated Hunlink Hrmdir t Hempty).
Qed.

Lemma created_package_leaves_no_trace_witness :
  package_created smooth_send = true /\
  zip_unlink_ok smooth_send = true /\
  rmdir_ok smooth_send = true /\
  files no_temp_dir = ∅ /\
  tmp (fst (send_archives "demo" smooth_send (fresh_call no_temp_dir))) =
    {| dir_present := false; files := ∅ |}.
Proof.
  split; [reflexivity|]. split; [reflexivity|]. split; [reflexivity|].
  split; [reflexivity|].
  exact (created_package_leaves_no_trace "demo" smooth_send no_temp_dir
           eq_refl eq_refl eq_refl eq_refl).
Defined.

(** [_cleanup_temp_files] never raises; it removes no file but the one it
    is given and adds none; it removes the temporary directory only when
    the directory is empty by then, and never creates it; and called with
    [None] it changes nothing. *)
Theorem cleanup_removes_only_the_package (env : SendEnv) (zip_path : option string)
    (s : SState) :
  let s' := fst (_cleanup_temp_files env zip_path s) in
  snd (_cleanup_temp_files env zip_path s) = Ret tt /\
  (forall name, Some name <> zip_path ->
     (name ∈ files (tmp s') <-> name ∈ files (tmp s))) /\
  files (tmp s') ⊆ files (tmp s) /\
  (dir_present (tmp s) = true -> dir_present (tmp s') = false ->
   files (tmp s') = ∅) /\
  (dir_present (tmp s) = false -> dir_present (tmp s') = false) /\
  local_zip_path s' = local_zip_path s /\
  (zip_path = None -> s' = s).
Proof.
  cbv zeta.
  destruct (cleanup_effect env zip_path s) as (H1 & H2 & H3 & H4 & H5 & H6).
  repeat split; try assumption; try apply H2; try assumption.
  intros ->. reflexivity.
Qed.

Section Foreign.
Variable repo_name : string.
Variable env : SendEnv.
Variable t0 : TempDir.
Variable x : string.
Hypothesis Hzip : x <> zip_filename repo_name env.
Hypothesis Hman : x <> manifest_name.

Local Abbreviation foreign_kept := (DeliveryEx.foreign_kept repo_name env t0 x).
Local Abbreviation harmless := (DeliveryEx.harmless x).

Lemma harmless_id : harmless id.
Proof. intros t. split; [reflexivity | exact (fun H => H)]. Qed.

Lemma harmless_mkdir :
  harmless (fun t => {| dir_present := true; files := files t |}).
Proof. intros t. split; [reflexivity | reflexivity]. Qed.

Lemma harmless_add name : x <> name -> harmless (add_file name).
Proof.
  intros Hne t. unfold add_file; cbn [files dir_present]. split; [|exact (fun H => H)].
  rewrite elem_of_union, elem_of_singleton. tauto.
Qed.

Lemma harmless_remove name : x <> name -> harmless (remove_file name).
Proof.
  intros Hne t. unfold remove_file; cbn [files dir_present]. split; [|exact (fun H => H)].
  rewrite elem_of_difference, elem_of_singleton. tauto.
Qed.

Lemma wp_step_kept ok f s :
  harmless f -> foreign_kept s ->
  wp (step ok f) (fun s' _ => foreign_kept s') s.
Proof.
  intros Hf (H1 & H2 & H3). unfold step. destruct ok.
  - apply wp_modify. destruct (Hf (tmp s)) as [F1 F2].
    split; [|split]; cbn [tmp local_zip_path]; [tauto | auto | exact H3].
  - apply wp_raise. split; [|split]; assumption.
Qed.

(** Sequencing of steps that keep [foreign_kept], whatever they return. *)
Lemma wp_seq_kept {A B} (m : SE SState A) (k : SE SState B) s :
  wp m (fun s' _ => foreign_kept s') s ->
  (forall s', foreign_kept s' -> wp k (fun s'' _ => foreign_kept s'') s') ->
  wp (m;; k) (fun s' _ => foreign_kept s') s.
Proof.
  intros Hm Hk. apply wp_bind. eapply wp_mono; [|exact Hm].
  intros s' [a|e] Hs'; [apply Hk|]; exact Hs'.
Qed.

Lemma wp_create_kept s :
  foreign_kept s ->
  wp (_create_archive_package repo_name env) (fun s' _ => foreign_kept s') s.
Proof.
  intros Hs. unfold _create_archive_package, with_zipfile.
  apply wp_try.
  assert (Hbody : forall (m : SE SState (option string)),
            wp m (fun s' _ => foreign_kept s') s ->
            wp m (fun s' r => match r with
                              | Ret a => foreign_kept s'
                              | Raise e => wp (mret None : SE SState (option string))
                                               (fun s'' _ => foreign_kept s'') s'
                              end) s).
  { intros m Hm. eapply wp_mono; [|exact Hm].
    intros s' [a|e] Hs'; [|apply wp_ret]; exact Hs'. }
  apply Hbody.
  repeat first
    [ apply wp_seq_kept; [|intros ? ?]
    | apply wp_step_kept;
      [first [ apply harmless_id | apply harmless_mkdir
             | apply harmless_add; assumption | apply harmless_remove; assumption ]
      | assumption]
    | apply wp_ret; assumption ].
Qed.

Lemma wp_cleanup_kept p s :
  p = None \/ p = Some (zip_filename repo_name env) ->
  foreign_kept s ->
  wp (_cleanup_temp_files env p) (fun s' _ => foreign_kept s') s.
Proof.
  intros Hp (H1 & H2 & H3). unfold wp.
  destruct (cleanup_effect env p s) as (_ & F1 & _ & F2 & _ & F3).
  cbv zeta in *.
  assert (Hx : Some x <> p) by (destruct Hp as [->| ->]; congruence).
  specialize (F1 x Hx).
  split; [|split].
  - tauto.
  - intros Hin Hdir. specialize (H2 Hin Hdir).
    destruct (dir_present (tmp (fst (_cleanup_temp_files env p s)))) eqn:Hafter;
      [reflexivity|].
    specialize (F2 H2 eq_refl).
    assert (Hhere : x ∈ files (tmp (fst (_cleanup_temp_files env p s)))) by tauto.
    rewrite F2 in Hhere. apply elem_of_empty in Hhere. destruct Hhere.
  - rewrite F3. exact H3.
Qed.

Lemma wp_cleanup_if_bound_kept s :
  foreign_kept s ->
  wp (cleanup_if_bound env) (fun s' _ => foreign_kept s') s.
Proof.
  intros Hs. pose proof Hs as (_ & _ & H3).
  unfold wp, cleanup_if_bound.
  destruct (local_zip_path s) as [p|] eqn:Hp; [|exact Hs].
  apply (wp_cleanup_kept p s); [|exact Hs].
  destruct H3 as [H3|[H3|H3]]; [discriminate H3 | left | right]; congruence.
Qed.

Lemma send_keeps_foreign s :
  foreign_kept s -> foreign_kept (fst (send_archives repo_name env s)).
Proof.
  intros Hs.
  refine (wp_elim (send_archives repo_name env) (fun s' _ => foreign_kept s') s _).
  unfold send_archives.
  apply SenderSpec.wp_finally.
  assert (Hfin : forall (m : SE SState bool),
            wp m (fun s' _ => foreign_kept s') s ->
            wp m (fun s' r =>
                    wp (cleanup_if_bound env)
                       (fun s'' r' => match r' with
                                      | Ret _ => foreign_kept s''
                                      | Raise e => foreign_kept s''
                                      end) s') s).
  { intros m Hm. eapply wp_mono; [|exact Hm].
    intros s' r Hs'. eapply wp_mono; [|apply wp_cleanup_if_bound_kept, Hs'].
    intros s'' [[]|e] Hs''; exact Hs''. }
  apply Hfin. apply wp_try.
  assert (Htry : forall (m : SE SState bool),
            wp m (fun s' _ => foreign_kept s') s ->
            wp m (fun s' r => match r with
                              | Ret a => foreign_kept s'
                              | Raise e => wp (mret false) (fun s'' _ => foreign_kept s'') s'
                              end) s).
  { intros m Hm. eapply wp_mono; [|exact Hm].
    intros s' [a|e] Hs'; [|apply wp_ret]; exact Hs'. }
  apply Htry. apply wp_bind. unfold wp at 1.
  pose proof (create_result repo_name env s) as Hres.
  pose proof (wp_create_kept s Hs) as Hkept. unfold wp in Hkept.
  destruct (_create_archive_package repo_name env s) as [s1 r]; cbn [fst snd] in *.
  subst r. destruct Hkept as (K1 & K2 & K3).
  destruct (package_created env).
  - apply wp_bind, wp_modify.
    assert (Hs2 : foreign_kept
              {| tmp := tmp s1;
                 local_zip_path := Some (Some (zip_filename repo_name env)) |}).
    { split; [|split]; cbn [tmp local_zip_path]; auto. }
    apply wp_seq_kept; [apply wp_step_kept; [apply harmless_id | exact Hs2]|].
    intros s3 Hs3.
    destruct (post_result env) as [n| |].
    + destruct (Nat.eqb n 200).
      * apply wp_seq_kept; [apply wp_cleanup_kept; [right; reflexivity | exact Hs3]|].
        intros s4 Hs4. apply wp_ret, Hs4.
      * apply wp_ret, Hs3.
    + apply wp_raise, Hs3.
    + apply wp_raise, Hs3.
  - apply wp_bind, wp_modify. apply wp_ret.
    split; [|split]; cbn [tmp local_zip_path]; auto.
Qed.

End Foreign.

(** [send_archives] leaves the files of others alone: a file of the
    temporary directory that is neither the package nor the manifest is
    there after the call exactly if it was there before, and the directory
    that holds such a file is not removed. *)
Theorem send_leaves_other_files (repo_name : string) (env : SendEnv) (t : TempDir)
    (other : string) :
  other <> zip_filename repo_name env ->
  other <> manifest_name ->
  let s' := fst (send_archives repo_name env (fresh_call t)) in
  (other ∈ files (tmp s') <-> other ∈ files t) /\
  (other ∈ files t -> dir_present t = true -> dir_present (tmp s') = true).
Proof.
  intros Hzip Hman.
  destruct (send_keeps_foreign repo_name env t other Hzip Hman (fresh_call t))
    as (H1 & H2 & _).
  - split; [|split]; cbn [fresh_call tmp local_zip_path]; [tauto | auto | auto].
  - split; assumption.
Qed.

Lemma send_leaves_other_files_witness :
  "notes.txt" <> zip_filename "demo" smooth_send /\
  "notes.txt" <> manifest_name /\
  let s' := fst (send_archives "demo" smooth_send (fresh_call shared_temp_dir)) in
  ("notes.txt" ∈ files (tmp s') <-> "notes.txt" ∈ files shared_temp_dir) /\
  ("notes.txt" ∈ files shared_temp_dir -> dir_present shared_temp_dir = true ->
   dir_present (tmp s') = true).
Proof.
  assert (H1 : "notes.txt" <> zip_filename "demo" smooth_send) by discriminate.
  assert (H2 : "notes.txt" <> manifest_name) by discriminate.
  split; [exact H1|]. split; [exact H2|].
  exact (send_leaves_other_files "demo" smooth_send shared_temp_dir "notes.txt" H1 H2).
Defined.

(** With a file of somebody else in the temporary directory, a delivery
    that succeeds removes the package and keeps the directory. *)
Example shared_directory_is_kept :
  let run := send_archives "demo" smooth_send (fresh_call shared_temp_dir) in
  snd run = Ret true /\
  dir_present (tmp (fst run)) = true /\
  elements (files (tmp (fst run))) = ["notes.txt"].
Proof. vm_compute. repeat split. Qed.

Lemma created_package_is_removed_witness :
  package_created smooth_send = true /\
  zip_unlink_ok smooth_send = true /\
  let s' := fst (send_archives "demo" smooth_send (fresh_call shared_temp_dir)) in
  (zip_filename "demo" smooth_send ∉ files (tmp s')) /\ (manifest_name ∉ files (tmp s')).
Proof.
  split; [reflexivity|]. split; [reflexivity|].
  exact (SenderSpec.created_package_is_removed "demo" smooth_send shared_temp_dir
           eq_refl eq_refl).
Defined.

End DeliverySpec.

(** ** The cloner *)

Module CloneSpec.
Import Cloner ClonerEx.

(** A URL that fails the validation is answered with [False] and nothing
    is done: no directory is made and nothing is cloned.  And [True] is
    returned only after the URL was found valid, an owner and a name were
    extracted, the access check passed, the parent directory was made and
    [clone_from] returned; the clone goes to the target directory joined
    with the extracted name. *)
Theorem clone_true_only_after_clone_from {W} (env : CloneEnv W)
    (repo_url target_dir : string) (w : W) :
  (fst (_validate_repo_url repo_url) = false ->
   clone_repository env repo_url target_dir w = (w, Ret false)) /\
  (snd (clone_repository env repo_url target_dir w) = Ret true ->
   fst (_validate_repo_url repo_url) = true /\
   exists owner name w1,
     _get_repo_info repo_url = (Some owner, Some name) /\
     owner <> EmptyString /\
     check_repo_access env owner name w = true /\
     mkdir_parents env (target_path target_dir name) w = (w1, Ret tt) /\
     clone_from env (with_token env repo_url) (target_path target_dir name) w1 =
       (fst (clone_repository env repo_url target_dir w), Ret tt)).
Proof.
  unfold clone_repository.
  destruct (fst (_validate_repo_url repo_url)); cbn [negb].
  2: { split; [reflexivity | discriminate]. }
  split; [discriminate|].
  destruct (_get_repo_info repo_url) as [[owner|] [name|]]; try discriminate.
  destruct (Py.truthy owner) eqn:Howner; cbn [andb negb]; [|discriminate].
  destruct (Py.truthy name); cbn [negb]; [|discriminate].
  destruct (check_repo_access env owner name w) eqn:Haccess; cbn [negb];
    [|discriminate].
  unfold try_except, mbind, se_mbind, se_bind, mret, se_mret, se_ret.
  destruct (mkdir_parents env (target_path target_dir name) w) as [w1 [[]|e1]] eqn:Hmk;
    [|discriminate].
  destruct (clone_from env (with_token env repo_url) (target_path target_dir name) w1)
    as [w2 [[]|e2]] eqn:Hclone; [|discriminate].
  cbn [fst snd]. intros _. split; [reflexivity|].
  exists owner, name, w1. repeat split; try assumption.
  intros ->. discriminate Howner.
Qed.

Lemma clone_true_only_after_clone_from_witness :
  let env := {| token := None;
                check_repo_access := fun _ _ (_ : unit) => true;
                mkdir_parents := fun _ w => (w, Ret tt);
                clone_from := fun _ _ w => (w, Ret tt) |} in
  let url := "https://github.com/octo/demo.git" in
  snd (clone_repository env url "/srv/work" tt) = Ret true /\
  fst (_validate_repo_url url) = true /\
  exists owner name w1,
    _get_repo_info url = (Some owner, Some name) /\
    owner <> EmptyString /\
    check_repo_access env owner name tt = true /\
    mkdir_parents env (target_path "/srv/work" name) tt = (w1, Ret tt) /\
    clone_from env (with_token env url) (target_path "/srv/work" name) w1 =
      (fst (clone_repository env url "/srv/work" tt), Ret tt).
Proof.
  cbv zeta. split; [vm_compute; reflexivity|].
  apply (proj2 (clone_true_only_after_clone_from
                  {| token := None;
                     check_repo_access := fun _ _ (_ : unit) => true;
                     mkdir_parents := fun _ w => (w, Ret tt);
                     clone_from := fun _ _ w => (w, Ret tt) |}
                  "https://github.com/octo/demo.git" "/srv/work" tt)).
  vm_compute; reflexivity.
Defined.

Lemma Forall_last_item (P : string -> Prop) (l : list string) :
  Forall P l -> P EmptyString -> P (Py.last_item l).
Proof.
  unfold Py.last_item. intros Hl Hd. induction Hl as [|a l Ha Hl IH]; [exact Hd|].
  destruct l; [exact Ha | exact IH].
Qed.

Lemma Forall_but_last (P : string -> Prop) (l : list string) :
  Forall P l -> Forall P (Py.but_last l).
Proof.
  unfold Py.but_last. intros Hl. induction Hl as [|a l Ha Hl IH]; [constructor|].
  destruct l; [constructor|]. constructor; assumption.
Qed.

(** The last item of a split text that does not end with the separator is
    not empty. *)
Lemma last_item_nonempty (s : string) :
  s <> EmptyString -> Py.endswith s "/" = false ->
  Py.last_item (Py.split s "/") <> EmptyString.
Proof.
  unfold Py.last_item.
  induction s as [|c s IH]; intros Hne Hend; [contradiction|].
  cbn [Py.endswith] in Hend. apply orb_false_elim in Hend as [Hhere Hrest].
  cbn [Py.split].
  pose proof (NameSpec.split_nonempty s "/") as Hsplit.
  destruct s as [|d s].
  - cbn [String.eqb] in Hhere. cbn [Py.split].
    destruct (Ascii.eqb c "/"); [discriminate Hhere | discriminate].
  - specialize (IH ltac:(discriminate) Hrest).
    destruct (Ascii.eqb c "/").
    + destruct (Py.split (String d s) "/") as [|h t]; [contradiction | exact IH].
    + destruct (Py.split (String d s) "/") as [|h t]; [contradiction|].
      destruct t; [discriminate | exact IH].
Qed.

(** [_get_repo_info] gives an owner and a name, or neither; the two are
    single path segments, and the name is never empty (the owner can be). *)
Theorem repo_info_is_two_segments (repo_url : string) :
  match _get_repo_info repo_url with
  | (Some owner, Some name) =>
      no_slash owner = true /\ no_slash name = true /\ name <> EmptyString
  | (None, None) => True
  | _ => False
  end.
Proof.
  unfold _get_repo_info.
  set (text := Py.strip (path (urlparse (Py.replace repo_url ".git" ""))) "/").
  destruct (2 <=? length (Py.split text "/"))%nat eqn:Hlen; [|exact I].
  pose proof (TextFacts.split_items_no_slash text) as Hall.
  split; [|split].
  - unfold last_but_one.
    apply (Forall_last_item (fun x => no_slash x = true)); [|reflexivity].
    apply Forall_but_last, Hall.
  - apply TextFacts.last_item_no_slash.
  - apply last_item_nonempty.
    + intros Hempty. rewrite Hempty in Hlen. discriminate Hlen.
    + apply TextFacts.rstrip_no_trailing_slash.
Qed.

(** The token goes into the URL handed to git only when there is one and
    the URL starts with [https://]; it is then put, followed by [@], after
    the scheme, and after every later occurrence of [https://] as well. *)
Theorem token_is_put_after_the_scheme {W} (env : CloneEnv W) :
  (forall url, Py.truthy_opt (token env) = false -> with_token env url = url) /\
  (forall url, Py.startswith url "https://" = false -> with_token env url = url) /\
  (forall tok rest,
     token env = Some tok -> Py.truthy tok = true ->
     with_token env ("https://" +:+ rest) =
       "https://" +:+ tok +:+ "@" +:+
       Py.replace rest "https://" ("https://" +:+ tok +:+ "@")).
Proof.
  unfold with_token. split; [|split].
  - intros url ->. reflexivity.
  - intros url ->. rewrite andb_false_r. reflexivity.
  - intros tok rest -> Htok. cbn [Py.truthy_opt]. rewrite Htok.
    change (default EmptyString (Some tok)) with tok.
    change (Py.startswith ("https://" +:+ rest) "https://") with true. cbn [andb].
    unfold Py.replace.
    set (new := "https://" +:+ tok +:+ "@").
    change (Py.replace_from "https://" new 0 ("https://" +:+ rest))
      with (new +:+ Py.replace_from "https://" new 0 rest).
    subst new. rewrite !TextFacts.app_assoc. reflexivity.
Qed.

End CloneSpec.

(** ** The processor and the cloner on the same URL *)

Module NameAgreement.
Import Cloner ClonerEx NamesEx.

Lemma forall_chars_app (p : ascii -> bool) (a b : string) :
  forall_chars p a = true -> forall_chars p b = true -> forall_chars p (a +:+ b) = true.
Proof.
  intros Ha Hb. induction a as [|c a IH]; [exact Hb|].
  rewrite StringFacts.app_cons. cbn [forall_chars] in *.
  apply andb_prop in Ha as [Hc Ha]. rewrite Hc. exact (IH Ha).
Qed.

Lemma forall_chars_weaken (p q : ascii -> bool) (s : string) :
  (forall c, p c = true -> q c = true) ->
  forall_chars p s = true -> forall_chars q s = true.
Proof.
  intros Hpq. induction s as [|c s IH]; [reflexivity|].
  cbn [forall_chars]. intros H. apply andb_prop in H as [Hc Hs].
  rewrite (Hpq c Hc). exact (IH Hs).
Qed.

(** A name character is none of the characters that structure a URL. *)
Lemma name_char_not_special (c : ascii) :
  name_char c = true -> negb (Py.char_in c "/?#;") = true.
Proof.
  destruct c as [b0 b1 b2 b3 b4 b5 b6 b7].
  destruct b0, b1, b2, b3, b4, b5, b6, b7; vm_compute; congruence.
Qed.

Lemma not_special_cases (c : ascii) :
  negb (Py.char_in c "/?#;") = true ->
  Ascii.eqb c "/" = false /\ Ascii.eqb c "?" = false /\
  Ascii.eqb c "#" = false /\ Ascii.eqb c ";" = false.
Proof.
  cbn [Py.char_in]. intros H. apply negb_true_iff in H.
  repeat (apply orb_false_elim in H as [? H]). repeat split; assumption.
Qed.

Lemma plain_quiet (s : string) : plain s = true -> quiet s = true.
Proof.
  apply forall_chars_weaken. intros c Hc.
  destruct (not_special_cases c (name_char_not_special c Hc)) as (_ & H1 & H2 & H3).
  cbn [Py.char_in]. rewrite H1, H2, H3. reflexivity.
Qed.

Lemma plain_no_slash (s : string) : plain s = true -> no_slash s = true.
Proof.
  apply forall_chars_weaken. intros c Hc.
  destruct (not_special_cases c (name_char_not_special c Hc)) as (H0 & _).
  rewrite H0. reflexivity.
Qed.

Lemma split1_absent (c : ascii) (s : string) :
  forall_chars (fun a => negb (Ascii.eqb a c)) s = true -> split1 s c = (s, None).
Proof.
  induction s as [|a s IH]; [reflexivity|].
  cbn [forall_chars split1]. intros H. apply andb_prop in H as [Ha Hs].
  apply negb_true_iff in Ha. rewrite Ha, (IH Hs). reflexivity.
Qed.

Lemma quiet_lacks (c : ascii) (s : string) :
  Py.char_in c "?#;" = true -> quiet s = true ->
  forall_chars (fun a => negb (Ascii.eqb a c)) s = true.
Proof.
  intros Hc. apply forall_chars_weaken. intros a Ha.
  apply negb_true_iff in Ha. apply negb_true_iff.
  destruct (Ascii.eqb_spec a c) as [->|]; [congruence | reflexivity].
Qed.

Lemma split_items_keep (p : ascii -> bool) (s : string) :
  forall_chars p s = true -> Forall (fun x => forall_chars p x = true) (Py.split s "/").
Proof.
  induction s as [|c s IH]; cbn [Py.split forall_chars]; intros H.
  - constructor; [reflexivity | constructor].
  - apply andb_prop in H as [Hc Hs]. specialize (IH Hs).
    destruct (Ascii.eqb c "/").
    + constructor; [reflexivity | exact IH].
    + destruct (Py.split s "/") as [|h t].
      * constructor; [|constructor]. cbn [forall_chars]. rewrite Hc. reflexivity.
      * inversion IH as [|? ? Hh Ht]; subst. constructor; [|exact Ht].
        cbn [forall_chars]. rewrite Hc. exact Hh.
Qed.

(** [_splitparams] leaves a path without [;] as it is. *)
Lemma split_params_quiet (p : string) : quiet p = true -> split_params p = p.
Proof.
  intros Hq. unfold split_params.
  assert (Hlast : split1 (Py.last_item (Py.split p "/")) ";" =
                  (Py.last_item (Py.split p "/"), None)).
  { apply split1_absent.
    apply (CloneSpec.Forall_last_item
             (fun x => forall_chars (fun a => negb (Ascii.eqb a ";")) x = true));
      [|reflexivity].
    apply split_items_keep, (quiet_lacks ";"); [reflexivity | exact Hq]. }
  rewrite Hlast. cbn [fst]. unfold Py.but_last, Py.last_item.
  rewrite <- (app_removelast_last EmptyString (NameSpec.split_nonempty p "/")).
  apply TextFacts.join_split.
Qed.

(** What [urlparse] makes of an [https://github.com] URL whose path holds
    no query, fragment or parameters. *)
Lemma urlparse_github (q : string) :
  quiet q = true ->
  urlparse ("https://github.com/" +:+ q) =
    {| scheme := "https"; netloc := "github.com"; path := "/" +:+ q |}.
Proof.
  intros Hq. unfold urlparse.
  change (split_scheme ("https://github.com/" +:+ q))
    with ("https", "//github.com/" +:+ q).
  cbv beta iota.
  change (split_netloc ("//github.com/" +:+ q)) with ("github.com", "/" +:+ q).
  cbv beta iota zeta.
  assert (Hp : quiet ("/" +:+ q) = true) by exact Hq.
  rewrite (split1_absent "#" ("/" +:+ q))
    by (apply (quiet_lacks "#"); [reflexivity | exact Hp]).
  cbn [fst].
  rewrite (split1_absent "?" ("/" +:+ q))
    by (apply (quiet_lacks "?"); [reflexivity | exact Hp]).
  cbn [fst].
  replace (bool_decide ("https" ∈ uses_params)) with true by (vm_compute; reflexivity).
  rewrite (split_params_quiet _ Hp). reflexivity.
Qed.

(** The path segments of [https://github.com/a/b]. *)
Lemma segments_of_github (a b : string) :
  plain a = true -> plain b = true -> a <> EmptyString -> b <> EmptyString ->
  path_segments ("https://github.com/" +:+ a +:+ "/" +:+ b) = [a; b] /\
  fst (_validate_repo_url ("https://github.com/" +:+ a +:+ "/" +:+ b)) = true.
Proof.
  intros Ha Hb Hane Hbne.
  assert (Hq : quiet (a +:+ "/" +:+ b) = true).
  { apply forall_chars_app; [apply plain_quiet, Ha|].
    apply (forall_chars_app _ "/" b); [reflexivity | apply plain_quiet, Hb]. }
  assert (Hstrip : Py.strip ("/" +:+ a +:+ "/" +:+ b) "/" = a +:+ "/" +:+ b).
  { unfold Py.strip.
    assert (Hl : Py.lstrip ("/" +:+ a +:+ "/" +:+ b) "/" = a +:+ "/" +:+ b).
    { destruct a as [|c a]; [contradiction|].
      cbn [plain forall_chars] in Ha. apply andb_prop in Ha as [Hc _].
      destruct (not_special_cases c (name_char_not_special c Hc)) as (H0 & _).
      change ("/" +:+ String c a +:+ "/" +:+ b)
        with (String "/" (String c (a +:+ "/" +:+ b))).
      cbn [Py.lstrip Py.char_in Ascii.eqb Bool.eqb orb].
      rewrite StringFacts.app_cons. cbn [Py.lstrip Py.char_in]. rewrite H0. reflexivity. }
    rewrite Hl. rewrite <- TextFacts.app_assoc.
    apply NameSpec.rstrip_app; [exact Hbne|].
    apply NameSpec.rstrip_segment, plain_no_slash, Hb. }
  assert (Hsplit : Py.split (a +:+ "/" +:+ b) "/" = [a; b]).
  { rewrite NameSpec.split_app.
    rewrite (NameSpec.split_segment a (plain_no_slash a Ha)).
    rewrite (NameSpec.split_segment b (plain_no_slash b Hb)). reflexivity. }
  split.
  - unfold path_segments. rewrite (urlparse_github _ Hq). cbn [path].
    rewrite Hstrip. exact Hsplit.
  - unfold _validate_repo_url.
    change (Py.truthy ("https://github.com/" +:+ a +:+ "/" +:+ b)) with true.
    cbn [negb]. rewrite (urlparse_github _ Hq). cbn [scheme netloc path].
    change (Py.truthy "https" && Py.truthy "github.com") with true.
    change (Py.endswith "github.com" "github.com") with true.
    cbn [negb]. rewrite Hstrip, Hsplit. reflexivity.
Qed.

(** An occurrence of [.git] cannot lie across a slash. *)
Lemma dot_git_prefix_before_slash (s r : string) :
  Py.has_prefix ".git" (s +:+ "/" +:+ r) = Py.has_prefix ".git" s.
Proof.
  destruct s as [|c1 [|c2 [|c3 [|c4 s]]]];
    rewrite ?StringFacts.app_cons, ?StringFacts.app_nil_l;
    change ("/" +:+ r) with (String "/" r);
    cbn [Py.has_prefix];
    repeat match goal with
           | |- context [Ascii.eqb ?a ?b] =>
               first [ is_var b; destruct (Ascii.eqb a b)
                     | let v := eval vm_compute in (Ascii.eqb a b) in
                       change (Ascii.eqb a b) with v ];
               cbn [andb Py.has_prefix]
           end;
    reflexivity.
Qed.

Lemma replace_from_slash_app (s r : string) : forall k,
  (k <= String.length s)%nat ->
  Py.replace_from ".git" "" k (s +:+ "/" +:+ r) =
  Py.replace_from ".git" "" k s +:+ "/" +:+ Py.replace_from ".git" "" 0 r.
Proof.
  induction s as [|c s IH]; intros k Hk.
  - cbn in Hk. assert (k = 0%nat) as -> by lia. reflexivity.
  - pose proof (dot_git_prefix_before_slash (String c s) r) as Hpre.
    rewrite StringFacts.app_cons in *.
    destruct k as [|k].
    + cbn [Py.replace_from]. rewrite Hpre.
      destruct (Py.has_prefix ".git" (String c s)) eqn:Hhere.
      * apply StringFacts.prefix_length in Hhere. cbn in Hhere.
        cbn [String.length Nat.sub]. rewrite !StringFacts.app_nil_l. apply IH. lia.
      * rewrite (StringFacts.app_cons c (Py.replace_from ".git" "" 0 s)).
        f_equal. apply IH. lia.
    + cbn [Py.replace_from]. apply IH. cbn in Hk. lia.
Qed.

Lemma replace_slash_app (s r : string) :
  Py.replace (s +:+ "/" +:+ r) ".git" "" =
  Py.replace s ".git" "" +:+ "/" +:+ Py.replace r ".git" "".
Proof. apply replace_from_slash_app. lia. Qed.

Lemma replace_keeps_plain (s : string) :
  plain s = true -> plain (Py.replace s ".git" "") = true.
Proof. apply TextFacts.replace_from_keeps. Qed.

Lemma replace_name_dot_git (name : string) :
  Py.replace (name +:+ ".git") ".git" "" = Py.replace name ".git" "".
Proof.
  rewrite <- (TextFacts.app_nil_r (name +:+ ".git")), TextFacts.app_assoc.
  rewrite StringFacts.replace_dot_git_app. apply TextFacts.app_nil_r.
Qed.

(** What [replace('.git', '')] makes of a URL of the usual form. *)
Lemma replace_github_url (owner name : string) :
  Py.replace (github_url owner name) ".git" "" =
  "https://github.com/" +:+ Py.replace owner ".git" "" +:+ "/" +:+
  Py.replace name ".git" "".
Proof.
  unfold github_url.
  change ("https://github.com/" +:+ owner +:+ "/" +:+ name +:+ ".git")
    with ("https:" +:+ "/" +:+ EmptyString +:+ "/" +:+ "github.com" +:+ "/" +:+
          owner +:+ "/" +:+ name +:+ ".git").
  rewrite !replace_slash_app, replace_name_dot_git. reflexivity.
Qed.

(** For a URL of the usual form the processor and the cloner agree: the URL
    is valid for the cloner, both derive the repository name with every
    [.git] removed, and the directory the processor hands to the later
    stages is the one the cloner clones into. *)
Theorem processor_and_cloner_agree_on_the_name (owner name target : string) :
  plain owner = true -> plain name = true ->
  Py.replace owner ".git" "" <> EmptyString ->
  Py.replace name ".git" "" <> EmptyString ->
  let url := github_url owner name in
  let cleaned := Py.replace name ".git" "" in
  fst (_validate_repo_url url) = true /\
  _get_repo_info url = (Some (Py.replace owner ".git" ""), Some cleaned) /\
  Processor._extract_repo_name url = cleaned /\
  (forall env_url hook ref,
     Processor.repo_path (Processor.new_job env_url url target hook ref) =
     target_path target cleaned).
Proof.
  intros Ho Hn Hone Hnne url cleaned. subst url cleaned.
  assert (Howner : owner <> EmptyString) by (intros ->; apply Hone; reflexivity).
  assert (Hgit : plain (name +:+ ".git") = true)
    by (apply forall_chars_app; [exact Hn | reflexivity]).
  assert (Hextract : Processor._extract_repo_name (github_url owner name) =
                     Py.replace name ".git" "").
  { unfold github_url.
    rewrite <- (TextFacts.app_assoc "https://github.com/" owner).
    rewrite (NameSpec.extract_repo_name_segment ("https://github.com/" +:+ owner)
               (name +:+ ".git")).
    - apply replace_name_dot_git.
    - destruct name; discriminate.
    - apply plain_no_slash, Hgit. }
  split; [|split; [|split]].
  - apply (segments_of_github owner (name +:+ ".git")); try assumption.
    destruct name; discriminate.
  - unfold _get_repo_info. rewrite replace_github_url.
    destruct (segments_of_github (Py.replace owner ".git" "") (Py.replace name ".git" ""))
      as [Hseg _]; try assumption; try (apply replace_keeps_plain; assumption).
    unfold path_segments in Hseg. rewrite Hseg. reflexivity.
  - exact Hextract.
  - intros env_url hook ref. unfold Processor.new_job, target_path.
    cbn [Processor.repo_path]. rewrite Hextract. reflexivity.
Qed.

Lemma processor_and_cloner_agree_witness :
  plain "octo" = true /\ plain "demo" = true /\
  Py.replace "octo" ".git" "" <> EmptyString /\
  Py.replace "demo" ".git" "" <> EmptyString /\
  fst (_validate_repo_url (github_url "octo" "demo")) = true /\
  _get_repo_info (github_url "octo" "demo") =
    (Some (Py.replace "octo" ".git" ""), Some (Py.replace "demo" ".git" "")) /\
  Processor._extract_repo_name (github_url "octo" "demo") = Py.replace "demo" ".git" "" /\
  (forall env_url hook ref,
     Processor.repo_path
       (Processor.new_job env_url (github_url "octo" "demo") "/srv/work" hook ref) =
     target_path "/srv/work" (Py.replace "demo" ".git" "")).
Proof.
  split; [reflexivity|]. split; [reflexivity|].
  split; [discriminate|]. split; [discriminate|].
  apply (processor_and_cloner_agree_on_the_name "octo" "demo" "/srv/work");
    first [reflexivity | discriminate].
Defined.

(** The segments of a URL of the usual form. *)
Lemma split_github_url (owner name : string) :
  plain owner = true -> plain name = true ->
  Py.split (github_url owner name) "/" =
    ["https:"; ""; "github.com"; owner; name +:+ ".git"].
Proof.
  intros Ho Hn. unfold github_url.
  assert (Hgit : no_slash (name +:+ ".git") = true).
  { apply plain_no_slash, forall_chars_app; [exact Hn | reflexivity]. }
  change ("https://github.com/" +:+ owner +:+ "/" +:+ name +:+ ".git")
    with ("https:" +:+ "/" +:+ EmptyString +:+ "/" +:+ "github.com" +:+ "/" +:+
          owner +:+ "/" +:+ name +:+ ".git").
  rewrite !NameSpec.split_app.
  rewrite (NameSpec.split_segment owner (plain_no_slash owner Ho)).
  rewrite (NameSpec.split_segment (name +:+ ".git") Hgit).
  reflexivity.
Qed.

(** The path of a webhook request carries a URL and a reference token.
    Take a URL [https://github.com/<owner>/<name>.git] whose owner and name
    are made of letters, digits, [-], [_] and [.], followed by a slash and
    a token without a slash.  A token that is not empty and does not end in
    [.git] is taken as the reference, and the URL is what is left.  A token
    that ends in [.git] is not split off: there is no reference, and the
    whole path is taken as the URL.  With an empty token the reference is
    the empty text and the path keeps its slash.  From the URL alone no
    reference is taken; the URL passes the format check and is left as it
    is by the clean-up. *)
Theorem webhook_path_carries_url_and_token (owner name token : string) :
  plain owner = true -> plain name = true -> no_slash token = true ->
  let url := github_url owner name in
  (token <> EmptyString -> Py.endswith token ".git" = false ->
   Processor.split_reference (url +:+ "/" +:+ token) = (Some token, url)) /\
  (Py.endswith token ".git" = true ->
   Processor.split_reference (url +:+ "/" +:+ token) = (None, url +:+ "/" +:+ token)) /\
  Processor.split_reference (url +:+ "/") = (Some EmptyString, url +:+ "/") /\
  Processor.split_reference url = (None, url) /\
  Processor.valid_format url = true /\
  Processor.clean_url url = url.
Proof.
  intros Ho Hn Ht url. subst url.
  pose proof (split_github_url owner name Ho Hn) as Hsplit.
  assert (Hends : Py.endswith (github_url owner name) ".git" = true).
  { unfold github_url. rewrite <- !TextFacts.app_assoc. apply TextFacts.endswith_app. }
  assert (Hparts : forall t, no_slash t = true ->
            Py.split (github_url owner name +:+ "/" +:+ t) "/" =
              ["https:"; ""; "github.com"; owner; name +:+ ".git"; t]).
  { intros t Hnt. rewrite NameSpec.split_app, Hsplit, (NameSpec.split_segment t Hnt).
    reflexivity. }
  split; [|split; [|split; [|split; [|split]]]].
  - intros Htne Htgit. unfold Processor.split_reference.
    rewrite (Hparts token Ht).
    cbn [app length Nat.ltb Nat.leb andb].
    change (Py.last_item ["https:"; ""; "github.com"; owner; name +:+ ".git"; token])
      with token.
    rewrite Htgit. cbn [negb Py.truthy_opt].
    destruct token as [|c token]; [contradiction|]. cbn [Py.truthy].
    change (Py.but_last ["https:"; ""; "github.com"; owner; name +:+ ".git"; String c token])
      with ["https:"; ""; "github.com"; owner; name +:+ ".git"].
    rewrite <- Hsplit, TextFacts.join_split. reflexivity.
  - intros Htgit. unfold Processor.split_reference.
    rewrite (Hparts token Ht).
    cbn [app length Nat.ltb Nat.leb andb].
    change (Py.last_item ["https:"; ""; "github.com"; owner; name +:+ ".git"; token])
      with token.
    rewrite Htgit. reflexivity.
  - unfold Processor.split_reference.
    change (github_url owner name +:+ "/") with (github_url owner name +:+ "/" +:+ "").
    rewrite (Hparts "" eq_refl). reflexivity.
  - unfold Processor.split_reference. rewrite Hsplit.
    cbn [length Nat.ltb Nat.leb andb].
    change (Py.last_item ["https:"; ""; "github.com"; owner; name +:+ ".git"])
      with (name +:+ ".git").
    rewrite TextFacts.endswith_app. reflexivity.
  - reflexivity.
  - unfold Processor.clean_url.
    rewrite (TextFacts.rstrip_fixed (github_url owner name)).
    + rewrite Hends. reflexivity.
    + destruct (TextFacts.endswith_inv _ _ Hends) as [pre Hpre]. rewrite Hpre.
      rewrite <- (NameSpec.rstrip_app pre ".git"); [|discriminate | reflexivity].
      apply TextFacts.rstrip_no_trailing_slash.
Qed.

Lemma webhook_path_carries_url_and_token_witness :
  plain "octo" = true /\ plain "demo" = true /\ no_slash "REF7" = true /\
  ("REF7" <> EmptyString -> Py.endswith "REF7" ".git" = false ->
   Processor.split_reference (github_url "octo" "demo" +:+ "/" +:+ "REF7") =
     (Some "REF7", github_url "octo" "demo")) /\
  (Py.endswith "REF7" ".git" = true ->
   Processor.split_reference (github_url "octo" "demo" +:+ "/" +:+ "REF7") =
     (None, github_url "octo" "demo" +:+ "/" +:+ "REF7")) /\
  Processor.split_reference (github_url "octo" "demo" +:+ "/") =
    (Some EmptyString, github_url "octo" "demo" +:+ "/") /\
  Processor.split_reference (github_url "octo" "demo") = (None, github_url "octo" "demo") /\
  Processor.valid_format (github_url "octo" "demo") = true /\
  Processor.clean_url (github_url "octo" "demo") = github_url "octo" "demo".
Proof.
  split; [reflexivity|]. split; [reflexivity|]. split; [reflexivity|].
  apply (webhook_path_carries_url_and_token "octo" "demo" "REF7"); reflexivity.
Defined.

(** Evaluated: a token is split off, a token that ends in [.git] is not. *)
Example token_is_split_off :
  Processor.split_reference "https://github.com/octo/demo.git/REF7" =
    (Some "REF7", "https://github.com/octo/demo.git") /\
  Processor.split_reference "https://github.com/octo/demo.git/v2.git" =
    (None, "https://github.com/octo/demo.git/v2.git").
Proof. vm_compute. split; reflexivity. Qed.

(** Outside the usual form the two can differ: with a fragment the
    processor keeps it in the name and the cloner drops it. *)
Example names_differ_with_a_fragment :
  Processor._extract_repo_name "https://github.com/octo/demo.git#main" = "demo#main" /\
  _get_repo_info "https://github.com/octo/demo.git#main" = (Some "octo", Some "demo").
Proof. vm_compute. split; reflexivity. Qed.

End NameAgreement.
